(** * Questionnaire analysis pipeline: partitioning, adequacy, extraction, bootstrap

    A shallow embedding of [quantitative_analysis/factor_analysis.py] and
    [quantitative_analysis/correlation_heatmaps.py].

    - A pandas [DataFrame] is a list of named columns and a list of labelled
      rows; a cell is a number or the missing-value marker [NaN].
    - Python names refer to objects: every DataFrame lives in an object
      [store] and the code handles locations.  [df.copy()], [df[cols]],
      [df[mask]], [df.dropna()], [df.sample()] and [df.corr()] allocate a
      new object; [df.drop(..., inplace=True)] overwrites the object it is
      called on.
    - The numeric libraries (numpy's random state, pandas' [corr], scipy's
      [kendalltau], numpy's [percentile] and [mean], factor_analyzer) are
      not part of the repository: they are a [Library] record of functions
      the pipeline is parameterised by, each a function of the values it
      is handed (a frame, a list of numbers, the generator state) that
      returns a value or raises.  Every call to them, and every console
      line, is appended to the [out] trace of the world.
    - Numbers are rationals: the comparisons the code makes ([==], [<],
      [>], [>=]) are exact on them, as they are on finite floats.  Colour
      codes and number formatting of the console lines are left out; a
      line is its text and the values printed in it.
    - Plotting and the CSV export are events of the trace; each keeps the
      shape check its call makes. *)

From Stdlib Require Import QArith.
From Stdlib Require Import Lqa.
From stdpp Require Import base list strings.

Local Open Scope string_scope.
Local Open Scope list_scope.

(** ** Cells and data frames *)

Inductive cell : Type :=
| NaN
| Num (q : Q).

(** [x == v], [x < v] and [x > v] on a cell: every comparison with [NaN]
    is false. *)
Definition cell_eqb (x : cell) (v : Q) : bool :=
  match x with Num q => Qeq_bool q v | NaN => false end.

Definition cell_ltb (x : cell) (v : Q) : bool :=
  match x with Num q => negb (Qle_bool v q) | NaN => false end.

Definition cell_gtb (x : cell) (v : Q) : bool :=
  match x with Num q => negb (Qle_bool q v) | NaN => false end.

Definition isna (x : cell) : bool :=
  match x with NaN => true | Num _ => false end.

(** A cell holding a whole number (a categorical code). *)
Definition cell_integral (x : cell) : Prop :=
  match x with Num q => exists z : Z, (q == inject_Z z)%Q | NaN => False end.

Record DataFrame : Type := mkDF {
  columns : list string;
  rows : list (Z * list cell)      (* index label, one cell per column *)
}.

Definition df_len (df : DataFrame) : nat := length (rows df).

(** [df.empty] *)
Definition df_empty (df : DataFrame) : bool :=
  match rows df, columns df with
  | [], _ | _, [] => true
  | _, _ => false
  end.

(** [df.values]: the cells as a two-dimensional array. *)
Definition ndarray : Type := list (list cell).

Definition values (df : DataFrame) : ndarray := map snd (rows df).

(** ** Python exceptions and results *)

Inductive Exn : Type :=
| KeyError (key : string)
| TypeError (msg : string)
| IndexError
| ValueError (msg : string)
| LibraryError (origin : string).

Inductive Result (A : Type) : Type :=
| Ok (a : A)
| Raise (e : Exn).
Arguments Ok {A} a.
Arguments Raise {A} e.

Definition rbind {A B} (r : Result A) (k : A -> Result B) : Result B :=
  match r with Ok a => k a | Raise e => Raise e end.

Fixpoint rmap {A B} (f : A -> Result B) (l : list A) : Result (list B) :=
  match l with
  | [] => Ok []
  | a :: l' => rbind (f a) (fun b => rbind (rmap f l') (fun bs => Ok (b :: bs)))
  end.

(** ** Column and row selection *)

Fixpoint col_pos (cs : list string) (c : string) : option nat :=
  match cs with
  | [] => None
  | c' :: cs' => if String.eqb c' c then Some 0 else S <$> col_pos cs' c
  end.

Definition cell_at (r : list cell) (p : nat) : cell := nth p r NaN.

(** [df[c]]: one column as a series; [KeyError] when there is no such column.
    This is [df[c]] on a frame whose column labels are distinct, as
    [read_csv] makes them: on a repeated label pandas selects a frame,
    not a series.  Properties that depend on it say [NoDup (columns df)]. *)
Definition getitem_col (df : DataFrame) (c : string) : Result (list cell) :=
  match col_pos (columns df) c with
  | Some p => Ok (map (fun r => cell_at (snd r) p) (rows df))
  | None => Raise (KeyError c)
  end.

(** [df[cols]]: the listed columns, in the listed order, as a new frame. *)
Definition getitem_cols (df : DataFrame) (cols : list string) : Result DataFrame :=
  rbind (rmap (fun c => match col_pos (columns df) c with
                        | Some p => Ok p
                        | None => Raise (KeyError c)
                        end) cols)
        (fun ps => Ok (mkDF cols
                         (map (fun r => (fst r, map (cell_at (snd r)) ps)) (rows df)))).

(** Element-wise [&] of two boolean series. *)
Definition series_and (a b : list bool) : list bool := zip_with andb a b.

Fixpoint select_rows {A} (l : list A) (mask : list bool) : list A :=
  match l, mask with
  | x :: l', b :: mask' => if b then x :: select_rows l' mask' else select_rows l' mask'
  | _, _ => []
  end.

(** [df[mask]] with a boolean series of the frame's own length. *)
Definition getitem_mask (df : DataFrame) (mask : list bool) : Result DataFrame :=
  if Nat.eqb (length mask) (df_len df)
  then Ok (mkDF (columns df) (select_rows (rows df) mask))
  else Raise (ValueError "Item wrong length").

Fixpoint remove_at {A} (ps : list nat) (i : nat) (l : list A) : list A :=
  match l with
  | [] => []
  | x :: l' => if existsb (Nat.eqb i) ps then remove_at ps (S i) l'
               else x :: remove_at ps (S i) l'
  end.

(** [df.drop(cols, axis=1)]: the frame without the listed columns. *)
Definition drop_columns (df : DataFrame) (cols : list string) : Result DataFrame :=
  rbind (rmap (fun c => match col_pos (columns df) c with
                        | Some p => Ok p
                        | None => Raise (KeyError c)
                        end) cols)
        (fun ps => Ok (mkDF (remove_at ps 0 (columns df))
                         (map (fun r => (fst r, remove_at ps 0 (snd r))) (rows df)))).

(** [df.dropna()]: the rows with no missing cell. *)
Definition dropna (df : DataFrame) : DataFrame :=
  mkDF (columns df)
       (List.filter (fun r => forallb (fun x => negb (isna x)) (snd r)) (rows df)).

(** ** Constants of the two modules *)

Definition STUDENT_ROLE_CODE : Q := 2.
Definition FREQUENT_VISITOR_THRESHOLD : Q := 1.
Definition HIDDEN_THRESHOLD : Q := 50.
Definition NUM_FACTORS : nat := 3.
Definition NUM_GROUPS : nat := 4.

Definition QUESTION_COLS : list string :=
  ["g01"; "g02"; "g03"; "g04"; "g05"; "g06";
   "g07"; "g08"; "g09"; "g10"; "g11"; "g12"].

Definition GROUP_LABELS : list string :=
  ["Single Page - Order A"; "Single Page - Order B";
   "Slides - Order A"; "Slides - Order B"].

Definition AUX_COLS : list string := ["formatUp"; "hidden"].

(** The columns the pipeline reads from the loaded matrix. *)
Definition CSV_COLS : list string :=
  ["uloga"; "cesto"] ++ AUX_COLS ++ QUESTION_COLS.

(** ** Upper triangle of a matrix *)

(** [np.triu_indices(n, k)]: the positions (i, j) of an n x n array with
    [j >= i + k], row by row. *)
Definition triu_indices (n k : nat) : list (nat * nat) :=
  flat_map (fun i => map (fun j => (i, j))
                         (List.filter (fun j => Nat.leb (i + k) j) (seq 0 n)))
           (seq 0 n).

(** [a[i, j]] *)
Definition array_get (a : ndarray) (ij : nat * nat) : Result cell :=
  match a !! fst ij with
  | Some r => match r !! snd ij with
              | Some x => Ok x
              | None => Raise IndexError
              end
  | None => Raise IndexError
  end.

(** [mask = np.triu_indices(df.shape[0], k=1); return df[mask]] *)
Definition upper_triangle (a : ndarray) : Result (list cell) :=
  rmap (array_get a) (triu_indices (length a) 1).

(** ** The world: object store, random state, trace *)

Definition loc : Type := nat.

(** The result of [FactorAnalyzer.fit]: [loadings_] and the first
    component of [get_eigenvalues()]. *)
Record FactorFit : Type := mkFit {
  loadings_ : ndarray;
  eigenvalues_ : list cell
}.

Record FAConfig : Type := mkFA {
  rotation : string;
  method : string;
  impute : string;
  n_factors : nat
}.

(** What the run does that an observer sees: console lines and calls into
    the numeric libraries, in order. *)
Inductive Event : Type :=
| Print (line : string)
| PrintCount (text : string) (n : nat)
| PrintStats (text : string) (xs : list cell)
| CallReadCsv (path : string)
| CallChoice (population size : nat)
| CallCorr (how : string) (x : DataFrame)
| CallKendalltau (x y : list cell)
| CallPercentile (xs : list cell) (p : Q)
| CallMean (xs : list cell)
| CallBartlett (x : DataFrame)
| CallKmo (x : DataFrame)
| CallFit (cfg : FAConfig) (x : DataFrame)
| Show (figure : string)
| WriteCsv (path : nat) (loadings : ndarray).

(** The external numeric libraries.  [G] is the state of numpy's global
    random generator. *)
Record Library (G : Type) : Type := mkLibrary {
  read_csv : string -> Result DataFrame;
  choice : G -> nat -> nat -> list nat * G;
  corr : string -> DataFrame -> Result DataFrame;
  kendalltau : list cell -> list cell -> Result cell;
  percentile : list cell -> Q -> Result cell;
  mean : list cell -> Result cell;
  calculate_bartlett_sphericity : DataFrame -> Result (cell * cell);
  calculate_kmo : DataFrame -> Result (list cell * cell);
  fit : FAConfig -> DataFrame -> Result FactorFit
}.
Arguments read_csv {G}.
Arguments choice {G}.
Arguments corr {G}.
Arguments kendalltau {G}.
Arguments percentile {G}.
Arguments mean {G}.
Arguments calculate_bartlett_sphericity {G}.
Arguments calculate_kmo {G}.
Arguments fit {G}.

Record World (G : Type) : Type := mkWorld {
  store : list DataFrame;
  rng : G;
  out : list Event
}.
Arguments mkWorld {G}.
Arguments store {G}.
Arguments rng {G}.
Arguments out {G}.

(** A computation: it may raise, and it changes the world either way. *)
Definition M (G A : Type) : Type := World G -> Result A * World G.

Definition ret {G A} (a : A) : M G A := fun w => (Ok a, w).

Definition bind {G A B} (c : M G A) (k : A -> M G B) : M G B :=
  fun w => match c w with
           | (Ok a, w1) => k a w1
           | (Raise e, w1) => (Raise e, w1)
           end.

Definition lift {G A} (r : Result A) : M G A := fun w => (r, w).

Notation "x <- c ;; k" := (bind c (fun x => k))
  (at level 100, c at next level, right associativity).
Notation "c ;;; k" := (bind c (fun _ => k))
  (at level 100, right associativity).

Definition emit {G} (e : Event) : M G unit :=
  fun w => (Ok tt, mkWorld (store w) (rng w) (out w ++ [e])).

(** A new object; its location is the next free one. *)
Definition alloc {G} (df : DataFrame) : M G loc :=
  fun w => (Ok (length (store w)), mkWorld (store w ++ [df]) (rng w) (out w)).

(** The object a name refers to.  A Python name always refers to a live
    object; a location outside the store is an error of the model only. *)
Definition deref {G} (l : loc) : M G DataFrame :=
  fun w => match store w !! l with
           | Some df => (Ok df, w)
           | None => (Raise (LibraryError "no such object"), w)
           end.

(** Overwrite an object in place. *)
Definition assign {G} (l : loc) (df : DataFrame) : M G unit :=
  fun w => (Ok tt, mkWorld (<[l := df]> (store w)) (rng w) (out w)).

(** A call into a library: recorded, then its result or exception. *)
Definition call {G A} (e : Event) (r : Result A) : M G A :=
  emit e ;;; lift r.

Fixpoint mmap {G A B} (f : A -> M G B) (l : list A) : M G (list B) :=
  match l with
  | [] => ret []
  | a :: l' => b <- f a ;; bs <- mmap f l' ;; ret (b :: bs)
  end.

(** [xs[i]] on a Python list. *)
Definition list_get {G A} (xs : list A) (i : nat) : M G A :=
  match xs !! i with
  | Some x => ret x
  | None => lift (Raise IndexError)
  end.

(** [enumerate(xs)] *)
Definition enumerate {A} (xs : list A) : list (nat * A) :=
  zip (seq 0 (length xs)) xs.

(** [range(n)] for a Python integer. *)
Definition range (n : Z) : list nat := seq 0 (Z.to_nat n).

(** ** DataFrame methods on objects *)

Section Methods.
Context {G : Type} (lib : Library G).

Definition df_len_of (l : loc) : M G nat :=
  df <- deref l ;; ret (df_len df).

Definition df_copy (l : loc) : M G loc :=
  df <- deref l ;; alloc df.

Definition df_getitem_cols (l : loc) (cols : list string) : M G loc :=
  df <- deref l ;; df' <- lift (getitem_cols df cols) ;; alloc df'.

Definition df_getitem_col (l : loc) (c : string) : M G (list cell) :=
  df <- deref l ;; lift (getitem_col df c).

Definition df_getitem_mask (l : loc) (mask : list bool) : M G loc :=
  df <- deref l ;; df' <- lift (getitem_mask df mask) ;; alloc df'.

(** [df.drop(cols, axis=1, inplace=True)] *)
Definition df_drop_inplace (l : loc) (cols : list string) : M G unit :=
  df <- deref l ;; df' <- lift (drop_columns df cols) ;; assign l df'.

Definition df_dropna (l : loc) : M G loc :=
  df <- deref l ;; alloc (dropna df).

(** The number of rows [sample(frac=0.6)] draws from [n]:
    [round(0.6 * n)]; 0.6 n is never half-way between two integers. *)
Definition sample_size (n : nat) : nat := (6 * n + 5) / 10.

(** [np.random.choice(n, size, replace=False)] on the global generator. *)
Definition draw (n size : nat) : M G (list nat) :=
  emit (CallChoice n size) ;;;
  (fun w => let (ps, g) := choice lib (rng w) n size
            in (Ok ps, mkWorld (store w) g (out w))).

(** [df.sample(frac=0.6)]: no [random_state] is passed, so the positions
    come from numpy's global generator, without replacement; the rows at
    those positions form a new frame. *)
Definition df_sample (l : loc) : M G loc :=
  df <- deref l ;;
  locs <- draw (df_len df) (sample_size (df_len df)) ;;
  picked <- lift (rmap (fun p => match rows df !! p with
                                 | Some r => Ok r
                                 | None => Raise IndexError
                                 end) locs) ;;
  alloc (mkDF (columns df) picked).

(** [df.corr(method=how)] *)
Definition df_corr (l : loc) (how : string) : M G loc :=
  df <- deref l ;;
  c <- call (CallCorr how df) (corr lib how df) ;;
  alloc c.

End Methods.

Definition cell_geb (x : cell) (v : Q) : bool :=
  match x with Num q => Qle_bool v q | NaN => false end.

(** [(rows, columns)] of a two-dimensional array given as its rows. *)
Definition has_shape (a : ndarray) (r c : nat) : bool :=
  Nat.eqb (length a) r && forallb (fun row => Nat.eqb (length row) c) a.

(** The doubles the decimal literals of [perform_adequacy_tests] denote:
    a comparison with [0.7] is a comparison with the double nearest to
    7/10, which lies below it, as the one nearest to 6/10 does; those
    nearest to 9/10, 8/10 and 1/1000 lie above, and 1/2 is a double. *)
Definition double_0_9 : Q := 8106479329266893 # 9007199254740992.
Definition double_0_8 : Q := 3602879701896397 # 4503599627370496.
Definition double_0_7 : Q := 3152519739159347 # 4503599627370496.
Definition double_0_6 : Q := 5404319552844595 # 9007199254740992.
Definition double_0_5 : Q := 1 # 2.
Definition double_0_001 : Q := 1152921504606847 # 1152921504606846976.

(** ** factor_analysis.py *)

Module FactorAnalysis.
Section Program.
Context {G : Type} (lib : Library G).

Definition DATA_FILEPATH : string := "../data/input/matrix-final.csv".

Definition filter_data (matrix : loc) : M G loc :=
  initial_count <- df_len_of matrix ;;
  uloga <- df_getitem_col matrix "uloga" ;;
  students <- df_getitem_mask matrix (map (fun x => cell_eqb x STUDENT_ROLE_CODE) uloga) ;;
  students_count <- df_len_of students ;;
  cesto <- df_getitem_col students "cesto" ;;
  frequent <- df_getitem_mask students
                (map (fun x => cell_gtb x FREQUENT_VISITOR_THRESHOLD) cesto) ;;
  final_count <- df_len_of frequent ;;
  emit (PrintCount "Initial records: " initial_count) ;;;
  emit (PrintCount "Students only: " students_count) ;;;
  emit (PrintCount "Frequent visitors: " final_count) ;;;
  df <- deref frequent ;;
  if df_empty df
  then emit (Print "Error: No data left after filtering.") ;;; alloc (mkDF [] [])
  else ret frequent.

(** One entry of the [conditions] list:
    [(grid['formatUp'] == f) & (grid['hidden'] <cmp> h)]. *)
Definition condition (grid : loc) (f : Q) (cmp : cell -> Q -> bool) (h : Q)
  : M G (list bool) :=
  formatUp <- df_getitem_col grid "formatUp" ;;
  hidden <- df_getitem_col grid "hidden" ;;
  ret (series_and (map (fun x => cell_eqb x f) formatUp)
                  (map (fun x => cmp x h) hidden)).

Definition prepare_format_groups (matrix : loc) : M G (list loc) :=
  emit (Print "Preparing format groups...") ;;;
  selected <- df_getitem_cols matrix (AUX_COLS ++ QUESTION_COLS) ;;
  grid <- df_copy selected ;;
  c1 <- condition grid 1 cell_ltb (HIDDEN_THRESHOLD + 1) ;;
  c2 <- condition grid 1 cell_gtb HIDDEN_THRESHOLD ;;
  c3 <- condition grid 2 cell_ltb (HIDDEN_THRESHOLD + 1) ;;
  c4 <- condition grid 2 cell_gtb HIDDEN_THRESHOLD ;;
  mmap (fun ic : nat * list bool =>
          masked <- df_getitem_mask grid (snd ic) ;;
          group <- df_copy masked ;;
          df_drop_inplace group AUX_COLS ;;;
          label <- list_get GROUP_LABELS (fst ic) ;;
          n <- df_len_of group ;;
          emit (PrintCount label n) ;;;
          ret group)
       (enumerate [c1; c2; c3; c4]).

Definition interpretation (kmo_model : cell) : string :=
  if cell_geb kmo_model double_0_9 then "Marvelous"
  else if cell_geb kmo_model double_0_8 then "Meritorious"
  else if cell_geb kmo_model double_0_7 then "Middling"
  else if cell_geb kmo_model double_0_6 then "Mediocre"
  else if cell_geb kmo_model double_0_5 then "Miserable"
  else "Unacceptable".

Definition perform_adequacy_tests (matrix : loc) : M G (cell * cell * cell) :=
  emit (Print "Performing adequacy tests...") ;;;
  selected <- df_getitem_cols matrix QUESTION_COLS ;;
  grid <- df_copy selected ;;
  faktor <- df_dropna grid ;;
  x <- deref faktor ;;
  emit (PrintCount "Complete cases for analysis: " (df_len x)) ;;;
  bartlett <- call (CallBartlett x) (calculate_bartlett_sphericity lib x) ;;
  emit (PrintStats "Bartlett's Test of Sphericity" [fst bartlett; snd bartlett]) ;;;
  emit (Print (if cell_ltb (snd bartlett) double_0_001
               then "Data is suitable for factor analysis (p < 0.001)"
               else "Warning: p-value > 0.001")) ;;;
  kmo <- call (CallKmo x) (calculate_kmo lib x) ;;
  emit (PrintStats "Overall KMO" [snd kmo]) ;;;
  emit (Print (interpretation (snd kmo))) ;;;
  ret (fst bartlett, snd bartlett, snd kmo).

Definition fa_config : FAConfig := mkFA "varimax" "principal" "drop" NUM_FACTORS.

Definition perform_factor_analysis (groups : list loc)
  : M G (list ndarray * list (list cell)) :=
  emit (Print "Performing factor analysis...") ;;;
  fits <- mmap (fun ig : nat * loc =>
                  label <- list_get GROUP_LABELS (fst ig) ;;
                  emit (PrintCount label (S (fst ig))) ;;;
                  x <- deref (snd ig) ;;
                  fa <- call (CallFit fa_config x) (fit lib fa_config x) ;;
                  emit (PrintStats "Eigenvalues (first 3)" (take 3 (eigenvalues_ fa))) ;;;
                  ret fa)
               (enumerate groups) ;;
  ret (map loadings_ fits, map eigenvalues_ fits).

Definition create_scree_plot (eigenvalues : list (list cell)) (groups : list loc)
  : M G unit :=
  mmap (fun eg : list cell * loc => deref (snd eg)) (zip eigenvalues groups) ;;;
  emit (Show "Scree Plot - Eigenvalues by Factor").

(** A frame built from [loading] with 12 row labels and 3 column labels:
    pandas refuses any other shape. *)
Definition create_loadings_heatmaps (loadings : list ndarray) : M G unit :=
  mmap (fun loading : ndarray =>
          if has_shape loading (length QUESTION_COLS) NUM_FACTORS then ret tt
          else lift (Raise (ValueError "Shape of passed values")))
       (take 4 loadings) ;;;
  emit (Show "Factor Loadings by Group").

Definition save_loadings_to_csv (loadings : ndarray) (group_index : nat) : M G unit :=
  emit (Print "Saving factor loadings to CSV...") ;;;
  (if has_shape loadings (length QUESTION_COLS) NUM_FACTORS then ret tt
   else lift (Raise (ValueError "could not broadcast input array"))) ;;;
  emit (WriteCsv group_index loadings) ;;;
  emit (PrintCount "Factor loadings saved to: " group_index).

Definition print_summary (chi_square p_value kmo_model : cell)
                         (eigenvalues : list (list cell)) : M G unit :=
  emit (Print "ANALYSIS SUMMARY") ;;;
  emit (PrintStats "Data Adequacy" [chi_square; p_value; kmo_model]) ;;;
  emit (PrintCount "Number of factors extracted: " NUM_FACTORS) ;;;
  mmap (fun iev : nat * list cell =>
          label <- list_get GROUP_LABELS (fst iev) ;;
          emit (Print label) ;;;
          mmap (fun j => x <- list_get (snd iev) j ;;
                         emit (PrintStats "Factor" [x]))
               (seq 0 NUM_FACTORS))
       (enumerate eigenvalues) ;;;
  ret tt.

(** What [main] does once the groups are known to be non-empty: its
    straight-line tail, the adequacy tests first and then everything
    from the factor analysis to the last line. *)
Definition factor_stage (adequacy : cell * cell * cell) (groups : list loc) : M G unit :=
  fa <- perform_factor_analysis groups ;;
  create_scree_plot (snd fa) groups ;;;
  create_loadings_heatmaps (fst fa) ;;;
  l0 <- list_get (fst fa) 0 ;; save_loadings_to_csv l0 0 ;;;
  l1 <- list_get (fst fa) 1 ;; save_loadings_to_csv l1 1 ;;;
  l2 <- list_get (fst fa) 2 ;; save_loadings_to_csv l2 2 ;;;
  l3 <- list_get (fst fa) 3 ;; save_loadings_to_csv l3 3 ;;;
  print_summary (fst (fst adequacy)) (snd (fst adequacy)) (snd adequacy) (snd fa) ;;;
  emit (Print "Analysis complete!").

Definition analyses (filtered_matrix : loc) (groups : list loc) : M G unit :=
  adequacy <- perform_adequacy_tests filtered_matrix ;;
  factor_stage adequacy groups.

Definition main : M G unit :=
  emit (Print "Exploratory Factor Analysis (EFA) for Questionnaire Data") ;;;
  csv <- call (CallReadCsv DATA_FILEPATH) (read_csv lib DATA_FILEPATH) ;;
  matrix <- alloc csv ;;
  emit (PrintCount "Data loaded: " (df_len csv)) ;;;
  filtered_matrix <- filter_data matrix ;;
  filtered <- deref filtered_matrix ;;
  if df_empty filtered then ret tt else
  groups <- prepare_format_groups filtered_matrix ;;
  sizes <- mmap df_len_of groups ;;
  if existsb (Nat.eqb 0) sizes
  then emit (Print "Error: One or more groups have no data.")
  else analyses filtered_matrix groups.

End Program.
End FactorAnalysis.

(** ** correlation_heatmaps.py *)

(** The Python values [get_upper_triangle] may be handed. *)
#[warnings="-register-all"]
Inductive PyObj : Type :=
| PyNdarray (a : ndarray)
| PyDataFrame (l : loc)
| PyNone
| PyInt (z : Z)
| PyFloat (x : cell)
| PyStr (s : string)
| PyList (xs : list PyObj).



(** The parameter list of a [def] without [*args] or [**kwargs]: the
    names in order, the first [required] of them without a default. *)
Record PyDef : Type := mkDef {
  params : list string;
  required : nat
}.

(** Python binds a call with [positional] positional arguments and the
    keyword arguments [keywords] to the parameters of a [def], or raises
    [TypeError]: no more positionals than parameters, every keyword a
    parameter not taken by a positional, every required parameter given. *)
Definition binds (d : PyDef) (positional : nat) (keywords : list string) : bool :=
  Nat.leb positional (length (params d))
  && forallb (fun k => existsb (String.eqb k) (drop positional (params d))) keywords
  && forallb (fun q => existsb (String.eqb q) keywords)
             (drop positional (take (required d) (params d))).

Module CorrelationHeatmaps.

(** [def bootstrap_correlation(mat1, mat2)] and
    [def run_bootstrap_analysis(forms, n_iterations=1000)] *)
Definition def_bootstrap_correlation : PyDef := mkDef ["mat1"; "mat2"] 2.
Definition def_run_bootstrap_analysis : PyDef := mkDef ["forms"; "n_iterations"] 1.

Section Program.
Context {G : Type} (lib : Library G).

Definition filter_data (matrix : loc) : M G loc :=
  uloga <- df_getitem_col matrix "uloga" ;;
  students <- df_getitem_mask matrix (map (fun x => cell_eqb x 2) uloga) ;;
  cesto <- df_getitem_col students "cesto" ;;
  df_getitem_mask students (map (fun x => cell_gtb x 1) cesto).

(** One entry of the [forms] list:
    [grid[(grid['formatUp'] == f) & (grid['hidden'] <cmp> h)].copy()]. *)
Definition form (grid : loc) (f : Q) (cmp : cell -> Q -> bool) (h : Q) : M G loc :=
  formatUp <- df_getitem_col grid "formatUp" ;;
  hidden <- df_getitem_col grid "hidden" ;;
  masked <- df_getitem_mask grid
              (series_and (map (fun x => cell_eqb x f) formatUp)
                          (map (fun x => cmp x h) hidden)) ;;
  df_copy masked.

Definition prepare_format_groups (matrix : loc) : M G (list loc) :=
  grid <- df_getitem_cols matrix (AUX_COLS ++ QUESTION_COLS) ;;
  f1 <- form grid 1 cell_ltb 51 ;;
  f2 <- form grid 1 cell_gtb 50 ;;
  f3 <- form grid 2 cell_ltb 51 ;;
  f4 <- form grid 2 cell_gtb 50 ;;
  mmap (fun f => df_drop_inplace f AUX_COLS) [f1; f2; f3; f4] ;;;
  ret [f1; f2; f3; f4].

Definition get_upper_triangle (df : PyObj) : M G (list cell) :=
  match df with
  | PyNdarray a => lift (upper_triangle a)
  | PyDataFrame l => d <- deref l ;; lift (upper_triangle (values d))
  | _ => lift (Raise (TypeError "Must be np.ndarray or pd.DataFrame"))
  end.

Definition bootstrap_correlation (mat1 mat2 : loc) : M G cell :=
  df_1 <- df_sample lib mat1 ;;
  df_2 <- df_sample lib mat2 ;;
  corr_m1 <- df_corr lib df_1 "kendall" ;;
  corr_m2 <- df_corr lib df_2 "kendall" ;;
  t1 <- get_upper_triangle (PyDataFrame corr_m1) ;;
  t2 <- get_upper_triangle (PyDataFrame corr_m2) ;;
  call (CallKendalltau t1 t2) (kendalltau lib t1 t2).

(** [[bootstrap_correlation(forms[a], forms[b]) for _ in range(n_iterations)]] *)
Definition bootr (forms : list loc) (a b : nat) (n_iterations : Z) : M G (list cell) :=
  mmap (fun _ : nat =>
          fa <- list_get forms a ;;
          fb <- list_get forms b ;;
          bootstrap_correlation fa fb)
       (range n_iterations).

(** One printed line: [a b percentile(2.5) mean percentile(97.5)]. *)
Definition report (a b : nat) (samples : list cell) : M G unit :=
  lo <- call (CallPercentile samples 2.5) (percentile lib samples 2.5) ;;
  mu <- call (CallMean samples) (mean lib samples) ;;
  hi <- call (CallPercentile samples 97.5) (percentile lib samples 97.5) ;;
  emit (PrintStats "pair" [Num (inject_Z (Z.of_nat a)); Num (inject_Z (Z.of_nat b));
                           lo; mu; hi]).

Definition run_bootstrap_analysis (forms : list loc) (n_iterations : Z) : M G unit :=
  emit (Print "#6 - Bootstrap Analysis") ;;;
  emit (Print "Format pairs: CI 2.5%, Mean, CI 97.5%") ;;;
  mmap (fun a =>
          mmap (fun b =>
                  first <- bootr forms a b n_iterations ;;
                  report a b first ;;;
                  second <- bootr forms a b n_iterations ;;
                  report a b second ;;;
                  emit (Print "***************"))
               (seq a (4 - a)))
       (seq 0 4) ;;;
  ret tt.

Definition default_n_iterations : Z := 1000.

End Program.
End CorrelationHeatmaps.

(** The array a Python value stands for, when it is an ndarray or a
    DataFrame of the store. *)
Definition as_array {G} (w : World G) (o : PyObj) : option ndarray :=
  match o with
  | PyNdarray a => Some a
  | PyDataFrame l => values <$> store w !! l
  | _ => None
  end.

(** Every object of [w] is still there, with the same columns, rows and
    values, in [w']. *)
Definition unchanged {G} (w w' : World G) : Prop :=
  forall l df, store w !! l = Some df -> store w' !! l = Some df.

(** A location that did not exist in [w]. *)
Definition new_in {G} (w : World G) (l : loc) : Prop := length (store w) <= l.

(** ** The partition as the specification words it

    Four predicates over the auxiliary columns, each read on a row of the
    original frame; a group is the rows that satisfy its predicate, in
    their order, reduced to the twelve item columns. *)

Definition has_columns (df : DataFrame) (cols : list string) : Prop :=
  forall c, In c cols -> In c (columns df).

(** The cell of row [r] of [df] in column [c]. *)
Definition cell_of (df : DataFrame) (r : Z * list cell) (c : string) : cell :=
  match col_pos (columns df) c with
  | Some p => cell_at (snd r) p
  | None => NaN
  end.

Definition in_group (df : DataFrame) (i : nat) (r : Z * list cell) : bool :=
  match i with
  | 0 => cell_eqb (cell_of df r "formatUp") 1 && cell_ltb (cell_of df r "hidden") 51
  | 1 => cell_eqb (cell_of df r "formatUp") 1 && cell_gtb (cell_of df r "hidden") 50
  | 2 => cell_eqb (cell_of df r "formatUp") 2 && cell_ltb (cell_of df r "hidden") 51
  | 3 => cell_eqb (cell_of df r "formatUp") 2 && cell_gtb (cell_of df r "hidden") 50
  | _ => false
  end.

Definition items_of (df : DataFrame) (r : Z * list cell) : Z * list cell :=
  (fst r, map (cell_of df r) QUESTION_COLS).

Definition partition_of (df : DataFrame) (i : nat) : DataFrame :=
  mkDF QUESTION_COLS (map (items_of df) (List.filter (in_group df i) (rows df))).

(** The frame [matrix[cols]] with the fourteen columns of the partitioner. *)
Definition grid_of (df : DataFrame) : DataFrame :=
  mkDF (AUX_COLS ++ QUESTION_COLS)
       (map (fun r => (fst r, map (cell_of df r) (AUX_COLS ++ QUESTION_COLS))) (rows df)).

(** [grid[condition]] for the i-th condition: the rows still carry the
    two auxiliary columns. *)
Definition masked_of (df : DataFrame) (i : nat) : DataFrame :=
  mkDF (AUX_COLS ++ QUESTION_COLS)
       (map (fun r => (fst r, map (cell_of df r) (AUX_COLS ++ QUESTION_COLS)))
            (List.filter (in_group df i) (rows df))).

(** The number of groups a row falls in. *)
Definition memberships (df : DataFrame) (r : Z * list cell) : nat :=
  length (List.filter (fun i => in_group df i r) [0; 1; 2; 3]).

(** [filter_data]: the students, and among them the frequent visitors. *)
Definition students_of (df : DataFrame) : DataFrame :=
  mkDF (columns df)
       (List.filter (fun r => cell_eqb (cell_of df r "uloga") 2) (rows df)).

Definition filtered_of (df : DataFrame) : DataFrame :=
  mkDF (columns df)
       (List.filter (fun r => cell_gtb (cell_of df r "cesto") 1)
                    (rows (students_of df))).

(** The complete cases of the item columns of a frame: what
    [perform_adequacy_tests] names [faktor]. *)
Definition items_frame (df : DataFrame) : DataFrame :=
  mkDF QUESTION_COLS (map (items_of df) (rows df)).

Definition complete_cases (df : DataFrame) : DataFrame := dropna (items_frame df).

(** The frames the sphericity and KMO routines were called on, in call
    order. *)
Inductive AdequacyCall : Type :=
| Sphericity (x : DataFrame)
| Kmo (x : DataFrame).

Fixpoint adequacy_calls (evs : list Event) : list AdequacyCall :=
  match evs with
  | [] => []
  | CallBartlett x :: evs' => Sphericity x :: adequacy_calls evs'
  | CallKmo x :: evs' => Kmo x :: adequacy_calls evs'
  | _ :: evs' => adequacy_calls evs'
  end.

(** The frames [FactorAnalyzer.fit] was called on, in call order. *)
Fixpoint fit_calls (evs : list Event) : list DataFrame :=
  match evs with
  | [] => []
  | CallFit _ x :: evs' => x :: fit_calls evs'
  | _ :: evs' => fit_calls evs'
  end.

Definition is_adequacy (e : Event) : bool :=
  match e with CallBartlett _ | CallKmo _ => true | _ => false end.

(** The index labels of a frame. *)
Definition labels (df : DataFrame) : list Z := map fst (rows df).

(** Format code 1 or 2 and a whole-number order code on every row. *)
Definition coded (df : DataFrame) : Prop :=
  forall r, In r (rows df) ->
    (cell_eqb (cell_of df r "formatUp") 1 = true
     \/ cell_eqb (cell_of df r "formatUp") 2 = true)
    /\ cell_integral (cell_of df r "hidden").

(** The row counts and the index labels of the frames a partitioner
    returned. *)
Definition group_sizes {G} (r : Result (list loc) * World G) : list (option nat) :=
  match fst r with
  | Ok gs => map (fun g => df_len <$> store (snd r) !! g) gs
  | Raise _ => []
  end.

Definition group_labels {G} (r : Result (list loc) * World G) : list (option (list Z)) :=
  match fst r with
  | Ok gs => map (fun g => labels <$> store (snd r) !! g) gs
  | Raise _ => []
  end.

(** What the two library routines make of a frame [x]: the sphericity
    test first, the KMO test if that returned. *)
Definition library_verdict {G} (lib : Library G) (x : DataFrame)
  : Result (cell * cell * cell) :=
  rbind (calculate_bartlett_sphericity lib x)
        (fun b => rbind (calculate_kmo lib x)
                        (fun k => Ok (fst b, snd b, snd k))).

(** The frames [corr] was called on, in call order. *)
Fixpoint corr_inputs (evs : list Event) : list DataFrame :=
  match evs with
  | [] => []
  | CallCorr _ x :: evs' => x :: corr_inputs evs'
  | _ :: evs' => corr_inputs evs'
  end.

(** ** One bootstrap step as a function of its inputs

    What [bootstrap_correlation] returns and where it leaves the
    generator, written as a function of the two matrices and the
    generator state it starts from. *)

Definition take_rows (df : DataFrame) (ps : list nat) : Result (list (Z * list cell)) :=
  rmap (fun q => match rows df !! q with
                 | Some r => Ok r
                 | None => Raise IndexError
                 end) ps.

Definition step_value {G} (lib : Library G) (df1 df2 : DataFrame) : Result cell :=
  rbind (corr lib "kendall" df1) (fun c1 =>
  rbind (corr lib "kendall" df2) (fun c2 =>
  rbind (upper_triangle (values c1)) (fun t1 =>
  rbind (upper_triangle (values c2)) (fun t2 =>
  kendalltau lib t1 t2)))).

Definition step_of {G} (lib : Library G) (m1 m2 : DataFrame) (g : G) : Result cell * G :=
  let (ps1, g1) := choice lib g (df_len m1) (sample_size (df_len m1)) in
  match take_rows m1 ps1 with
  | Raise e => (Raise e, g1)
  | Ok rows1 =>
      let (ps2, g2) := choice lib g1 (df_len m2) (sample_size (df_len m2)) in
      match take_rows m2 ps2 with
      | Raise e => (Raise e, g2)
      | Ok rows2 =>
          (step_value lib (mkDF (columns m1) rows1) (mkDF (columns m2) rows2), g2)
      end
  end.

Fixpoint steps_of {G} (lib : Library G) (m1 m2 : DataFrame) (g : G) (k : nat)
  : Result (list cell) * G :=
  match k with
  | 0 => (Ok [], g)
  | S k' =>
      match step_of lib m1 m2 g with
      | (Ok x, g1) =>
          match steps_of lib m1 m2 g1 k' with
          | (Ok xs, g2) => (Ok (x :: xs), g2)
          | (Raise e, g2) => (Raise e, g2)
          end
      | (Raise e, g1) => (Raise e, g1)
      end
  end.

(** ** Sample data and stand-in libraries

    Used to run the pipeline on concrete inputs.  The stand-ins fix one
    possible behaviour of the numeric libraries; the general theorems
    quantify over every [Library]. *)

Module Demo.

(** A respondent: role, visit frequency, format, order code, and the same
    score for every item. *)
Definition respondent (label : Z) (uloga cesto formatUp hidden score : Q)
  : Z * list cell :=
  (label, (map Num [uloga; cesto; formatUp; hidden] ++ repeat (Num score) 12)%list).

(** The generator state is a counter; a draw of [size] positions out of
    [n] starts at the counter and the counter moves on. *)
Definition rotate_choice (g n size : nat) : list nat * nat :=
  (map (fun i => (i + g) mod n) (seq 0 size), S g).

Definition unit_matrix (cols : list string) : DataFrame :=
  mkDF cols
       (map (fun i => (Z.of_nat i,
                       map (fun j => Num (if Nat.eqb i j then 1 else 0))
                           (seq 0 (length cols))))
            (seq 0 (length cols))).

(** Every library call returns. *)
Definition returning (csv : DataFrame) : Library nat := {|
  read_csv := fun _ => Ok csv;
  choice := rotate_choice;
  corr := fun _ x => Ok (unit_matrix (columns x));
  kendalltau := fun _ _ => Ok (Num 1);
  percentile := fun xs _ => Ok (hd NaN xs);
  mean := fun xs => Ok (hd NaN xs);
  calculate_bartlett_sphericity := fun _ => Ok (Num 0, Num 1);
  calculate_kmo := fun _ => Ok ([], Num 0.5);
  fit := fun cfg x =>
           Ok (mkFit (repeat (repeat (Num 0) (n_factors cfg)) (length (columns x)))
                     (repeat (Num 1) (length (columns x))))
|}.

(** Every call into the statistics raises. *)
Definition raising (csv : DataFrame) : Library nat := {|
  read_csv := fun _ => Ok csv;
  choice := rotate_choice;
  corr := fun _ _ => Raise (LibraryError "corr");
  kendalltau := fun _ _ => Raise (LibraryError "kendalltau");
  percentile := fun _ _ => Raise (LibraryError "percentile");
  mean := fun _ => Raise (LibraryError "mean");
  calculate_bartlett_sphericity := fun _ => Raise (LibraryError "bartlett");
  calculate_kmo := fun _ => Raise (LibraryError "kmo");
  fit := fun _ _ => Raise (LibraryError "fit")
|}.

Definition empty_world : World nat := mkWorld [] 0 [].

(** Four students who visit often, one per group. *)
Definition four_groups : DataFrame :=
  mkDF CSV_COLS
       [respondent 0 2 3 1 10 4; respondent 1 2 3 1 60 5;
        respondent 2 2 3 2 20 3; respondent 3 2 3 2 90 2].

(** Nobody saw the slides in order B: the fourth group is empty. *)
Definition no_slides_b : DataFrame :=
  mkDF CSV_COLS
       [respondent 0 2 3 1 10 4; respondent 1 2 3 1 60 5;
        respondent 2 2 3 2 20 3].

(** The second respondent has no order code. *)
Definition missing_order : DataFrame :=
  mkDF CSV_COLS
       [respondent 0 2 3 1 10 4;
        (1%Z, [Num 2; Num 3; Num 1; NaN] ++ repeat (Num 5) 12)].

(** An order code between 50 and 51. *)
Definition fractional_order : DataFrame :=
  mkDF CSV_COLS [respondent 0 2 3 1 50.5 5].

End Demo.

(** More sample data: who answers, and frames that lack a column. *)
Module Visitors.

(** One student who visits often, a member of staff, a student who came
    once, and a respondent who gave no role. *)
Definition mixed : DataFrame :=
  mkDF CSV_COLS
       [Demo.respondent 0 2 3 1 10 4; Demo.respondent 1 1 3 1 10 4;
        Demo.respondent 2 2 1 1 10 4;
        (3%Z, [NaN; Num 3; Num 1; Num 10] ++ repeat (Num 4) 12)].

(** No student at all. *)
Definition staff_only : DataFrame :=
  mkDF CSV_COLS [Demo.respondent 0 1 3 1 10 4; Demo.respondent 1 3 2 2 60 5].

(** Three students who visit often: the second gave no order code, the
    third left the first item open. *)
Definition skipped : DataFrame :=
  mkDF CSV_COLS
       [Demo.respondent 0 2 3 1 10 4;
        (1%Z, [Num 2; Num 3; Num 1; NaN] ++ repeat (Num 5) 12);
        (2%Z, [Num 2; Num 3; Num 2; Num 60; NaN] ++ repeat (Num 3) 11)].

(** One student per group, and a fifth in the first group who left the
    first item open. *)
Definition with_gaps : DataFrame :=
  mkDF CSV_COLS
       [Demo.respondent 0 2 3 1 10 4; Demo.respondent 1 2 3 1 60 5;
        Demo.respondent 2 2 3 2 20 3; Demo.respondent 3 2 3 2 90 2;
        (4%Z, [Num 2; Num 3; Num 1; Num 10; NaN] ++ repeat (Num 3) 11)].

(** The item columns only. *)
Definition items_only : DataFrame :=
  mkDF QUESTION_COLS [(0%Z, repeat (Num 4) 12)].

(** No item [g12]. *)
Definition eleven_items : DataFrame :=
  mkDF ["uloga"; "cesto"; "formatUp"; "hidden"; "g01"; "g02"; "g03"; "g04"; "g05";
        "g06"; "g07"; "g08"; "g09"; "g10"; "g11"]
       [(0%Z, [Num 2; Num 3; Num 1; Num 10] ++ repeat (Num 4) 11)].

End Visitors.

(** ** Judgements on computations *)

(** Started in a world satisfying [I], the computation [c] ends in a world
    that satisfies [I] and is related to the start by [R], and a value it
    returns satisfies [Q]. *)
Definition triple {G A} (I : World G -> Prop) (R : World G -> World G -> Prop)
    (c : M G A) (Q : A -> Prop) : Prop :=
  forall w, I w ->
    I (snd (c w)) /\ R w (snd (c w)) /\ forall a, fst (c w) = Ok a -> Q a.

(** The first [n0] objects exist, and are kept as they are; a fresh
    location is none of them. *)
Definition allocated_from {G} (n0 : nat) (w : World G) : Prop :=
  n0 <= length (store w).
Definition keeps_from {G} (n0 : nat) (w w' : World G) : Prop :=
  take n0 (store w') = take n0 (store w).
Definition fresh_from (n0 : nat) (l : loc) : Prop := n0 <= l.

Definition frame_from {G A} (n0 : nat) (c : M G A) (Q : A -> Prop) : Prop :=
  triple (allocated_from n0) (keeps_from n0) c Q.

(** The trace grows, and only by events that satisfy [p]. *)
Definition emits_by {G} (p : Event -> bool) (w w' : World G) : Prop :=
  exists evs, out w' = out w ++ evs /\ forallb p evs = true.

Definition traced_by {G A} (p : Event -> bool) (c : M G A) : Prop :=
  triple (fun _ => True) (emits_by p) c (fun _ => True).

(** A computation that touches neither the store nor the generator, ends
    with [r] and adds the events [evs] to the trace. *)
Definition yields {G A} (c : M G A) (r : Result A) (evs : list Event) : Prop :=
  forall w, c w = (r, mkWorld (store w) (rng w) (out w ++ evs)).

(** A list that begins with [prefix]. *)
Definition begins {A} (prefix l : list A) : Prop := exists rest, l = prefix ++ rest.

(** The console lines and calls of [main] up to and including the group
    counts. *)
Definition prologue (csv : DataFrame) : list Event :=
  [Print "Exploratory Factor Analysis (EFA) for Questionnaire Data";
   CallReadCsv FactorAnalysis.DATA_FILEPATH;
   PrintCount "Data loaded: " (df_len csv);
   PrintCount "Initial records: " (df_len csv);
   PrintCount "Students only: " (df_len (students_of csv));
   PrintCount "Frequent visitors: " (df_len (filtered_of csv));
   Print "Preparing format groups...";
   PrintCount "Single Page - Order A" (df_len (partition_of (filtered_of csv) 0));
   PrintCount "Single Page - Order B" (df_len (partition_of (filtered_of csv) 1));
   PrintCount "Slides - Order A" (df_len (partition_of (filtered_of csv) 2));
   PrintCount "Slides - Order B" (df_len (partition_of (filtered_of csv) 3))].

(** The objects [main] has allocated by then. *)
Definition prologue_objects (csv : DataFrame) : list DataFrame :=
  let f := filtered_of csv in
  [csv; students_of csv; f; grid_of f; grid_of f;
   masked_of f 0; partition_of f 0; masked_of f 1; partition_of f 1;
   masked_of f 2; partition_of f 2; masked_of f 3; partition_of f 3].

(** The events of one report on an empty list of samples, and of the
    whole run, when the three routines return [lo], [mu] and [hi]. *)
Definition report_events (a b : nat) (lo mu hi : cell) : list Event :=
  [CallPercentile [] 2.5; CallMean []; CallPercentile [] 97.5;
   PrintStats "pair" [Num (inject_Z (Z.of_nat a)); Num (inject_Z (Z.of_nat b)); lo; mu; hi]].

Definition pair_events (lo mu hi : cell) (a b : nat) : list Event :=
  report_events a b lo mu hi ++ report_events a b lo mu hi ++ [Print "***************"].

(** ** correlation_heatmaps.py: the correlations and [main] *)

Module CorrelationHeatmapsMain.

(** The local [column_order] of [calculate_correlations]. *)
Definition column_order : list string :=
  ["g02"; "g11"; "g04"; "g01"; "g05"; "g09";
   "g07"; "g03"; "g08"; "g10"; "g06"; "g12"].

(** ["="*70] *)
Definition rule : string :=
  "======================================================================".

Definition DATA_FILEPATH : string := "../data/input/matrix-final.csv".

Section Program.
Context {G : Type} (lib : Library G).

Definition calculate_correlations (forms : list loc) : M G (list loc * loc * loc) :=
  correlations <- mmap (fun form => df_corr lib form "spearman") forms ;;
  form2 <- list_get forms 1 ;;
  ordered2 <- df_getitem_cols form2 column_order ;;
  corr_m2_ordered <- df_corr lib ordered2 "spearman" ;;
  form4 <- list_get forms 3 ;;
  ordered4 <- df_getitem_cols form4 column_order ;;
  corr_m4_ordered <- df_corr lib ordered4 "spearman" ;;
  ret (correlations, corr_m2_ordered, corr_m4_ordered).

(** The four panels read [correlations[0]], [corr_m2_ordered],
    [correlations[2]] and [corr_m4_ordered], in this order. *)
Definition plot_individual_heatmaps (correlations : list loc)
    (corr_m2_ordered corr_m4_ordered : loc) : M G unit :=
  emit (Print "#7 - Generating heatmaps") ;;;
  c0 <- list_get correlations 0 ;;
  deref c0 ;;;
  deref corr_m2_ordered ;;;
  c2 <- list_get correlations 2 ;;
  deref c2 ;;;
  deref corr_m4_ordered ;;;
  emit (Show "Single Page - Order A, Single Page - Order B, Slides - Order A, Slides - Order B").

(** The call of [run_bootstrap_analysis] is commented out in the source. *)
Definition main : M G unit :=
  emit (Print rule) ;;;
  emit (Print "Correlation Matrix Analysis and Visualization") ;;;
  emit (Print rule) ;;;
  emit (Print "This analysis performs bootstrap correlation analysis and generates") ;;;
  emit (Print "heatmaps for different survey format configurations.") ;;;
  emit (Print "Loading data from 'data/input/matrix-final.csv'...") ;;;
  csv <- call (CallReadCsv DATA_FILEPATH) (read_csv lib DATA_FILEPATH) ;;
  loaded <- alloc csv ;;
  n_loaded <- df_len_of loaded ;;
  emit (PrintCount "Data loaded: " n_loaded) ;;;
  filtered_matrix <- CorrelationHeatmaps.filter_data loaded ;;
  n_filtered <- df_len_of filtered_matrix ;;
  emit (PrintCount "After filtering (students who regularly visit): " n_filtered) ;;;
  forms <- CorrelationHeatmaps.prepare_format_groups filtered_matrix ;;
  cs <- calculate_correlations forms ;;
  plot_individual_heatmaps (fst (fst cs)) (snd (fst cs)) (snd cs).

End Program.
End CorrelationHeatmapsMain.

(** ** What the properties below are stated with *)

(** What [factor_stage] does with the result [fa] of
    [perform_factor_analysis]. *)
Definition factor_tail {G} (adequacy : cell * cell * cell) (groups : list loc)
    (fa : list ndarray * list (list cell)) : M G unit :=
  FactorAnalysis.create_scree_plot (snd fa) groups ;;;
  FactorAnalysis.create_loadings_heatmaps (fst fa) ;;;
  l0 <- list_get (fst fa) 0 ;; FactorAnalysis.save_loadings_to_csv l0 0 ;;;
  l1 <- list_get (fst fa) 1 ;; FactorAnalysis.save_loadings_to_csv l1 1 ;;;
  l2 <- list_get (fst fa) 2 ;; FactorAnalysis.save_loadings_to_csv l2 2 ;;;
  l3 <- list_get (fst fa) 3 ;; FactorAnalysis.save_loadings_to_csv l3 3 ;;;
  FactorAnalysis.print_summary (fst (fst adequacy)) (snd (fst adequacy)) (snd adequacy)
    (snd fa) ;;;
  emit (Print "Analysis complete!").

Definition is_fit (e : Event) : bool :=
  match e with CallFit _ _ => true | _ => false end.

(** The configurations [FactorAnalyzer] was built with, in call order. *)
Fixpoint fit_configs (evs : list Event) : list FAConfig :=
  match evs with
  | [] => []
  | CallFit cfg _ :: evs' => cfg :: fit_configs evs'
  | _ :: evs' => fit_configs evs'
  end.

(** A call of [FactorAnalyzer.fit] is one with [rotation='varimax'],
    [method='principal'], [impute='drop'] and three factors. *)
Definition is_configured (e : Event) : bool :=
  match e with
  | CallFit cfg _ =>
      String.eqb (rotation cfg) "varimax" && String.eqb (method cfg) "principal"
      && String.eqb (impute cfg) "drop" && Nat.eqb (n_factors cfg) 3
  | _ => true
  end.

(** The console lines and the call of [correlation_heatmaps.main] up to
    the correlations. *)
Definition ch_prologue (csv : DataFrame) : list Event :=
  [Print CorrelationHeatmapsMain.rule;
   Print "Correlation Matrix Analysis and Visualization";
   Print CorrelationHeatmapsMain.rule;
   Print "This analysis performs bootstrap correlation analysis and generates";
   Print "heatmaps for different survey format configurations.";
   Print "Loading data from 'data/input/matrix-final.csv'...";
   CallReadCsv CorrelationHeatmapsMain.DATA_FILEPATH;
   PrintCount "Data loaded: " (df_len csv);
   PrintCount "After filtering (students who regularly visit): "
              (df_len (filtered_of csv))].

(** One round of the loop of [perform_factor_analysis]: group [i]. *)
Definition fit_group {G} (lib : Library G) (ig : nat * loc) : M G FactorFit :=
  label <- list_get GROUP_LABELS (fst ig) ;;
  emit (PrintCount label (S (fst ig))) ;;;
  x <- deref (snd ig) ;;
  fa <- call (CallFit FactorAnalysis.fa_config x) (fit lib FactorAnalysis.fa_config x) ;;
  emit (PrintStats "Eigenvalues (first 3)" (take 3 (eigenvalues_ fa))) ;;;
  ret fa.

(** A respondent [filter_data] keeps: a student who visits more than once. *)
Definition kept (df : DataFrame) (r : Z * list cell) : bool :=
  cell_eqb (cell_of df r "uloga") 2 && cell_gtb (cell_of df r "cesto") 1.

(** A row with a value in each of the twelve item columns. *)
Definition answered_all (df : DataFrame) (r : Z * list cell) : bool :=
  forallb (fun c => negb (isna (cell_of df r c))) QUESTION_COLS.

(** The frame [form[column_order]]: the same rows, the item columns in the
    order of [column_order]. *)
Definition reordered_of (df : DataFrame) : DataFrame :=
  mkDF CorrelationHeatmapsMain.column_order
       (map (fun r => (fst r, map (cell_of df r) CorrelationHeatmapsMain.column_order))
            (rows df)).

(** The leading [n] columns of an array. *)
Definition leading (n : nat) (a : ndarray) : ndarray := map (take n) a.

(** A frame whose rows are all rows of [m], under [m]'s columns. *)
Definition resample_of (m x : DataFrame) : Prop :=
  columns x = columns m /\ Forall (fun r => In r (rows m)) (rows x).

(** What one bootstrap step may do with the matrices [m1] and [m2]: draw
    [round(0.6 n)] of the [n] rows of one of them, ask for the Kendall
    correlations of a resample of one of them, and compare two
    triangles. *)
Definition resampling_event (m1 m2 : DataFrame) (e : Event) : Prop :=
  match e with
  | CallChoice n k => (n = df_len m1 \/ n = df_len m2) /\ k = sample_size n
  | CallCorr how x => how = "kendall" /\ (resample_of m1 x \/ resample_of m2 x)
  | CallKendalltau _ _ => True
  | _ => False
  end.

(** The pair a report line names: the first two values of a "pair"
    line. *)
Definition pair_line (e : Event) : list (list cell) :=
  match e with
  | PrintStats text xs => if String.eqb text "pair" then [take 2 xs] else []
  | _ => []
  end.

Definition pairs_reported (evs : list Event) : list (list cell) :=
  flat_map pair_line evs.

(** [(a, b)] for [a in range(4)], [b in range(a, 4)], each twice in a
    row: once per bootstrap run. *)
Definition pairs_expected : list (list cell) :=
  flat_map (fun a =>
              flat_map (fun b => [[Num (inject_Z (Z.of_nat a)); Num (inject_Z (Z.of_nat b))];
                                  [Num (inject_Z (Z.of_nat a)); Num (inject_Z (Z.of_nat b))]])
                       (seq a (4 - a)))
           (seq 0 4).

(** The stages of the factor analysis, as the calls that make them. *)
Inductive Stage : Type :=
| Adequacy
| Extraction
| Figure
| Csv.

Definition stage_of (e : Event) : list Stage :=
  match e with
  | CallBartlett _ | CallKmo _ => [Adequacy]
  | CallFit _ _ => [Extraction]
  | Show _ => [Figure]
  | WriteCsv _ _ => [Csv]
  | _ => []
  end.

Definition stages (evs : list Event) : list Stage := flat_map stage_of evs.

(** Both adequacy tests, four fits, two figures, four files. *)
Definition stages_expected : list Stage :=
  [Adequacy; Adequacy; Extraction; Extraction; Extraction; Extraction;
   Figure; Figure; Csv; Csv; Csv; Csv].

(** Seen through [proj], any run of [c] shows a beginning of [expected],
    and all of it when it returns. *)
Definition reports {G A X} (proj : Event -> list X) (c : M G A) (expected : list X)
  : Prop :=
  forall w, exists evs,
    out (snd (c w)) = out w ++ evs
    /\ begins (flat_map proj evs) expected
    /\ forall a, fst (c w) = Ok a -> flat_map proj evs = expected.

(** The same, for a computation that may also return early, having shown
    nothing. *)
Definition reports_or_skips {G A X} (proj : Event -> list X) (c : M G A)
    (expected : list X) : Prop :=
  forall w, exists evs,
    out (snd (c w)) = out w ++ evs
    /\ begins (flat_map proj evs) expected
    /\ forall a, fst (c w) = Ok a ->
         flat_map proj evs = [] \/ flat_map proj evs = expected.

(** A summary statistic asked for: of [k] values, and if a percentile,
    the 2.5th or the 97.5th. *)
Definition summarises (k : nat) (e : Event) : bool :=
  match e with
  | CallMean xs => Nat.eqb (length xs) k
  | CallPercentile xs q =>
      Nat.eqb (length xs) k && (Qeq_bool q 2.5 || Qeq_bool q 97.5)
  | _ => true
  end.

(** The console lines among the events. *)
Definition is_console (e : Event) : bool :=
  match e with Print _ | PrintCount _ _ | PrintStats _ _ => true | _ => false end.

Definition is_draw (e : Event) : bool :=
  match e with CallChoice _ _ => true | _ => false end.

(** A loadings export for one of the four groups, with twelve rows of
    three loadings. *)
Definition exports_well (e : Event) : bool :=
  match e with
  | WriteCsv i a => Nat.ltb i NUM_GROUPS && has_shape a (length QUESTION_COLS) NUM_FACTORS
  | _ => true
  end.

(** An event that is not a draw from the random generator and, when it is
    an export, is a well-formed one. *)
Definition settled (e : Event) : bool := negb (is_draw e) && exports_well e.

(** Between [w] and [w']: the first [n0] objects are as they were, the
    generator is where it was, and only [settled] events were added. *)
Definition steady_from {G} (n0 : nat) (w w' : World G) : Prop :=
  keeps_from n0 w w' /\ rng w' = rng w /\ emits_by settled w w'.

Definition steady {G A} (n0 : nat) (c : M G A) (Q : A -> Prop) : Prop :=
  triple (allocated_from n0) (steady_from n0) c Q.

(** The events a computation added to the trace of [w]. *)
Definition added {G} (w w' : World G) : list Event := drop (length (out w)) (out w').

(** Run from [w], the computation leaves the generator where it was and
    asks it for nothing. *)
Definition draws_nothing {G A} (c : M G A) (w : World G) : Prop :=
  rng (snd (c w)) = rng w
  /\ Forall (fun e => is_draw e = false) (added w (snd (c w))).

(** * Properties *)

(** ** Results *)

Lemma rmap_Ok_Forall2 {A B} (f : A -> Result B) (l : list A) (ys : list B) :
  rmap f l = Ok ys <-> Forall2 (fun x y => f x = Ok y) l ys.
Proof.
  revert ys. induction l as [|x l IH]; intros ys; simpl.
  - split.
    + intros [= <-]. constructor.
    + intros H. inversion H. reflexivity.
  - destruct (f x) as [b|e] eqn:Hx; simpl.
    + destruct (rmap f l) as [bs|e] eqn:Hl; simpl.
      * split.
        -- intros [= <-]. constructor; [exact Hx | now apply IH].
        -- intros H. inversion H as [|? y ? ys' Hy Hr]; subst.
           apply IH in Hr. congruence.
      * split; [discriminate|].
        intros H. inversion H as [|? y ? ys' Hy Hr]; subst.
        apply IH in Hr. discriminate.
    + split; [discriminate|].
      intros H. inversion H; subst. congruence.
Qed.

Lemma rmap_total {A B} (f : A -> Result B) (l : list A) :
  (forall x, In x l -> exists y, f x = Ok y) -> exists ys, rmap f l = Ok ys.
Proof.
  induction l as [|x l IH]; intros H; simpl.
  - now exists [].
  - destruct (H x) as [y Hy]; [now left|].
    destruct IH as [ys Hys]; [intros; apply H; now right|].
    rewrite Hy, Hys. simpl. now exists (y :: ys).
Qed.

Lemma rmap_length {A B} (f : A -> Result B) (l : list A) (ys : list B) :
  rmap f l = Ok ys -> length ys = length l.
Proof.
  intros H. apply rmap_Ok_Forall2 in H.
  induction H; simpl; congruence.
Qed.

(** ** The strict upper triangle *)

Lemma filter_leb_seq (m n : nat) :
  List.filter (fun j => Nat.leb m j) (seq 0 n) = seq m (n - m).
Proof.
  induction n as [|n IH].
  - reflexivity.
  - rewrite List.seq_S, List.filter_app, IH. simpl.
    destruct (Nat.leb_spec m n) as [Hle|Hlt].
    + replace (S n - m) with (S (n - m)) by lia.
      rewrite List.seq_S. do 2 f_equal. lia.
    + replace (S n - m) with 0 by lia. replace (n - m) with 0 by lia.
      reflexivity.
Qed.

Lemma triu_indices_rows (n k : nat) :
  triu_indices n k =
  flat_map (fun i => map (fun j => (i, j)) (seq (i + k) (n - (i + k)))) (seq 0 n).
Proof.
  unfold triu_indices. apply List.flat_map_ext. intros i.
  now rewrite filter_leb_seq.
Qed.

Lemma in_triu_indices (n i j : nat) :
  In (i, j) (triu_indices n 1) <-> i < j < n.
Proof.
  rewrite triu_indices_rows, List.in_flat_map. split.
  - intros (i' & Hi' & Hin). apply List.in_map_iff in Hin.
    destruct Hin as (j' & [= <- <-] & Hj'). apply List.in_seq in Hj'.
    apply List.in_seq in Hi'. lia.
  - intros [Hij Hjn]. exists i. split.
    + apply List.in_seq. lia.
    + apply List.in_map_iff. exists j. split; [reflexivity|].
      apply List.in_seq. lia.
Qed.

Lemma triangle_sum (n a : nat) :
  2 * list_sum (map (fun i => a + n - (i + 1)) (seq a n)) = n * (n - 1).
Proof.
  revert a. induction n as [|n IH]; intros a.
  - reflexivity.
  - cbn [seq map list_sum].
    rewrite (List.map_ext_in _ (fun i => S a + n - (i + 1))).
    + specialize (IH (S a)).
      replace (a + S n - (a + 1)) with n by lia.
      replace (S n - 1) with n by lia.
      destruct n as [|n]; [simpl in *; lia|].
      replace (S n - 1) with n in IH by lia.
      cbn [list_sum fold_right]. change (fold_right Nat.add 0) with list_sum. nia.
    + intros i _. lia.
Qed.

Lemma length_triu_indices (n : nat) :
  length (triu_indices n 1) = n * (n - 1) / 2.
Proof.
  rewrite triu_indices_rows, List.length_flat_map.
  assert (H : 2 * list_sum (map (fun i => length (map (fun j => (i, j))
                                (seq (i + 1) (n - (i + 1))))) (seq 0 n))
              = n * (n - 1)).
  { rewrite <- (triangle_sum n 0). do 2 f_equal. apply List.map_ext.
    intros i. now rewrite List.length_map, List.length_seq. }
  rewrite <- H. rewrite Nat.mul_comm. symmetry. apply Nat.div_mul. lia.
Qed.

Lemma NoDup_rows {A} (f : nat -> list A) (l : list nat) :
  List.NoDup l -> (forall i, List.NoDup (f i)) ->
  List.NoDup (flat_map (fun i => map (fun x => (i, x)) (f i)) l).
Proof.
  intros Hl Hf. induction Hl as [|i l Hi Hl IH]; simpl.
  - constructor.
  - apply List.NoDup_app.
    + apply List.NoDup_map_NoDup_ForallPairs; [|apply Hf].
      intros x y _ _ [= ->]. reflexivity.
    + exact IH.
    + intros [i' x] Hin1 Hin2.
      apply List.in_map_iff in Hin1. destruct Hin1 as (x' & [= <- <-] & _).
      apply List.in_flat_map in Hin2. destruct Hin2 as (i2 & Hi2 & Hin2).
      apply List.in_map_iff in Hin2. destruct Hin2 as (x2 & [= <- <-] & _).
      contradiction.
Qed.

Lemma NoDup_triu_indices (n : nat) : List.NoDup (triu_indices n 1).
Proof.
  rewrite triu_indices_rows. apply NoDup_rows.
  - apply List.seq_NoDup.
  - intros i. apply List.seq_NoDup.
Qed.

Lemma upper_triangle_square (a : ndarray) (n : nat) :
  length a = n -> Forall (fun r => length r = n) a ->
  exists xs, upper_triangle a = Ok xs
    /\ length xs = n * (n - 1) / 2
    /\ Forall2 (fun ij x => array_get a ij = Ok x) (triu_indices n 1) xs.
Proof.
  intros Hn Hsq. unfold upper_triangle. rewrite Hn.
  destruct (rmap_total (array_get a) (triu_indices n 1)) as [xs Hxs].
  - intros [i j] Hin. apply in_triu_indices in Hin. unfold array_get. simpl.
    destruct (a !! i) as [r|] eqn:Hr.
    + assert (Hlen : length r = n).
      { rewrite Forall_forall in Hsq. apply Hsq.
        apply list_elem_of_lookup. eauto. }
      destruct (r !! j) as [x|] eqn:Hx; [eauto|].
      apply lookup_ge_None in Hx. lia.
    + apply lookup_ge_None in Hr. lia.
  - exists xs. split; [exact Hxs|]. split.
    + rewrite (rmap_length _ _ _ Hxs). apply length_triu_indices.
    + now apply rmap_Ok_Forall2.
Qed.

(** ** A small program logic for computations *)

Section Logic.
Context {G : Type}.

Context (I : World G -> Prop) (R : World G -> World G -> Prop).
Context (R_refl : forall w, R w w).
Context (R_trans : forall w1 w2 w3, R w1 w2 -> R w2 w3 -> R w1 w3).

Lemma triple_ret {A} (a : A) (Q : A -> Prop) : Q a -> triple I R (ret a) Q.
Proof. intros HQ w HI. simpl. repeat split; auto. now intros ? [= <-]. Qed.

Lemma triple_lift {A} (r : Result A) : triple I R (lift r) (fun _ => True).
Proof. intros w HI. simpl. auto. Qed.

Lemma triple_bind {A B} (c : M G A) (k : A -> M G B) (Q : A -> Prop) (Q' : B -> Prop) :
  triple I R c Q -> (forall a, Q a -> triple I R (k a) Q') ->
  triple I R (bind c k) Q'.
Proof.
  intros Hc Hk w HI. unfold bind.
  destruct (Hc w HI) as (HI1 & HR1 & HQ).
  destruct (c w) as [[a|e] w1]; simpl in *.
  - destruct (Hk a (HQ a eq_refl) w1 HI1) as (HI2 & HR2 & HQ2).
    repeat split; eauto.
  - repeat split; auto. discriminate.
Qed.

Lemma triple_weaken {A} (c : M G A) (Q Q' : A -> Prop) :
  triple I R c Q -> (forall a, Q a -> Q' a) -> triple I R c Q'.
Proof.
  intros Hc HQ w HI. destruct (Hc w HI) as (? & ? & ?). repeat split; auto.
Qed.

Lemma triple_mmap {A B} (f : A -> M G B) (P : A -> Prop) (Q : B -> Prop) (l : list A) :
  (forall a, P a -> triple I R (f a) Q) -> Forall P l ->
  triple I R (mmap f l) (Forall Q).
Proof.
  intros Hf Hl. induction Hl as [|a l Ha Hl IH]; simpl.
  - apply triple_ret. constructor.
  - eapply triple_bind; [apply (Hf a Ha)|]. intros b Hb.
    eapply triple_bind; [apply IH|]. intros bs Hbs.
    apply triple_ret. now constructor.
Qed.

Lemma triple_list_get {A} (xs : list A) (i : nat) (Q : A -> Prop) :
  Forall Q xs -> triple I R (list_get xs i) Q.
Proof.
  intros HQ. unfold list_get. destruct (xs !! i) as [x|] eqn:Hx.
  - apply triple_ret. rewrite Forall_forall in HQ. apply HQ.
    apply list_elem_of_lookup. eauto.
  - intros w HI. simpl. repeat split; auto. discriminate.
Qed.

Lemma triple_if {A} (b : bool) (c1 c2 : M G A) (Q : A -> Prop) :
  triple I R c1 Q -> triple I R c2 Q -> triple I R (if b then c1 else c2) Q.
Proof. now destruct b. Qed.

End Logic.

(** ** Frame: what a computation leaves alone *)

Create HintDb frame.

Section Frame.
Context {G : Type} (lib : Library G) (n0 : nat).

Local Abbreviation allocated := (allocated_from (G := G) n0).
Local Abbreviation keeps := (keeps_from (G := G) n0).
Local Abbreviation fresh := (fresh_from n0).
Local Abbreviation frame := (frame_from (G := G) n0).

Lemma keeps_refl w : keeps w w.
Proof. reflexivity. Qed.

Lemma keeps_trans w1 w2 w3 : keeps w1 w2 -> keeps w2 w3 -> keeps w1 w3.
Proof. unfold keeps_from. congruence. Qed.

Lemma frame_bind {A B} (c : M G A) (k : A -> M G B) (Q : A -> Prop) (Q' : B -> Prop) :
  frame c Q -> (forall a, Q a -> frame (k a) Q') -> frame (bind c k) Q'.
Proof. apply triple_bind. exact keeps_trans. Qed.

Lemma frame_ret {A} (a : A) (Q : A -> Prop) : Q a -> frame (ret a) Q.
Proof. apply triple_ret. exact keeps_refl. Qed.

Lemma frame_lift {A} (r : Result A) : frame (lift r) (fun _ => True).
Proof. apply triple_lift. exact keeps_refl. Qed.

Lemma frame_emit (e : Event) : frame (emit e) (fun _ => True).
Proof. intros w HI. simpl. repeat split; auto. Qed.

Lemma frame_call {A} (e : Event) (r : Result A) : frame (call e r) (fun _ => True).
Proof.
  unfold call. eapply frame_bind; [apply frame_emit|]. intros _ _. apply frame_lift.
Qed.

Lemma frame_alloc (df : DataFrame) : frame (alloc df) fresh.
Proof.
  intros w HI. unfold allocated_from, keeps_from, fresh_from in *. simpl. repeat split.
  - rewrite length_app. lia.
  - now apply take_app_le.
  - now intros a [= <-].
Qed.

Lemma frame_deref (l : loc) : frame (deref l) (fun _ => True).
Proof.
  intros w HI. unfold deref. destruct (store w !! l); simpl; repeat split; auto.
Qed.

Lemma frame_assign (l : loc) (df : DataFrame) :
  fresh l -> frame (assign l df) (fun _ => True).
Proof.
  intros Hl w HI. unfold allocated_from, keeps_from, fresh_from in *. simpl. repeat split.
  - now rewrite length_insert.
  - now apply take_insert_ge.
Qed.

Lemma frame_draw (n size : nat) : frame (draw lib n size) (fun _ => True).
Proof.
  unfold draw. eapply frame_bind; [apply frame_emit|]. intros _ _ w HI.
  destruct (choice lib (rng w) n size) as [ps g]. simpl. repeat split; auto.
Qed.

Lemma frame_list_get {A} (xs : list A) (i : nat) (Q : A -> Prop) :
  Forall Q xs -> frame (list_get xs i) Q.
Proof. apply triple_list_get. exact keeps_refl. Qed.

Lemma frame_mmap {A B} (f : A -> M G B) (P : A -> Prop) (Q : B -> Prop) (l : list A) :
  (forall a, P a -> frame (f a) Q) -> Forall P l -> frame (mmap f l) (Forall Q).
Proof. apply triple_mmap; [exact keeps_refl | exact keeps_trans]. Qed.

Lemma frame_any {A} (c : M G A) (Q : A -> Prop) : frame c Q -> frame c (fun _ => True).
Proof. intros H. eapply triple_weaken; [exact H | auto]. Qed.

Lemma frame_list_get_any {A} (xs : list A) (i : nat) :
  frame (list_get xs i) (fun _ => True).
Proof. apply frame_list_get. apply Forall_forall. auto. Qed.

(** One step of a chain of binds: the head is a primitive or a method
    with a frame lemma of its own. *)
Ltac frame_head :=
  first [ apply frame_emit | apply frame_call | apply frame_alloc
        | apply frame_deref | apply frame_lift | apply frame_draw
        | apply frame_list_get_any
        | apply frame_assign; assumption
        | solve [eauto with frame] ].

Ltac frame_chain :=
  repeat lazymatch goal with
    | |- frame (bind _ _) _ => eapply frame_bind; [frame_head | intros]
    | |- frame (if _ then _ else _) _ => apply triple_if
    | |- frame (ret _) _ => apply frame_ret; auto
    | |- frame _ _ => frame_head
    end.

Lemma frame_df_len_of l : frame (df_len_of l) (fun _ => True).
Proof. unfold df_len_of. frame_chain. Qed.

Lemma frame_df_copy l : frame (df_copy l) fresh.
Proof. unfold df_copy. frame_chain. Qed.

Lemma frame_df_getitem_cols l cols : frame (df_getitem_cols l cols) fresh.
Proof. unfold df_getitem_cols. frame_chain. Qed.

Lemma frame_df_getitem_col l c : frame (df_getitem_col l c) (fun _ => True).
Proof. unfold df_getitem_col. frame_chain. Qed.

Lemma frame_df_getitem_mask l mask : frame (df_getitem_mask l mask) fresh.
Proof. unfold df_getitem_mask. frame_chain. Qed.

Lemma frame_df_drop_inplace l cols :
  fresh l -> frame (df_drop_inplace l cols) (fun _ => True).
Proof. intros Hl. unfold df_drop_inplace. frame_chain. Qed.

Lemma frame_df_dropna l : frame (df_dropna l) fresh.
Proof. unfold df_dropna. frame_chain. Qed.

Lemma frame_df_sample l : frame (df_sample lib l) fresh.
Proof. unfold df_sample. frame_chain. Qed.

Lemma frame_df_corr l how : frame (df_corr lib l how) fresh.
Proof. unfold df_corr. frame_chain. Qed.

#[local] Hint Resolve frame_df_len_of frame_df_copy frame_df_getitem_cols
  frame_df_getitem_col frame_df_getitem_mask frame_df_drop_inplace
  frame_df_dropna frame_df_sample frame_df_corr : frame.

Lemma frame_condition grid f cmp h :
  frame (FactorAnalysis.condition grid f cmp h) (fun _ => True).
Proof. unfold FactorAnalysis.condition. frame_chain. Qed.

Lemma frame_form grid f cmp h : frame (CorrelationHeatmaps.form grid f cmp h) fresh.
Proof. unfold CorrelationHeatmaps.form. frame_chain. Qed.

Lemma frame_get_upper_triangle o :
  frame (CorrelationHeatmaps.get_upper_triangle o) (fun _ => True).
Proof. destruct o; simpl; frame_chain. Qed.

#[local] Hint Resolve frame_condition frame_form frame_get_upper_triangle : frame.

Lemma frame_prepare_format_groups_fa matrix :
  frame (FactorAnalysis.prepare_format_groups matrix) (Forall fresh).
Proof.
  unfold FactorAnalysis.prepare_format_groups. frame_chain.
  apply frame_mmap with (P := fun _ => True).
  - intros ic _. frame_chain.
  - apply Forall_forall. auto.
Qed.

Lemma frame_prepare_format_groups_ch matrix :
  frame (CorrelationHeatmaps.prepare_format_groups matrix) (Forall fresh).
Proof.
  unfold CorrelationHeatmaps.prepare_format_groups. frame_chain.
  eapply frame_bind.
  - apply frame_mmap with (P := fresh) (Q := fun _ => True).
    + intros f Hf. frame_chain.
    + repeat constructor; assumption.
  - intros _ _. apply frame_ret. repeat constructor; assumption.
Qed.

Lemma frame_perform_adequacy_tests matrix :
  frame (FactorAnalysis.perform_adequacy_tests lib matrix) (fun _ => True).
Proof. unfold FactorAnalysis.perform_adequacy_tests. frame_chain. Qed.

Lemma frame_perform_factor_analysis groups :
  frame (FactorAnalysis.perform_factor_analysis lib groups) (fun _ => True).
Proof.
  unfold FactorAnalysis.perform_factor_analysis. frame_chain.
  eapply frame_bind.
  - apply frame_mmap with (P := fun _ => True) (Q := fun _ => True).
    + intros ig _. frame_chain.
    + apply Forall_forall. auto.
  - intros fits _. frame_chain.
Qed.

Lemma frame_bootstrap_correlation mat1 mat2 :
  frame (CorrelationHeatmaps.bootstrap_correlation lib mat1 mat2) (fun _ => True).
Proof. unfold CorrelationHeatmaps.bootstrap_correlation. frame_chain. Qed.

End Frame.

Lemma frame_unchanged {G A} (c : M G A) (Q : A -> Prop) (w : World G) :
  frame_from (length (store w)) c Q ->
  unchanged w (snd (c w)) /\ forall a, fst (c w) = Ok a -> Q a.
Proof.
  intros H. destruct (H w) as (_ & Hk & HQ); [unfold allocated_from; lia|].
  split; [|exact HQ]. intros l df Hl. unfold keeps_from in Hk.
  rewrite firstn_all in Hk. rewrite <- Hl, <- Hk.
  symmetry. apply lookup_take_lt. eapply lookup_lt_Some. exact Hl.
Qed.

(** The model can tell a mutation: dropping columns in place on the input
    itself changes the stored object. *)
Example drop_inplace_on_input_mutates :
  let w := mkWorld [Demo.four_groups] 0 [] in
  ~ unchanged w (snd (df_drop_inplace (G := nat) 0 AUX_COLS w)).
Proof.
  intros w H. specialize (H 0 Demo.four_groups eq_refl). vm_compute in H.
  discriminate.
Qed.

(** C8. None of the core operations changes an object that existed before
    the call: after group partitioning (either module), adequacy testing,
    factor extraction and one bootstrap resampling step, every object of
    the store, the inputs included, has the columns, rows and values it
    had; the groups the partitioners return are objects that did not
    exist before. *)
Theorem inputs_not_mutated {G} (lib : Library G) (w : World G) :
  (forall matrix,
      unchanged w (snd (FactorAnalysis.prepare_format_groups matrix w))
      /\ forall groups, fst (FactorAnalysis.prepare_format_groups matrix w) = Ok groups ->
                        Forall (new_in w) groups)
  /\ (forall matrix,
      unchanged w (snd (CorrelationHeatmaps.prepare_format_groups matrix w))
      /\ forall forms, fst (CorrelationHeatmaps.prepare_format_groups matrix w) = Ok forms ->
                       Forall (new_in w) forms)
  /\ (forall matrix,
      unchanged w (snd (FactorAnalysis.perform_adequacy_tests lib matrix w)))
  /\ (forall groups,
      unchanged w (snd (FactorAnalysis.perform_factor_analysis lib groups w)))
  /\ (forall mat1 mat2,
      unchanged w (snd (CorrelationHeatmaps.bootstrap_correlation lib mat1 mat2 w))).
Proof.
  split; [|split; [|split; [|split]]].
  - intros matrix.
    exact (frame_unchanged _ _ w (frame_prepare_format_groups_fa _ matrix)).
  - intros matrix.
    exact (frame_unchanged _ _ w (frame_prepare_format_groups_ch _ matrix)).
  - intros matrix.
    exact (proj1 (frame_unchanged _ _ w (frame_perform_adequacy_tests lib _ matrix))).
  - intros groups.
    exact (proj1 (frame_unchanged _ _ w (frame_perform_factor_analysis lib _ groups))).
  - intros mat1 mat2.
    exact (proj1 (frame_unchanged _ _ w (frame_bootstrap_correlation lib _ mat1 mat2))).
Qed.

(** C3. On a square n x n matrix, handed over as an ndarray or as a
    DataFrame, [get_upper_triangle] returns a flat sequence of
    n (n - 1) / 2 values: entry k is the matrix entry at the k-th position
    of [triu_indices n 1], and these positions are, without repetition,
    exactly the (i, j) with i < j < n, so no diagonal position and never
    both (i, j) and (j, i).  The world is left as it was. *)
Theorem get_upper_triangle_strict {G} (w : World G) (o : PyObj) (a : ndarray) (n : nat) :
  as_array w o = Some a ->
  length a = n ->
  Forall (fun r => length r = n) a ->
  exists xs,
    CorrelationHeatmaps.get_upper_triangle o w = (Ok xs, w)
    /\ length xs = n * (n - 1) / 2
    /\ Forall2 (fun ij x => array_get a ij = Ok x) (triu_indices n 1) xs
    /\ List.NoDup (triu_indices n 1)
    /\ (forall i j, In (i, j) (triu_indices n 1) <-> i < j < n)
    /\ (forall i, ~ In (i, i) (triu_indices n 1))
    /\ (forall i j, In (i, j) (triu_indices n 1) -> ~ In (j, i) (triu_indices n 1)).
Proof.
  intros Ha Hn Hsq.
  destruct (upper_triangle_square a n Hn Hsq) as (xs & Hxs & Hlen & Hent).
  exists xs. split; [|split; [exact Hlen|split; [exact Hent|split; [|split; [|split]]]]].
  - destruct o; simpl in Ha; try discriminate.
    + injection Ha as ->. simpl. unfold lift. now rewrite Hxs.
    + simpl. unfold bind, deref. destruct (store w !! l) as [d|]; [|discriminate].
      injection Ha as <-. unfold lift. now rewrite Hxs.
  - apply NoDup_triu_indices.
  - apply in_triu_indices.
  - intros i Hi. apply in_triu_indices in Hi. lia.
  - intros i j Hij Hji. apply in_triu_indices in Hij, Hji. lia.
Qed.

Lemma get_upper_triangle_strict_witness :
  CorrelationHeatmaps.get_upper_triangle
    (PyNdarray [[Num 1; Num 2; Num 3]; [Num 4; Num 5; Num 6]; [Num 7; Num 8; Num 9]])
    Demo.empty_world
  = (Ok [Num 2; Num 3; Num 6], Demo.empty_world).
Proof.
  destruct (get_upper_triangle_strict Demo.empty_world
              (PyNdarray [[Num 1; Num 2; Num 3]; [Num 4; Num 5; Num 6];
                          [Num 7; Num 8; Num 9]])
              [[Num 1; Num 2; Num 3]; [Num 4; Num 5; Num 6]; [Num 7; Num 8; Num 9]]
              3 eq_refl eq_refl)
    as (xs & Hrun & _).
  - repeat constructor.
  - reflexivity.
Defined.






(** ** Selecting columns and rows, as functions of the original frame *)

Lemma col_pos_In (cs : list string) (c : string) :
  In c cs -> exists p, col_pos cs c = Some p.
Proof.
  induction cs as [|c' cs IH]; intros Hin; [destruct Hin|]. simpl.
  destruct (String.eqb c' c) eqn:E; [eauto|].
  destruct Hin as [->|Hin].
  - rewrite String.eqb_refl in E. discriminate.
  - destruct (IH Hin) as [p ->]. simpl. eauto.
Qed.

Lemma getitem_cols_project (df : DataFrame) (cols : list string) :
  has_columns df cols ->
  getitem_cols df cols
  = Ok (mkDF cols (map (fun r => (fst r, map (cell_of df r) cols)) (rows df))).
Proof.
  intros Hc. unfold getitem_cols.
  assert (H : exists ps,
             rmap (fun c => match col_pos (columns df) c with
                            | Some p => Ok p
                            | None => Raise (KeyError c)
                            end) cols = Ok ps
             /\ forall r : Z * list cell,
                  map (cell_at (snd r)) ps = map (cell_of df r) cols).
  { induction cols as [|c cols IH].
    - exists []. split; reflexivity.
    - destruct IH as (ps & Hps & Hmap).
      { intros c' Hc'. apply Hc. now right. }
      destruct (col_pos_In (columns df) c) as [p Hp]; [apply Hc; now left|].
      exists (p :: ps). split.
      + simpl. rewrite Hp. simpl. now rewrite Hps.
      + intros r. simpl. rewrite Hmap. unfold cell_of at 2. now rewrite Hp. }
  destruct H as (ps & -> & Hmap). simpl. do 2 f_equal.
  apply List.map_ext. intros r. now rewrite Hmap.
Qed.

Lemma select_rows_filter {A} (p q : A -> bool) (l : list A) :
  select_rows l (series_and (map p l) (map q l))
  = List.filter (fun x => p x && q x) l.
Proof.
  unfold series_and. induction l as [|x l IH]; [reflexivity|]. simpl.
  rewrite IH. reflexivity.
Qed.

Lemma length_series_and (a b : list bool) :
  length a = length b -> length (series_and a b) = length a.
Proof. intros H. unfold series_and. rewrite length_zip_with. lia. Qed.

Lemma filter_map_comm {A B} (f : A -> B) (p : B -> bool) (l : list A) :
  List.filter p (map f l) = map f (List.filter (fun x => p (f x)) l).
Proof.
  induction l as [|x l IH]; [reflexivity|]. simpl.
  destruct (p (f x)); simpl; now rewrite IH.
Qed.

Lemma getitem_col_formatUp (df : DataFrame) :
  getitem_col (grid_of df) "formatUp"
  = Ok (map (fun r => cell_of df r "formatUp") (rows df)).
Proof. unfold getitem_col, grid_of. simpl. now rewrite List.map_map. Qed.

Lemma getitem_col_hidden (df : DataFrame) :
  getitem_col (grid_of df) "hidden"
  = Ok (map (fun r => cell_of df r "hidden") (rows df)).
Proof. unfold getitem_col, grid_of. simpl. now rewrite List.map_map. Qed.

Lemma getitem_mask_condition (df : DataFrame) (f : Q) (cmp : cell -> Q -> bool) (h : Q) :
  getitem_mask (grid_of df)
    (series_and (map (fun x => cell_eqb x f) (map (fun r => cell_of df r "formatUp") (rows df)))
                (map (fun x => cmp x h) (map (fun r => cell_of df r "hidden") (rows df))))
  = Ok (mkDF (AUX_COLS ++ QUESTION_COLS)
          (map (fun r => (fst r, map (cell_of df r) (AUX_COLS ++ QUESTION_COLS)))
               (List.filter (fun r => cell_eqb (cell_of df r "formatUp") f
                                      && cmp (cell_of df r "hidden") h)
                            (rows df)))).
Proof.
  unfold getitem_mask. rewrite !List.map_map.
  rewrite length_series_and by now rewrite !List.length_map.
  unfold df_len, grid_of. cbn [rows columns]. rewrite !List.length_map.
  rewrite Nat.eqb_refl. do 2 f_equal.
  rewrite <- (select_rows_filter _ _ (rows df)).
  generalize (series_and
                (map (fun x => cell_eqb (cell_of df x "formatUp") f) (rows df))
                (map (fun x => cmp (cell_of df x "hidden") h) (rows df))).
  induction (rows df) as [|r l IH]; intros mask; [reflexivity|].
  destruct mask as [|[] mask]; simpl; [reflexivity| |]; now rewrite IH.
Qed.

Lemma getitem_mask_group (df : DataFrame) :
  let fu := map (fun r => cell_of df r "formatUp") (rows df) in
  let hd := map (fun r => cell_of df r "hidden") (rows df) in
  getitem_mask (grid_of df)
    (series_and (map (fun x => cell_eqb x 1) fu) (map (fun x => cell_ltb x 51) hd))
  = Ok (masked_of df 0)
  /\ getitem_mask (grid_of df)
    (series_and (map (fun x => cell_eqb x 1) fu) (map (fun x => cell_gtb x 50) hd))
  = Ok (masked_of df 1)
  /\ getitem_mask (grid_of df)
    (series_and (map (fun x => cell_eqb x 2) fu) (map (fun x => cell_ltb x 51) hd))
  = Ok (masked_of df 2)
  /\ getitem_mask (grid_of df)
    (series_and (map (fun x => cell_eqb x 2) fu) (map (fun x => cell_gtb x 50) hd))
  = Ok (masked_of df 3).
Proof. repeat split; apply getitem_mask_condition. Qed.

Lemma drop_columns_masked (df : DataFrame) (i : nat) :
  drop_columns (masked_of df i) AUX_COLS = Ok (partition_of df i).
Proof.
  unfold drop_columns, masked_of, partition_of. simpl.
  rewrite List.map_map. reflexivity.
Qed.

(** ** Running the partitioners *)

Lemma lookup_ext {A} (s ext : list A) (k : nat) :
  (s ++ ext) !! (length s + k) = ext !! k.
Proof. rewrite lookup_app_r by lia. f_equal. lia. Qed.

Lemma lookup_ext0 {A} (s ext : list A) :
  (s ++ ext) !! length s = ext !! 0.
Proof. rewrite <- (lookup_ext s ext 0). f_equal. lia. Qed.

Lemma threshold_51 : (HIDDEN_THRESHOLD + 1)%Q = 51%Q.
Proof. reflexivity. Qed.

(** Unfold the monad and the methods, then alternate computation with
    the look-ups and selections that do not compute on an abstract store. *)
Ltac run_unfold :=
  unfold df_getitem_cols, df_copy, df_getitem_col, df_getitem_mask,
         df_drop_inplace, df_dropna, df_len_of, call, list_get;
  cbn [mmap enumerate zip zip_with seq length lookup list_lookup GROUP_LABELS];
  unfold bind, ret, lift, emit, alloc, deref, assign.

Ltac run_compute :=
  cbn [store rng out fst snd length app Nat.add lookup list_lookup
       insert list_insert GROUP_LABELS mmap bind ret lift].

Ltac run_step :=
  first [ progress unfold bind, ret, lift
        | rewrite <- !app_assoc
        | rewrite !length_app
        | rewrite <- !Nat.add_assoc
        | rewrite lookup_ext
        | rewrite lookup_ext0
        | rewrite insert_app_r
        | rewrite getitem_col_formatUp
        | rewrite getitem_col_hidden
        | rewrite (proj1 (getitem_mask_group _))
        | rewrite (proj1 (proj2 (getitem_mask_group _)))
        | rewrite (proj1 (proj2 (proj2 (getitem_mask_group _))))
        | rewrite (proj2 (proj2 (proj2 (getitem_mask_group _))))
        | rewrite drop_columns_masked
        | rewrite threshold_51
        | match goal with
          | H : _ !! _ = Some _ |- _ => rewrite H
          | H : _ = Ok _ |- _ => rewrite H
          end ].

Ltac run := repeat (run_compute; run_step); run_compute.

Lemma fa_prepare_run {G} (w : World G) (matrix : loc) (df : DataFrame) :
  store w !! matrix = Some df ->
  has_columns df (AUX_COLS ++ QUESTION_COLS) ->
  FactorAnalysis.prepare_format_groups matrix w
  = (Ok [length (store w) + 3; length (store w) + 5;
         length (store w) + 7; length (store w) + 9],
     mkWorld (store w ++ [grid_of df; grid_of df;
                          masked_of df 0; partition_of df 0;
                          masked_of df 1; partition_of df 1;
                          masked_of df 2; partition_of df 2;
                          masked_of df 3; partition_of df 3])
             (rng w)
             (out w ++ [Print "Preparing format groups...";
                        PrintCount "Single Page - Order A" (df_len (partition_of df 0));
                        PrintCount "Single Page - Order B" (df_len (partition_of df 1));
                        PrintCount "Slides - Order A" (df_len (partition_of df 2));
                        PrintCount "Slides - Order B" (df_len (partition_of df 3))])).
Proof.
  intros Hm Hc. destruct w as [s g o]. cbn [store rng out] in *.
  pose proof (getitem_cols_project df _ Hc) as Hsel.
  change (mkDF _ _) with (grid_of df) in Hsel.
  unfold FactorAnalysis.prepare_format_groups, FactorAnalysis.condition.
  run_unfold. run. reflexivity.
Qed.

Lemma ch_prepare_run {G} (w : World G) (matrix : loc) (df : DataFrame) :
  store w !! matrix = Some df ->
  has_columns df (AUX_COLS ++ QUESTION_COLS) ->
  CorrelationHeatmaps.prepare_format_groups matrix w
  = (Ok [length (store w) + 2; length (store w) + 4;
         length (store w) + 6; length (store w) + 8],
     mkWorld (store w ++ [grid_of df;
                          masked_of df 0; partition_of df 0;
                          masked_of df 1; partition_of df 1;
                          masked_of df 2; partition_of df 2;
                          masked_of df 3; partition_of df 3])
             (rng w) (out w)).
Proof.
  intros Hm Hc. destruct w as [s g o]. cbn [store rng out] in *.
  pose proof (getitem_cols_project df _ Hc) as Hsel.
  change (mkDF _ _) with (grid_of df) in Hsel.
  unfold CorrelationHeatmaps.prepare_format_groups, CorrelationHeatmaps.form.
  run_unfold. run. reflexivity.
Qed.

(** ** Exclusive and exhaustive predicates *)

Lemma integral_lt_gt (x : cell) :
  cell_integral x -> cell_ltb x 51 = negb (cell_gtb x 50).
Proof.
  destruct x as [|q]; [contradiction|]. intros [z Hz]. simpl.
  rewrite negb_involutive.
  destruct (Qle_bool 51 q) eqn:E1, (Qle_bool q 50) eqn:E2; try reflexivity.
  - apply Qle_bool_iff in E1, E2. rewrite Hz in E1, E2.
    change 51%Q with (inject_Z 51) in E1. change 50%Q with (inject_Z 50) in E2.
    rewrite <- Zle_Qle in E1, E2. lia.
  - assert (H1 : ~ (51 <= q)%Q) by (rewrite <- Qle_bool_iff; congruence).
    assert (H2 : ~ (q <= 50)%Q) by (rewrite <- Qle_bool_iff; congruence).
    rewrite Hz in H1, H2.
    change 51%Q with (inject_Z 51) in H1. change 50%Q with (inject_Z 50) in H2.
    rewrite <- Zle_Qle in H1, H2. lia.
Qed.

Lemma format_1_not_2 (x : cell) :
  cell_eqb x 1 = true -> cell_eqb x 2 = false.
Proof.
  destruct x as [|q]; [discriminate|]. simpl. intros H1.
  destruct (Qeq_bool q 2) eqn:H2; [|reflexivity].
  apply Qeq_bool_iff in H1, H2. rewrite H1 in H2. discriminate.
Qed.

Lemma coded_one_group (df : DataFrame) (r : Z * list cell) :
  (cell_eqb (cell_of df r "formatUp") 1 = true
   \/ cell_eqb (cell_of df r "formatUp") 2 = true) ->
  cell_integral (cell_of df r "hidden") ->
  memberships df r = 1.
Proof.
  intros Hf Hh. unfold memberships. cbn [List.filter in_group].
  rewrite (integral_lt_gt _ Hh).
  destruct Hf as [Hf|Hf].
  - rewrite Hf, (format_1_not_2 _ Hf).
    destruct (cell_gtb (cell_of df r "hidden") 50); reflexivity.
  - destruct (cell_eqb (cell_of df r "formatUp") 1) eqn:H1.
    + rewrite (format_1_not_2 _ H1) in Hf. discriminate.
    + rewrite Hf. destruct (cell_gtb (cell_of df r "hidden") 50); reflexivity.
Qed.

Lemma memberships_unique (df : DataFrame) (r : Z * list cell) (i j : nat) :
  memberships df r = 1 -> in_group df i r = true -> in_group df j r = true -> i = j.
Proof.
  unfold memberships. cbn [List.filter]. intros H Hi Hj.
  destruct i as [|[|[|[|i]]]]; try discriminate Hi;
    destruct j as [|[|[|[|j]]]]; try discriminate Hj; try reflexivity;
    rewrite Hi, Hj in H; cbn [length] in H;
    repeat match type of H with
           | context [if ?b then _ else _] => destruct b
           end; cbn [length] in H; lia.
Qed.

Lemma memberships_exists (df : DataFrame) (r : Z * list cell) :
  memberships df r = 1 -> exists i, i < 4 /\ in_group df i r = true.
Proof.
  unfold memberships. cbn [List.filter]. intros H.
  destruct (in_group df 0 r) eqn:H0; [exists 0; split; [lia|exact H0]|].
  destruct (in_group df 1 r) eqn:H1; [exists 1; split; [lia|exact H1]|].
  destruct (in_group df 2 r) eqn:H2; [exists 2; split; [lia|exact H2]|].
  destruct (in_group df 3 r) eqn:H3; [exists 3; split; [lia|exact H3]|].
  discriminate.
Qed.

Lemma group_sizes_sum (df : DataFrame) (l : list (Z * list cell)) :
  (forall r, In r l -> memberships df r = 1) ->
  length (List.filter (in_group df 0) l) + length (List.filter (in_group df 1) l)
  + length (List.filter (in_group df 2) l) + length (List.filter (in_group df 3) l)
  = length l.
Proof.
  induction l as [|r l IH]; intros H; [reflexivity|].
  specialize (IH (fun r' Hr' => H r' (or_intror Hr'))).
  specialize (H r (or_introl eq_refl)).
  unfold memberships in H. cbn [List.filter] in *.
  destruct (in_group df 0 r), (in_group df 1 r), (in_group df 2 r), (in_group df 3 r);
    cbn [length] in *; lia.
Qed.

Lemma df_len_partition_of (df : DataFrame) (i : nat) :
  df_len (partition_of df i) = length (List.filter (in_group df i) (rows df)).
Proof. unfold df_len, partition_of. cbn [rows]. apply List.length_map. Qed.

Lemma NoDup_map_injective {A B} (f : A -> B) (l : list A) (x y : A) :
  List.NoDup (map f l) -> In x l -> In y l -> f x = f y -> x = y.
Proof.
  induction l as [|a l IH]; intros Hnd Hx Hy Hf; [destruct Hx|].
  simpl in Hnd. apply List.NoDup_cons_iff in Hnd. destruct Hnd as [Ha Hnd].
  destruct Hx as [->|Hx], Hy as [->|Hy]; auto.
  - exfalso. apply Ha. rewrite Hf. now apply List.in_map.
  - exfalso. apply Ha. rewrite <- Hf. now apply List.in_map.
Qed.

Lemma in_labels_partition_of (df : DataFrame) (i : nat) (z : Z) :
  In z (labels (partition_of df i)) ->
  exists r, In r (rows df) /\ in_group df i r = true /\ fst r = z.
Proof.
  unfold labels, partition_of. cbn [rows]. rewrite List.map_map.
  intros H. apply List.in_map_iff in H. destruct H as (r & Hz & Hr).
  apply List.filter_In in Hr. exists r. tauto.
Qed.

(** C2, as the code has it.  On a filtered matrix with the two auxiliary
    and the twelve item columns, both partitioners return four groups;
    group i holds exactly the rows of the original matrix that satisfy
    predicate i (no predicate sees the outcome of another), in the
    original order, with the twelve item columns and without [formatUp]
    and [hidden].  When every row has format code 1 or 2 and a
    whole-number order code, every row is in exactly one group, the row
    counts of the groups sum to the row count of the input, and with
    distinct index labels no label occurs in two groups. *)
Theorem prepare_format_groups_partition {G} (w : World G) (matrix : loc) (df : DataFrame) :
  store w !! matrix = Some df ->
  has_columns df (AUX_COLS ++ QUESTION_COLS) ->
  exists groups w1 forms w2,
    FactorAnalysis.prepare_format_groups matrix w = (Ok groups, w1)
    /\ CorrelationHeatmaps.prepare_format_groups matrix w = (Ok forms, w2)
    /\ Forall2 (fun g i => store w1 !! g = Some (partition_of df i)) groups [0; 1; 2; 3]
    /\ Forall2 (fun f i => store w2 !! f = Some (partition_of df i)) forms [0; 1; 2; 3]
    /\ (coded df ->
        df_len (partition_of df 0) + df_len (partition_of df 1)
        + df_len (partition_of df 2) + df_len (partition_of df 3) = df_len df
        /\ (forall r, In r (rows df) ->
            exists i, i < 4 /\ in_group df i r = true
                      /\ forall j, in_group df j r = true -> j = i)
        /\ (List.NoDup (labels df) ->
            forall i j z, i <> j ->
              In z (labels (partition_of df i)) -> ~ In z (labels (partition_of df j)))).
Proof.
  intros Hm Hc.
  eexists _, _, _, _.
  split; [apply (fa_prepare_run w matrix df Hm Hc)|].
  split; [apply (ch_prepare_run w matrix df Hm Hc)|].
  cbn [store]. split; [|split].
  - repeat constructor; rewrite lookup_ext; reflexivity.
  - repeat constructor; rewrite lookup_ext; reflexivity.
  - intros Hcoded.
    assert (Hone : forall r, In r (rows df) -> memberships df r = 1).
    { intros r Hr. destruct (Hcoded r Hr). now apply coded_one_group. }
    split; [|split].
    + rewrite !df_len_partition_of. now apply group_sizes_sum.
    + intros r Hr. destruct (memberships_exists df r (Hone r Hr)) as (i & Hi & Hg).
      exists i. repeat split; auto. intros j Hj.
      exact (memberships_unique df r j i (Hone r Hr) Hj Hg).
    + intros Hnd i j z Hij Hi Hj.
      apply in_labels_partition_of in Hi, Hj.
      destruct Hi as (r & Hr & Hgi & Hz), Hj as (r' & Hr' & Hgj & Hz').
      assert (r = r') as <-.
      { apply (NoDup_map_injective fst (rows df)); auto. congruence. }
      apply Hij. exact (memberships_unique df r i j (Hone r Hr) Hgi Hgj).
Qed.

Lemma four_groups_coded : coded Demo.four_groups.
Proof.
  intros r Hr. simpl in Hr.
  destruct Hr as [<-|[<-|[<-|[<-|[]]]]].
  - split; [left; reflexivity|]. now exists 10%Z.
  - split; [left; reflexivity|]. now exists 60%Z.
  - split; [right; reflexivity|]. now exists 20%Z.
  - split; [right; reflexivity|]. now exists 90%Z.
Qed.

Lemma prepare_format_groups_partition_witness :
  group_sizes (FactorAnalysis.prepare_format_groups 0 (mkWorld [Demo.four_groups] 0 []))
  = [Some 1; Some 1; Some 1; Some 1]
  /\ df_len (partition_of Demo.four_groups 0) + df_len (partition_of Demo.four_groups 1)
     + df_len (partition_of Demo.four_groups 2) + df_len (partition_of Demo.four_groups 3)
     = df_len Demo.four_groups.
Proof.
  destruct (prepare_format_groups_partition
              (mkWorld [Demo.four_groups] 0 []) 0 Demo.four_groups eq_refl)
    as (groups & w1 & forms & w2 & Hfa & _ & _ & _ & Hcoded).
  - intros c Hc. simpl in Hc. simpl.
    repeat (destruct Hc as [<-|Hc]; [tauto|]). contradiction.
  - split; [reflexivity|]. exact (proj1 (Hcoded four_groups_coded)).
Defined.

(** C2 as stated fails without the coding assumption.  A respondent with
    a missing order code is in no group: the group sizes are 1, 0, 0, 0
    for an input of 2 rows.  A respondent with order code 50.5 is in both
    order-A and order-B of the single-page format: label 0 is in the
    first two groups. *)
Lemma prepare_format_groups_counterexample :
  (group_sizes (FactorAnalysis.prepare_format_groups 0 (mkWorld [Demo.missing_order] 0 []))
   = [Some 1; Some 0; Some 0; Some 0]
   /\ group_sizes (CorrelationHeatmaps.prepare_format_groups 0
                     (mkWorld [Demo.missing_order] 0 []))
      = [Some 1; Some 0; Some 0; Some 0]
   /\ df_len Demo.missing_order = 2)
  /\ (group_labels (FactorAnalysis.prepare_format_groups 0
                      (mkWorld [Demo.fractional_order] 0 []))
      = [Some [0%Z]; Some [0%Z]; Some []; Some []]
      /\ group_labels (CorrelationHeatmaps.prepare_format_groups 0
                         (mkWorld [Demo.fractional_order] 0 []))
         = [Some [0%Z]; Some [0%Z]; Some []; Some []]).
Proof. vm_compute. repeat split; reflexivity. Qed.

(** ** Running [filter_data] and the adequacy tests *)

Lemma getitem_col_cell_of (df : DataFrame) (c : string) :
  In c (columns df) ->
  getitem_col df c = Ok (map (fun r => cell_of df r c) (rows df)).
Proof.
  intros Hc. unfold getitem_col. destruct (col_pos_In _ _ Hc) as [p Hp].
  rewrite Hp. f_equal. apply List.map_ext. intros r. unfold cell_of. now rewrite Hp.
Qed.

Lemma select_rows_map {A} (p : A -> bool) (l : list A) :
  select_rows l (map p l) = List.filter p l.
Proof. induction l as [|x l IH]; [reflexivity|]. simpl. now rewrite IH. Qed.

Lemma getitem_mask_map (df : DataFrame) (p : Z * list cell -> bool) :
  getitem_mask df (map p (rows df)) = Ok (mkDF (columns df) (List.filter p (rows df))).
Proof.
  unfold getitem_mask, df_len. rewrite List.length_map, Nat.eqb_refl.
  now rewrite select_rows_map.
Qed.

Lemma getitem_mask_students (df : DataFrame) :
  getitem_mask df (map (fun x => cell_eqb x STUDENT_ROLE_CODE)
                       (map (fun r => cell_of df r "uloga") (rows df)))
  = Ok (students_of df).
Proof. rewrite List.map_map. apply getitem_mask_map. Qed.

Lemma getitem_mask_frequent (df : DataFrame) :
  getitem_mask (students_of df)
               (map (fun x => cell_gtb x FREQUENT_VISITOR_THRESHOLD)
                    (map (fun r => cell_of (students_of df) r "cesto")
                         (rows (students_of df))))
  = Ok (filtered_of df).
Proof. rewrite List.map_map. apply (getitem_mask_map (students_of df)). Qed.

Lemma filter_data_run {G} (w : World G) (matrix : loc) (df : DataFrame) :
  store w !! matrix = Some df ->
  has_columns df ["uloga"; "cesto"] ->
  FactorAnalysis.filter_data matrix w
  = if df_empty (filtered_of df)
    then (Ok (length (store w) + 2),
          mkWorld (store w ++ [students_of df; filtered_of df; mkDF [] []]) (rng w)
                  (out w ++ [PrintCount "Initial records: " (df_len df);
                             PrintCount "Students only: " (df_len (students_of df));
                             PrintCount "Frequent visitors: " (df_len (filtered_of df));
                             Print "Error: No data left after filtering."]))
    else (Ok (length (store w) + 1),
          mkWorld (store w ++ [students_of df; filtered_of df]) (rng w)
                  (out w ++ [PrintCount "Initial records: " (df_len df);
                             PrintCount "Students only: " (df_len (students_of df));
                             PrintCount "Frequent visitors: " (df_len (filtered_of df))])).
Proof.
  intros Hm Hc. destruct w as [s g o]. cbn [store rng out] in *.
  pose proof (getitem_col_cell_of df "uloga" (Hc _ (or_introl eq_refl))) as Hu.
  pose proof (getitem_col_cell_of (students_of df) "cesto"
                (Hc _ (or_intror (or_introl eq_refl)))) as Hce.
  pose proof (getitem_mask_students df) as Hs.
  pose proof (getitem_mask_frequent df) as Hf.
  unfold FactorAnalysis.filter_data. run_unfold. run.
  destruct (df_empty (filtered_of df)); run; reflexivity.
Qed.

Lemma perform_adequacy_tests_run {G} (lib : Library G) (w : World G)
    (matrix : loc) (df : DataFrame) :
  store w !! matrix = Some df ->
  has_columns df QUESTION_COLS ->
  let x := complete_cases df in
  let w0 := mkWorld (store w ++ [items_frame df; items_frame df; x]) (rng w)
              (out w ++ [Print "Performing adequacy tests...";
                         PrintCount "Complete cases for analysis: " (df_len x);
                         CallBartlett x]) in
  FactorAnalysis.perform_adequacy_tests lib matrix w
  = match calculate_bartlett_sphericity lib x with
    | Raise e => (Raise e, w0)
    | Ok b =>
        let w1 := mkWorld (store w0) (rng w0)
                    (out w0 ++ [PrintStats "Bartlett's Test of Sphericity" [fst b; snd b];
                                Print (if cell_ltb (snd b) double_0_001
                                       then "Data is suitable for factor analysis (p < 0.001)"
                                       else "Warning: p-value > 0.001");
                                CallKmo x]) in
        match calculate_kmo lib x with
        | Raise e => (Raise e, w1)
        | Ok k => (Ok (fst b, snd b, snd k),
                   mkWorld (store w1) (rng w1)
                     (out w1 ++ [PrintStats "Overall KMO" [snd k];
                                 Print (FactorAnalysis.interpretation (snd k))]))
        end
    end.
Proof.
  intros Hm Hc x w0. subst x w0. destruct w as [s g o]. cbn [store rng out] in *.
  pose proof (getitem_cols_project df _ Hc) as Hsel.
  change (mkDF _ _) with (items_frame df) in Hsel.
  unfold FactorAnalysis.perform_adequacy_tests. run_unfold. run.
  change (dropna (items_frame df)) with (complete_cases df).
  destruct (calculate_bartlett_sphericity lib (complete_cases df)) as [b|e];
    [|run; reflexivity].
  run.
  destruct (calculate_kmo lib (complete_cases df)) as [k|e]; run; reflexivity.
Qed.

(** ** Running [main] up to the analyses *)

Lemma has_columns_app_r (df : DataFrame) (a b : list string) :
  has_columns df (a ++ b) -> has_columns df b.
Proof. intros H c Hc. apply H. apply List.in_or_app. now right. Qed.

Lemma has_columns_app_l (df : DataFrame) (a b : list string) :
  has_columns df (a ++ b) -> has_columns df a.
Proof. intros H c Hc. apply H. apply List.in_or_app. now left. Qed.

Lemma main_run {G} (lib : Library G) (w : World G) (csv : DataFrame) :
  read_csv lib FactorAnalysis.DATA_FILEPATH = Ok csv ->
  has_columns csv CSV_COLS ->
  df_empty (filtered_of csv) = false ->
  let f := filtered_of csv in
  let n := length (store w) in
  let w1 := mkWorld (store w ++ prologue_objects csv) (rng w) (out w ++ prologue csv) in
  FactorAnalysis.main lib w
  = if existsb (Nat.eqb 0) [df_len (partition_of f 0); df_len (partition_of f 1);
                            df_len (partition_of f 2); df_len (partition_of f 3)]
    then (Ok tt, mkWorld (store w1) (rng w1)
                   (out w1 ++ [Print "Error: One or more groups have no data."]))
    else FactorAnalysis.analyses lib (n + 2) [n + 6; n + 8; n + 10; n + 12] w1.
Proof.
  intros Hcsv Hcols Hne f n w1. subst f n w1.
  destruct w as [s g o]. cbn [store rng out].
  unfold prologue_objects, prologue, FactorAnalysis.main. run_unfold. run.
  rewrite (filter_data_run _ _ csv);
    [|cbn [store]; apply list_lookup_middle; reflexivity
     |apply (has_columns_app_l csv _ _ Hcols)].
  rewrite Hne. run. rewrite Hne.
  rewrite (fa_prepare_run _ _ (filtered_of csv));
    [|cbn [store]; rewrite lookup_ext; reflexivity
     |apply (has_columns_app_r (filtered_of csv) ["uloga"; "cesto"]), Hcols].
  run.
  destruct (existsb _ _); run; reflexivity.
Qed.

(** ** Trace: which events a computation may add *)

Section Trace.
Context {G : Type} (lib : Library G) (p : Event -> bool).

Local Abbreviation emits := (emits_by (G := G) p).
Local Abbreviation traced := (traced_by (G := G) p).

Lemma emits_refl w : emits w w.
Proof. exists []. split; [now rewrite app_nil_r|reflexivity]. Qed.

Lemma emits_trans w1 w2 w3 : emits w1 w2 -> emits w2 w3 -> emits w1 w3.
Proof.
  intros (e1 & H1 & P1) (e2 & H2 & P2). exists (e1 ++ e2). split.
  - rewrite H2, H1. now rewrite app_assoc.
  - rewrite forallb_app, P1, P2. reflexivity.
Qed.

Lemma traced_bind {A B} (c : M G A) (k : A -> M G B) :
  traced c -> (forall a, traced (k a)) -> traced (bind c k).
Proof.
  intros Hc Hk. eapply triple_bind; [exact emits_trans|exact Hc|].
  intros a _. apply Hk.
Qed.

Lemma traced_ret {A} (a : A) : traced (ret (G := G) a).
Proof. apply triple_ret; [exact emits_refl|exact I]. Qed.

Lemma traced_lift {A} (r : Result A) : traced (lift (G := G) r).
Proof. apply triple_lift. exact emits_refl. Qed.

Lemma traced_emit (e : Event) : p e = true -> traced (emit e).
Proof.
  intros He w _. simpl. repeat split; auto. exists [e]. simpl.
  now rewrite He.
Qed.

Lemma traced_call {A} (e : Event) (r : Result A) : p e = true -> traced (call e r).
Proof.
  intros He. unfold call. apply traced_bind; [now apply traced_emit|].
  intros _. apply traced_lift.
Qed.

Lemma traced_deref (l : loc) : traced (deref (G := G) l).
Proof.
  intros w _. unfold deref. destruct (store w !! l); simpl;
    repeat split; auto using emits_refl.
Qed.

Lemma traced_list_get {A} (xs : list A) (i : nat) : traced (list_get (G := G) xs i).
Proof.
  unfold list_get. destruct (xs !! i); [apply traced_ret|apply traced_lift].
Qed.

Lemma traced_mmap {A B} (f : A -> M G B) (l : list A) :
  (forall a, traced (f a)) -> traced (mmap f l).
Proof.
  intros Hf. eapply triple_weaken.
  - apply (triple_mmap _ _ emits_refl emits_trans f (fun _ => True) (fun _ => True)).
    + intros a _. apply Hf.
    + apply Forall_forall. auto.
  - auto.
Qed.

Lemma traced_if {A} (b : bool) (c1 c2 : M G A) :
  traced c1 -> traced c2 -> traced (if b then c1 else c2).
Proof. now destruct b. Qed.

Ltac trace_chain :=
  repeat first
    [ apply traced_bind; [|intros]
    | apply traced_ret | apply traced_lift | apply traced_deref
    | apply traced_list_get
    | apply traced_emit; reflexivity
    | apply traced_call; reflexivity
    | apply traced_if
    | apply traced_mmap; intros ].

Lemma traced_perform_factor_analysis groups :
  (forall cfg x, p (CallFit cfg x) = true) ->
  (forall s, p (Print s) = true) ->
  (forall s n, p (PrintCount s n) = true) ->
  (forall s xs, p (PrintStats s xs) = true) ->
  traced (FactorAnalysis.perform_factor_analysis lib groups).
Proof.
  intros Hfit Hp Hc Hs. unfold FactorAnalysis.perform_factor_analysis.
  trace_chain; first [apply traced_emit | apply traced_call]; auto.
Qed.

Lemma traced_factor_stage adequacy groups :
  (forall e, is_adequacy e = false -> p e = true) ->
  traced (FactorAnalysis.factor_stage lib adequacy groups).
Proof.
  intros Hp. unfold FactorAnalysis.factor_stage.
  apply traced_bind; [apply traced_perform_factor_analysis; intros; now apply Hp|].
  intros fa.
  unfold FactorAnalysis.create_scree_plot, FactorAnalysis.create_loadings_heatmaps,
         FactorAnalysis.save_loadings_to_csv, FactorAnalysis.print_summary.
  trace_chain; first [apply traced_emit | apply traced_call]; now apply Hp.
Qed.

End Trace.

(** ** [main]: empty groups, and where the adequacy tests are run *)

Lemma adequacy_calls_app (a b : list Event) :
  adequacy_calls (a ++ b) = adequacy_calls a ++ adequacy_calls b.
Proof.
  induction a as [|e a IH]; [reflexivity|].
  destruct e; simpl; rewrite IH; reflexivity.
Qed.

Lemma fit_calls_app (a b : list Event) :
  fit_calls (a ++ b) = fit_calls a ++ fit_calls b.
Proof.
  induction a as [|e a IH]; [reflexivity|].
  destruct e; simpl; rewrite IH; reflexivity.
Qed.

Lemma no_adequacy_calls (evs : list Event) :
  forallb (fun e => negb (is_adequacy e)) evs = true -> adequacy_calls evs = [].
Proof.
  induction evs as [|e evs IH]; [reflexivity|]. simpl.
  intros H. apply andb_prop in H. destruct H as [He H].
  destruct e; simpl in *; try discriminate; auto.
Qed.

Lemma some_group_empty (sizes : nat -> nat) :
  (exists i, i < 4 /\ sizes i = 0) <->
  existsb (Nat.eqb 0) [sizes 0; sizes 1; sizes 2; sizes 3] = true.
Proof.
  split.
  - intros (i & Hi & Hz). cbn [existsb].
    destruct i as [|[|[|[|i]]]]; try lia; rewrite Hz; cbn;
      rewrite ?orb_true_r; reflexivity.
  - cbn [existsb]. intros H.
    destruct (sizes 0) eqn:H0; [exists 0; split; [lia|assumption]|].
    destruct (sizes 1) eqn:H1; [exists 1; split; [lia|assumption]|].
    destruct (sizes 2) eqn:H2; [exists 2; split; [lia|assumption]|].
    destruct (sizes 3) eqn:H3; [exists 3; split; [lia|assumption]|].
    discriminate.
Qed.

Lemma prologue_calls (csv : DataFrame) :
  adequacy_calls (prologue csv) = [] /\ fit_calls (prologue csv) = [].
Proof. split; reflexivity. Qed.

(** C4, as the code has it.  When the run reaches the partition (the
    matrix loads with its columns and some frequent-visitor student is
    left) and one of the four groups has no row, [main] prints the group
    counts and "Error: One or more groups have no data." and returns: the
    whole trace of the run is the prologue and that line, with no
    sphericity, KMO or factor-analysis call for any group, empty or
    not. *)
Theorem main_stops_on_empty_group {G} (lib : Library G) (w : World G) (csv : DataFrame) :
  read_csv lib FactorAnalysis.DATA_FILEPATH = Ok csv ->
  has_columns csv CSV_COLS ->
  df_empty (filtered_of csv) = false ->
  (exists i, i < 4 /\ df_len (partition_of (filtered_of csv) i) = 0) ->
  FactorAnalysis.main lib w
  = (Ok tt,
     mkWorld (store w ++ prologue_objects csv) (rng w)
             (out w ++ prologue csv ++ [Print "Error: One or more groups have no data."]))
  /\ adequacy_calls (prologue csv ++ [Print "Error: One or more groups have no data."]) = []
  /\ fit_calls (prologue csv ++ [Print "Error: One or more groups have no data."]) = [].
Proof.
  intros Hcsv Hcols Hne Hempty.
  apply (some_group_empty (fun i => df_len (partition_of (filtered_of csv) i))) in Hempty.
  split; [|split; reflexivity].
  rewrite (main_run lib w csv Hcsv Hcols Hne). cbv zeta. rewrite Hempty.
  cbn [store rng out]. now rewrite <- app_assoc.
Qed.

Lemma no_slides_b_columns : has_columns Demo.no_slides_b CSV_COLS.
Proof. intros c Hc. exact Hc. Qed.

Lemma main_stops_on_empty_group_witness :
  FactorAnalysis.main (Demo.returning Demo.no_slides_b) Demo.empty_world
  = (Ok tt,
     mkWorld (prologue_objects Demo.no_slides_b) 0
             (prologue Demo.no_slides_b
              ++ [Print "Error: One or more groups have no data."])).
Proof.
  refine (proj1 (main_stops_on_empty_group (Demo.returning Demo.no_slides_b)
                   Demo.empty_world Demo.no_slides_b eq_refl
                   no_slides_b_columns eq_refl _)).
  exists 3. split; [lia|reflexivity].
Defined.

(** C4 as stated fails: three groups have a respondent each and the
    fourth is empty; with a library whose every call returns, the run
    ends after the error line, and no group, empty or not, was analysed. *)
Lemma main_empty_group_counterexample :
  group_sizes (FactorAnalysis.prepare_format_groups 0
                 (mkWorld [filtered_of Demo.no_slides_b] 0 []))
  = [Some 1; Some 1; Some 1; Some 0]
  /\ fst (FactorAnalysis.main (Demo.returning Demo.no_slides_b) Demo.empty_world) = Ok tt
  /\ last (out (snd (FactorAnalysis.main (Demo.returning Demo.no_slides_b)
                       Demo.empty_world)))
     = Some (Print "Error: One or more groups have no data.")
  /\ fit_calls (out (snd (FactorAnalysis.main (Demo.returning Demo.no_slides_b)
                            Demo.empty_world))) = []
  /\ adequacy_calls (out (snd (FactorAnalysis.main (Demo.returning Demo.no_slides_b)
                                 Demo.empty_world))) = [].
Proof. vm_compute. repeat split; reflexivity. Qed.

Lemma filtered_lookup {G} (w : World G) (csv : DataFrame) :
  (store w ++ prologue_objects csv) !! (length (store w) + 2) = Some (filtered_of csv).
Proof. rewrite lookup_ext. reflexivity. Qed.

Lemma filtered_items (csv : DataFrame) :
  has_columns csv CSV_COLS -> has_columns (filtered_of csv) QUESTION_COLS.
Proof.
  intros H. apply (has_columns_app_r (filtered_of csv) AUX_COLS).
  apply (has_columns_app_r (filtered_of csv) ["uloga"; "cesto"]). exact H.
Qed.

(** C9, as the code has it.  When the run reaches the analyses (the
    matrix loads with its columns, some frequent-visitor student is left
    and no group is empty), the sphericity routine is called exactly
    once, on the complete cases of the item columns of the whole
    filtered matrix, and, when it returns, the KMO routine is called
    exactly once on that same frame.  Neither is called on the matrix of
    a group. *)
Theorem adequacy_on_pooled_matrix {G} (lib : Library G) (w : World G) (csv : DataFrame) :
  read_csv lib FactorAnalysis.DATA_FILEPATH = Ok csv ->
  has_columns csv CSV_COLS ->
  df_empty (filtered_of csv) = false ->
  (forall i, i < 4 -> df_len (partition_of (filtered_of csv) i) <> 0) ->
  exists evs,
    out (snd (FactorAnalysis.main lib w)) = out w ++ evs
    /\ adequacy_calls evs
       = match calculate_bartlett_sphericity lib (complete_cases (filtered_of csv)) with
         | Ok _ => [Sphericity (complete_cases (filtered_of csv));
                    Kmo (complete_cases (filtered_of csv))]
         | Raise _ => [Sphericity (complete_cases (filtered_of csv))]
         end.
Proof.
  intros Hcsv Hcols Hne Hfull.
  assert (Hno : existsb (Nat.eqb 0)
                  [df_len (partition_of (filtered_of csv) 0);
                   df_len (partition_of (filtered_of csv) 1);
                   df_len (partition_of (filtered_of csv) 2);
                   df_len (partition_of (filtered_of csv) 3)] = false).
  { destruct (existsb _ _) eqn:E; [|reflexivity].
    apply (some_group_empty (fun i => df_len (partition_of (filtered_of csv) i))) in E.
    destruct E as (i & Hi & Hz). now destruct (Hfull i Hi). }
  rewrite (main_run lib w csv Hcsv Hcols Hne). cbv zeta. rewrite Hno.
  unfold FactorAnalysis.analyses, bind.
  rewrite (perform_adequacy_tests_run lib _ _ (filtered_of csv));
    [|apply filtered_lookup|now apply filtered_items].
  cbv zeta. cbn [store rng out].
  destruct (calculate_bartlett_sphericity lib (complete_cases (filtered_of csv)))
    as [b|e].
  - destruct (calculate_kmo lib (complete_cases (filtered_of csv))) as [k|e].
    + match goal with
      | |- context [FactorAnalysis.factor_stage lib ?a ?gs ?w3] =>
          destruct (traced_factor_stage lib (fun e => negb (is_adequacy e)) a gs
                      (fun e He => f_equal negb He) w3 I)
            as (_ & (evs & Hout & Hp) & _)
      end.
      rewrite Hout. cbn [out]. eexists. split.
      * rewrite <- !app_assoc. reflexivity.
      * rewrite !adequacy_calls_app, (no_adequacy_calls _ Hp). reflexivity.
    + cbn [snd out]. eexists. split.
      * rewrite <- !app_assoc. reflexivity.
      * rewrite !adequacy_calls_app. reflexivity.
  - cbn [snd out]. eexists. split.
    + rewrite <- !app_assoc. reflexivity.
    + rewrite !adequacy_calls_app. reflexivity.
Qed.

Lemma four_groups_columns : has_columns Demo.four_groups CSV_COLS.
Proof. intros c Hc. exact Hc. Qed.

Lemma four_groups_full i :
  i < 4 -> df_len (partition_of (filtered_of Demo.four_groups) i) <> 0.
Proof. intros Hi. destruct i as [|[|[|[|i]]]]; try lia; discriminate. Qed.

Lemma adequacy_on_pooled_matrix_witness :
  exists evs,
    out (snd (FactorAnalysis.main (Demo.returning Demo.four_groups) Demo.empty_world))
    = [] ++ evs
    /\ adequacy_calls evs
       = [Sphericity (complete_cases (filtered_of Demo.four_groups));
          Kmo (complete_cases (filtered_of Demo.four_groups))].
Proof.
  exact (adequacy_on_pooled_matrix (Demo.returning Demo.four_groups) Demo.empty_world
           Demo.four_groups eq_refl four_groups_columns eq_refl four_groups_full).
Defined.

(** C9 as stated fails: with four respondents, one per group, the
    sphericity and KMO routines each run once, on a frame of four rows
    (everybody), while the four groups, which the factor analysis is
    fitted on one by one, have one row each. *)
Lemma adequacy_per_group_counterexample :
  let trace := out (snd (FactorAnalysis.main (Demo.returning Demo.four_groups)
                           Demo.empty_world)) in
  adequacy_calls trace
  = [Sphericity (complete_cases (filtered_of Demo.four_groups));
     Kmo (complete_cases (filtered_of Demo.four_groups))]
  /\ df_len (complete_cases (filtered_of Demo.four_groups)) = 4
  /\ map df_len (fit_calls trace) = [1; 1; 1; 1]
  /\ map labels (fit_calls trace) = [[0%Z]; [1%Z]; [2%Z]; [3%Z]].
Proof. vm_compute. repeat split; reflexivity. Qed.

(** ** The adequacy tests have no threshold of their own *)

Lemma perform_adequacy_tests_verdict {G} (lib : Library G) (w : World G)
    (matrix : loc) (df : DataFrame) :
  store w !! matrix = Some df ->
  has_columns df QUESTION_COLS ->
  fst (FactorAnalysis.perform_adequacy_tests lib matrix w)
  = library_verdict lib (complete_cases df).
Proof.
  intros Hm Hc. rewrite (perform_adequacy_tests_run lib w matrix df Hm Hc).
  cbv zeta. unfold library_verdict.
  destruct (calculate_bartlett_sphericity lib (complete_cases df)) as [b|e];
    [|reflexivity].
  simpl. destruct (calculate_kmo lib (complete_cases df)); reflexivity.
Qed.

Lemma main_adequacy_raises {G} (lib : Library G) (w : World G) (csv : DataFrame) (e : Exn) :
  read_csv lib FactorAnalysis.DATA_FILEPATH = Ok csv ->
  has_columns csv CSV_COLS ->
  df_empty (filtered_of csv) = false ->
  (forall i, i < 4 -> df_len (partition_of (filtered_of csv) i) <> 0) ->
  library_verdict lib (complete_cases (filtered_of csv)) = Raise e ->
  fst (FactorAnalysis.main lib w) = Raise e
  /\ exists evs, out (snd (FactorAnalysis.main lib w)) = out w ++ evs
                 /\ fit_calls evs = [].
Proof.
  intros Hcsv Hcols Hne Hfull Hv.
  assert (Hno : existsb (Nat.eqb 0)
                  [df_len (partition_of (filtered_of csv) 0);
                   df_len (partition_of (filtered_of csv) 1);
                   df_len (partition_of (filtered_of csv) 2);
                   df_len (partition_of (filtered_of csv) 3)] = false).
  { destruct (existsb _ _) eqn:E; [|reflexivity].
    apply (some_group_empty (fun i => df_len (partition_of (filtered_of csv) i))) in E.
    destruct E as (i & Hi & Hz). now destruct (Hfull i Hi). }
  rewrite (main_run lib w csv Hcsv Hcols Hne). cbv zeta. rewrite Hno.
  unfold FactorAnalysis.analyses, bind.
  rewrite (perform_adequacy_tests_run lib _ _ (filtered_of csv));
    [|apply filtered_lookup|now apply filtered_items].
  cbv zeta. cbn [store rng out]. unfold library_verdict in Hv.
  destruct (calculate_bartlett_sphericity lib (complete_cases (filtered_of csv)))
    as [b|e1]; simpl in Hv.
  - destruct (calculate_kmo lib (complete_cases (filtered_of csv))) as [k|e2];
      simpl in Hv; [discriminate|].
    injection Hv as ->. split; [reflexivity|]. cbn [snd out]. eexists. split.
    + rewrite <- !app_assoc. reflexivity.
    + rewrite !fit_calls_app. reflexivity.
  - injection Hv as ->. split; [reflexivity|]. cbn [snd out]. eexists. split.
    + rewrite <- !app_assoc. reflexivity.
    + rewrite !fit_calls_app. reflexivity.
Qed.

(** C5, as the code has it.  [perform_adequacy_tests] compares the number
    of complete rows with nothing: for every matrix with the item
    columns, few complete rows or many, it hands the complete cases to
    the sphericity and KMO routines and its outcome is theirs, values or
    exception.  Nothing catches such an exception: when the run of
    [main] has reached the analyses and the adequacy tests raise, [main]
    ends with that exception and no factor analysis has been fitted. *)
Theorem adequacy_tests_unguarded {G} (lib : Library G) :
  (forall (w : World G) (matrix : loc) (df : DataFrame),
      store w !! matrix = Some df ->
      has_columns df QUESTION_COLS ->
      fst (FactorAnalysis.perform_adequacy_tests lib matrix w)
      = library_verdict lib (complete_cases df))
  /\ (forall (w : World G) (csv : DataFrame) (e : Exn),
      read_csv lib FactorAnalysis.DATA_FILEPATH = Ok csv ->
      has_columns csv CSV_COLS ->
      df_empty (filtered_of csv) = false ->
      (forall i, i < 4 -> df_len (partition_of (filtered_of csv) i) <> 0) ->
      library_verdict lib (complete_cases (filtered_of csv)) = Raise e ->
      fst (FactorAnalysis.main lib w) = Raise e
      /\ exists evs, out (snd (FactorAnalysis.main lib w)) = out w ++ evs
                     /\ fit_calls evs = []).
Proof.
  split.
  - apply perform_adequacy_tests_verdict.
  - intros w csv e. apply main_adequacy_raises.
Qed.

Lemma adequacy_tests_unguarded_witness :
  fst (FactorAnalysis.perform_adequacy_tests (Demo.returning Demo.four_groups) 0
         (mkWorld [Demo.four_groups] 0 []))
  = Ok (Num 0, Num 1, Num 0.5)
  /\ fst (FactorAnalysis.main (Demo.raising Demo.four_groups) Demo.empty_world)
     = Raise (LibraryError "bartlett").
Proof.
  split.
  - refine (proj1 (adequacy_tests_unguarded (Demo.returning Demo.four_groups))
              (mkWorld [Demo.four_groups] 0 []) 0 Demo.four_groups eq_refl _).
    apply (has_columns_app_r _ AUX_COLS).
    apply (has_columns_app_r _ ["uloga"; "cesto"]). exact four_groups_columns.
  - exact (proj1 (proj2 (adequacy_tests_unguarded (Demo.raising Demo.four_groups))
                    Demo.empty_world Demo.four_groups (LibraryError "bartlett")
                    eq_refl four_groups_columns eq_refl four_groups_full eq_refl)).
Defined.

(** C5 as stated fails.  The loaded matrix has four complete rows, fewer
    than the 13 the specification asks for.  With routines that return, the
    adequacy tests return their values: nothing fails.  With routines
    that raise, the exception ends [main] and no group is analysed: the
    failure is not confined to the adequacy component.  And no behaviour
    of the library makes the adequacy tests fail while the factor
    analysis is still fitted. *)
Lemma adequacy_threshold_counterexample :
  df_len (complete_cases (filtered_of Demo.four_groups)) = 4
  /\ length QUESTION_COLS + 1 = 13
  /\ fst (FactorAnalysis.perform_adequacy_tests (Demo.returning Demo.four_groups) 0
            (mkWorld [filtered_of Demo.four_groups] 0 []))
     = Ok (Num 0, Num 1, Num 0.5)
  /\ fst (FactorAnalysis.main (Demo.raising Demo.four_groups) Demo.empty_world)
     = Raise (LibraryError "bartlett")
  /\ fit_calls (out (snd (FactorAnalysis.main (Demo.raising Demo.four_groups)
                            Demo.empty_world))) = []
  /\ ~ (exists lib : Library nat,
          read_csv lib FactorAnalysis.DATA_FILEPATH = Ok Demo.four_groups
          /\ (exists e, fst (FactorAnalysis.perform_adequacy_tests lib 0
                               (mkWorld [filtered_of Demo.four_groups] 0 []))
                        = Raise e)
          /\ fit_calls (out (snd (FactorAnalysis.main lib Demo.empty_world))) <> []).
Proof.
  repeat (split; [vm_compute; reflexivity|]).
  intros (lib & Hcsv & (e & He) & Hfit).
  rewrite (perform_adequacy_tests_verdict lib _ 0 (filtered_of Demo.four_groups)) in He;
    [|reflexivity|apply filtered_items, four_groups_columns].
  destruct (main_adequacy_raises lib Demo.empty_world Demo.four_groups e Hcsv
              four_groups_columns eq_refl four_groups_full He)
    as (_ & evs & Hout & Hnone).
  apply Hfit. rewrite Hout. exact Hnone.
Qed.

(** ** The bootstrap: where the randomness comes from *)

Lemma store_grows {G A} (c : M G A) (Q : A -> Prop) (w : World G)
    (l : loc) (df : DataFrame) :
  frame_from (length (store w)) c Q ->
  store w !! l = Some df -> store (snd (c w)) !! l = Some df.
Proof. intros Hf. apply (frame_unchanged c Q w Hf). Qed.

Lemma bootstrap_correlation_step {G} (lib : Library G) (w : World G)
    (mat1 mat2 : loc) (m1 m2 : DataFrame) :
  store w !! mat1 = Some m1 -> store w !! mat2 = Some m2 ->
  fst (CorrelationHeatmaps.bootstrap_correlation lib mat1 mat2 w)
  = fst (step_of lib m1 m2 (rng w))
  /\ rng (snd (CorrelationHeatmaps.bootstrap_correlation lib mat1 mat2 w))
     = snd (step_of lib m1 m2 (rng w)).
Proof.
  intros H1 H2. destruct w as [s g o]. cbn [store rng out] in *.
  assert (H2' : forall x, (s ++ [x]) !! mat2 = Some m2).
  { intros x. rewrite lookup_app_l; [exact H2|]. eapply lookup_lt_Some, H2. }
  unfold CorrelationHeatmaps.bootstrap_correlation, df_sample, df_corr, draw,
         CorrelationHeatmaps.get_upper_triangle, step_of, step_value, take_rows.
  run_unfold. run.
  destruct (choice lib g (df_len m1) (sample_size (df_len m1))) as [ps1 g1].
  run.
  destruct (rmap _ ps1) as [rows1|e]; [|split; reflexivity].
  run. rewrite H2'. run.
  destruct (choice lib g1 (df_len m2) (sample_size (df_len m2))) as [ps2 g2].
  run.
  destruct (rmap _ ps2) as [rows2|e]; [|split; reflexivity].
  run.
  destruct (corr lib "kendall" _) as [c1|e]; [|split; reflexivity].
  run.
  destruct (corr lib "kendall" _) as [c2|e]; [|split; reflexivity].
  run. cbn [rbind].
  destruct (upper_triangle (values c1)) as [t1|e]; [|split; reflexivity].
  run. cbn [rbind].
  destruct (upper_triangle (values c2)) as [t2|e]; [|split; reflexivity].
  run. cbn [rbind]. split; reflexivity.
Qed.

Lemma mmap_ext {G A B} (f g : A -> M G B) (l : list A) :
  (forall a w, f a w = g a w) -> forall w, mmap f l w = mmap g l w.
Proof.
  intros Hfg. induction l as [|a l IH]; intros w; [reflexivity|].
  cbn [mmap]. unfold bind. rewrite Hfg.
  destruct (g a w) as [[b|e] w1]; [|reflexivity]. now rewrite IH.
Qed.

Lemma steps_run {G} (lib : Library G) (la lb : loc) (m1 m2 : DataFrame) (k : nat) :
  forall (start : nat) (w : World G),
    store w !! la = Some m1 -> store w !! lb = Some m2 ->
    fst (mmap (fun _ : nat => CorrelationHeatmaps.bootstrap_correlation lib la lb)
              (seq start k) w)
    = fst (steps_of lib m1 m2 (rng w) k)
    /\ rng (snd (mmap (fun _ : nat => CorrelationHeatmaps.bootstrap_correlation lib la lb)
                      (seq start k) w))
       = snd (steps_of lib m1 m2 (rng w) k).
Proof.
  induction k as [|k IH]; intros start w H1 H2.
  - split; reflexivity.
  - cbn [seq mmap steps_of]. unfold bind.
    destruct (bootstrap_correlation_step lib w la lb m1 m2 H1 H2) as [Hv Hg].
    pose proof (store_grows _ _ w la m1
                  (frame_bootstrap_correlation lib _ la lb) H1) as H1'.
    pose proof (store_grows _ _ w lb m2
                  (frame_bootstrap_correlation lib _ la lb) H2) as H2'.
    destruct (CorrelationHeatmaps.bootstrap_correlation lib la lb w) as [[x|e] w1];
      destruct (step_of lib m1 m2 (rng w)) as [r g1];
      cbn [fst snd] in *; subst r g1.
    + destruct (IH (S start) w1 H1' H2') as [IHv IHg].
      destruct (mmap _ (seq (S start) k) w1) as [[xs|e] w2];
        destruct (steps_of lib m1 m2 (rng w1) k) as [r g2];
        cbn [fst snd] in *; subst r g2; split; reflexivity.
    + split; reflexivity.
Qed.

Lemma bootr_steps {G} (lib : Library G) (forms : list loc) (a b : nat)
    (la lb : loc) (m1 m2 : DataFrame) (n_iterations : Z) (w : World G) :
  forms !! a = Some la -> forms !! b = Some lb ->
  store w !! la = Some m1 -> store w !! lb = Some m2 ->
  fst (CorrelationHeatmaps.bootr lib forms a b n_iterations w)
  = fst (steps_of lib m1 m2 (rng w) (Z.to_nat n_iterations))
  /\ rng (snd (CorrelationHeatmaps.bootr lib forms a b n_iterations w))
     = snd (steps_of lib m1 m2 (rng w) (Z.to_nat n_iterations)).
Proof.
  intros Ha Hb H1 H2. unfold CorrelationHeatmaps.bootr, range.
  rewrite (mmap_ext _ (fun _ : nat => CorrelationHeatmaps.bootstrap_correlation lib la lb)).
  - now apply steps_run.
  - intros _ w'. unfold bind, list_get. rewrite Ha, Hb. reflexivity.
Qed.

(** C6, as the code has it.  Neither [bootstrap_correlation] nor
    [run_bootstrap_analysis] has a parameter for a random source; the
    resamples are drawn from the global generator.  What a run of
    [n_iterations] bootstrap steps yields is a function of the two
    matrices and of the state of that generator at the start, and of
    nothing else: two runs on the same two matrices that start from the
    same generator state, whatever else the store and the trace of the
    two worlds hold and wherever the matrices sit, produce the same
    per-iteration samples (or the same exception), leave the generator
    in the same state, and so get the same mean and percentile bounds. *)
Theorem bootr_reproducible {G} (lib : Library G) (w1 w2 : World G)
    (forms1 forms2 : list loc) (a b : nat) (la1 lb1 la2 lb2 : loc)
    (m1 m2 : DataFrame) (n_iterations : Z) :
  forms1 !! a = Some la1 -> forms1 !! b = Some lb1 ->
  forms2 !! a = Some la2 -> forms2 !! b = Some lb2 ->
  store w1 !! la1 = Some m1 -> store w1 !! lb1 = Some m2 ->
  store w2 !! la2 = Some m1 -> store w2 !! lb2 = Some m2 ->
  rng w1 = rng w2 ->
  fst (CorrelationHeatmaps.bootr lib forms1 a b n_iterations w1)
  = fst (CorrelationHeatmaps.bootr lib forms2 a b n_iterations w2)
  /\ rng (snd (CorrelationHeatmaps.bootr lib forms1 a b n_iterations w1))
     = rng (snd (CorrelationHeatmaps.bootr lib forms2 a b n_iterations w2))
  /\ forall samples,
       fst (CorrelationHeatmaps.bootr lib forms1 a b n_iterations w1) = Ok samples ->
       fst (CorrelationHeatmaps.bootr lib forms2 a b n_iterations w2) = Ok samples
       /\ forall wa wb : World G, exists evs,
            out (snd (CorrelationHeatmaps.report lib a b samples wa)) = out wa ++ evs
            /\ out (snd (CorrelationHeatmaps.report lib a b samples wb)) = out wb ++ evs.
Proof.
  intros Ha1 Hb1 Ha2 Hb2 H11 H12 H21 H22 Hg.
  destruct (bootr_steps lib forms1 a b la1 lb1 m1 m2 n_iterations w1
              Ha1 Hb1 H11 H12) as [Hv1 Hr1].
  destruct (bootr_steps lib forms2 a b la2 lb2 m1 m2 n_iterations w2
              Ha2 Hb2 H21 H22) as [Hv2 Hr2].
  rewrite Hv1, Hv2, Hr1, Hr2, Hg. split; [reflexivity|split; [reflexivity|]].
  intros samples Hs. split; [exact Hs|]. intros wa wb.
  unfold CorrelationHeatmaps.report, call, bind, emit, lift. cbn [fst snd].
  destruct (percentile lib samples 2.5);
    [destruct (mean lib samples);
       [destruct (percentile lib samples 97.5)|]|];
    cbn [snd out]; eexists; split; rewrite <- ?app_assoc; reflexivity.
Qed.

Lemma bootr_reproducible_witness :
  fst (CorrelationHeatmaps.bootr (Demo.returning Demo.four_groups) [0] 0 0 2
         (mkWorld [Demo.four_groups] 0 []))
  = fst (CorrelationHeatmaps.bootr (Demo.returning Demo.four_groups) [1] 0 0 2
           (mkWorld [Demo.no_slides_b; Demo.four_groups] 0 [Print "earlier output"])).
Proof.
  exact (proj1 (bootr_reproducible (Demo.returning Demo.four_groups)
                  (mkWorld [Demo.four_groups] 0 [])
                  (mkWorld [Demo.no_slides_b; Demo.four_groups] 0 [Print "earlier output"])
                  [0] [1] 0 0 0 0 1 1 Demo.four_groups Demo.four_groups 2
                  eq_refl eq_refl eq_refl eq_refl eq_refl eq_refl eq_refl eq_refl
                  eq_refl)).
Defined.

(** C6 as stated fails.  A call that hands [bootstrap_correlation] or
    [run_bootstrap_analysis] a random source, as one more positional
    argument or under the name [random_state], binds to no parameter: it
    is a [TypeError].  And the two runs the code itself makes for a pair,
    with a generator that moves on at every draw, resample different
    rows: of four respondents the first run correlates rows 0, 1 and
    1, 2, the second rows 2, 3 and 3, 0. *)
Lemma bootstrap_random_source_counterexample :
  binds CorrelationHeatmaps.def_bootstrap_correlation 2 [] = true
  /\ binds CorrelationHeatmaps.def_bootstrap_correlation 3 [] = false
  /\ binds CorrelationHeatmaps.def_bootstrap_correlation 2 ["random_state"] = false
  /\ binds CorrelationHeatmaps.def_run_bootstrap_analysis 2 [] = true
  /\ binds CorrelationHeatmaps.def_run_bootstrap_analysis 3 [] = false
  /\ binds CorrelationHeatmaps.def_run_bootstrap_analysis 2 ["random_state"] = false
  /\ (let first := CorrelationHeatmaps.bootr (Demo.returning Demo.four_groups) [0] 0 0 1
                     (mkWorld [Demo.four_groups] 0 []) in
      let second := CorrelationHeatmaps.bootr (Demo.returning Demo.four_groups) [0] 0 0 1
                      (mkWorld (store (snd first)) (rng (snd first)) []) in
      map labels (corr_inputs (out (snd first))) = [[0%Z; 1%Z]; [1%Z; 2%Z]]
      /\ map labels (corr_inputs (out (snd second))) = [[2%Z; 3%Z]; [3%Z; 0%Z]]).
Proof. vm_compute. repeat split; reflexivity. Qed.

(** ** No validation of the configuration *)

Lemma sample_size_nearest (n : nat) :
  10 * sample_size n <= 6 * n + 5 < 10 * sample_size n + 10.
Proof.
  unfold sample_size.
  pose proof (Nat.div_mod_eq (6 * n + 5) 10) as H.
  pose proof (Nat.mod_upper_bound (6 * n + 5) 10). lia.
Qed.

Section Yields.
Context {G : Type}.

Lemma yields_ret {A} (a : A) : yields (G := G) (ret a) (Ok a) [].
Proof. intros [s g o]. unfold ret. cbn. now rewrite app_nil_r. Qed.

Lemma yields_emit (e : Event) : yields (G := G) (emit e) (Ok tt) [e].
Proof. intros w. reflexivity. Qed.

Lemma yields_call {A} (e : Event) (r : Result A) : yields (G := G) (call e r) r [e].
Proof. intros w. unfold call, bind, emit, lift. reflexivity. Qed.

Lemma yields_bind_ok {A B} (c : M G A) (k : A -> M G B) (a : A) (r : Result B)
    (e1 e2 : list Event) :
  yields c (Ok a) e1 -> yields (k a) r e2 -> yields (bind c k) r (e1 ++ e2).
Proof.
  intros Hc Hk w. unfold bind. rewrite Hc, Hk. cbn. now rewrite app_assoc.
Qed.

Lemma yields_bind_raise {A B} (c : M G A) (k : A -> M G B) (e : Exn)
    (e1 : list Event) :
  yields c (Raise e) e1 -> yields (bind c k) (Raise e) e1.
Proof. intros Hc w. unfold bind. now rewrite Hc. Qed.

Lemma yields_mmap {A B} (f : A -> M G B) (g : A -> B) (ev : A -> list Event)
    (l : list A) :
  (forall x, yields (f x) (Ok (g x)) (ev x)) ->
  yields (mmap f l) (Ok (map g l)) (flat_map ev l).
Proof.
  intros Hf. induction l as [|x l IH]; cbn [mmap map flat_map].
  - apply yields_ret.
  - eapply yields_bind_ok; [apply Hf|].
    rewrite <- (app_nil_r (flat_map ev l)).
    eapply yields_bind_ok; [apply IH|apply yields_ret].
Qed.

End Yields.

Lemma bootr_none {G} (lib : Library G) (forms : list loc) (a b : nat) (n_iterations : Z) :
  (n_iterations < 1)%Z ->
  yields (CorrelationHeatmaps.bootr lib forms a b n_iterations) (Ok []) [].
Proof.
  intros Hn. unfold CorrelationHeatmaps.bootr, range.
  replace (Z.to_nat n_iterations) with 0 by lia. apply yields_ret.
Qed.

Lemma report_returns {G} (lib : Library G) (a b : nat) (lo mu hi : cell) :
  percentile lib [] 2.5 = Ok lo -> mean lib [] = Ok mu ->
  percentile lib [] 97.5 = Ok hi ->
  yields (CorrelationHeatmaps.report lib a b []) (Ok tt) (report_events a b lo mu hi).
Proof.
  intros H1 H2 H3. unfold CorrelationHeatmaps.report. rewrite H1, H2, H3.
  apply (yields_bind_ok _ _ lo _ [_] _); [apply yields_call|].
  apply (yields_bind_ok _ _ mu _ [_] _); [apply yields_call|].
  apply (yields_bind_ok _ _ hi _ [_] [_]); [apply yields_call|].
  apply yields_emit.
Qed.

Lemma report_raises {G} (lib : Library G) (a b : nat) :
  (exists e, percentile lib [] 2.5 = Raise e) \/ (exists e, mean lib [] = Raise e)
  \/ (exists e, percentile lib [] 97.5 = Raise e) ->
  exists e evs, yields (CorrelationHeatmaps.report lib a b []) (Raise e)
                       (CallPercentile [] 2.5 :: evs).
Proof.
  intros H. unfold CorrelationHeatmaps.report.
  destruct (percentile lib [] 2.5) as [lo|e1] eqn:H1.
  - destruct (mean lib []) as [mu|e2] eqn:H2.
    + destruct (percentile lib [] 97.5) as [hi|e3] eqn:H3.
      * destruct H as [[e H]|[[e H]|[e H]]]; discriminate.
      * exists e3, [CallMean []; CallPercentile [] 97.5].
        apply (yields_bind_ok _ _ lo _ [_] _); [apply yields_call|].
        apply (yields_bind_ok _ _ mu _ [_] [_]); [apply yields_call|].
        apply yields_bind_raise, yields_call.
    + exists e2, [CallMean []].
      apply (yields_bind_ok _ _ lo _ [_] [_]); [apply yields_call|].
      apply yields_bind_raise, yields_call.
  - exists e1, []. apply yields_bind_raise, yields_call.
Qed.

Lemma run_bootstrap_analysis_returns {G} (lib : Library G) (forms : list loc)
    (n_iterations : Z) (lo mu hi : cell) :
  (n_iterations < 1)%Z ->
  percentile lib [] 2.5 = Ok lo -> mean lib [] = Ok mu ->
  percentile lib [] 97.5 = Ok hi ->
  yields (CorrelationHeatmaps.run_bootstrap_analysis lib forms n_iterations) (Ok tt)
         ([Print "#6 - Bootstrap Analysis";
           Print "Format pairs: CI 2.5%, Mean, CI 97.5%"]
          ++ flat_map (fun a => flat_map (pair_events lo mu hi a) (seq a (4 - a)))
                      (seq 0 4)).
Proof.
  intros Hn H1 H2 H3. unfold CorrelationHeatmaps.run_bootstrap_analysis.
  apply (yields_bind_ok _ _ tt _ [_] _); [apply yields_emit|].
  apply (yields_bind_ok _ _ tt _ [_] _); [apply yields_emit|].
  rewrite <- (app_nil_r (flat_map _ _)).
  eapply yields_bind_ok; [|apply yields_ret].
  apply (yields_mmap _ (fun a => map (fun _ => tt) (seq a (4 - a)))). intros a.
  apply (yields_mmap _ (fun _ => tt)). intros b. unfold pair_events.
  apply (yields_bind_ok _ _ [] _ [] (_ ++ _)); [now apply bootr_none|].
  eapply yields_bind_ok; [now apply report_returns|].
  apply (yields_bind_ok _ _ [] _ [] (_ ++ _)); [now apply bootr_none|].
  eapply yields_bind_ok; [now apply report_returns|].
  apply yields_emit.
Qed.

Lemma run_bootstrap_analysis_raises {G} (lib : Library G) (forms : list loc)
    (n_iterations : Z) :
  (n_iterations < 1)%Z ->
  (exists e, percentile lib [] 2.5 = Raise e) \/ (exists e, mean lib [] = Raise e)
  \/ (exists e, percentile lib [] 97.5 = Raise e) ->
  exists e evs,
    yields (CorrelationHeatmaps.run_bootstrap_analysis lib forms n_iterations) (Raise e)
           ([Print "#6 - Bootstrap Analysis";
             Print "Format pairs: CI 2.5%, Mean, CI 97.5%";
             CallPercentile [] 2.5] ++ evs).
Proof.
  intros Hn H. destruct (report_raises lib 0 0 H) as (e & evs & Hr).
  exists e, evs. unfold CorrelationHeatmaps.run_bootstrap_analysis.
  apply (yields_bind_ok _ _ tt _ [_] (_ :: _ :: _)); [apply yields_emit|].
  apply (yields_bind_ok _ _ tt _ [_] (_ :: _)); [apply yields_emit|].
  apply yields_bind_raise. cbn [seq mmap Nat.sub].
  apply yields_bind_raise. cbn [seq mmap Nat.sub].
  apply yields_bind_raise.
  apply (yields_bind_ok _ _ [] _ [] (_ :: _)); [now apply bootr_none|].
  apply yields_bind_raise. exact Hr.
Qed.

(** C7, as the code has it.  The factor count and the resample fraction
    are constants of the code (3, and 0.6 of the rows rounded to the
    nearest integer), not values a caller passes, and the iteration
    count is used as it comes.  For every iteration count below 1,
    [run_bootstrap_analysis] raises nothing of its own: it prints its two
    header lines, draws no resample (the generator and the store stay as
    they were) and asks for the 2.5th percentile of an empty list of
    samples; when the percentile and mean routines return on the empty
    list, the run goes through all ten pairs and returns normally. *)
Theorem run_bootstrap_analysis_unvalidated {G} (lib : Library G) (w : World G)
    (forms : list loc) (n_iterations : Z) :
  (n_iterations < 1)%Z ->
  n_factors FactorAnalysis.fa_config = 3
  /\ (forall n, 10 * sample_size n <= 6 * n + 5 < 10 * sample_size n + 10)
  /\ store (snd (CorrelationHeatmaps.run_bootstrap_analysis lib forms n_iterations w))
     = store w
  /\ rng (snd (CorrelationHeatmaps.run_bootstrap_analysis lib forms n_iterations w))
     = rng w
  /\ begins (out w ++ [Print "#6 - Bootstrap Analysis";
                       Print "Format pairs: CI 2.5%, Mean, CI 97.5%";
                       CallPercentile [] 2.5])
            (out (snd (CorrelationHeatmaps.run_bootstrap_analysis lib forms
                         n_iterations w)))
  /\ (forall lo mu hi,
        percentile lib [] 2.5 = Ok lo -> mean lib [] = Ok mu ->
        percentile lib [] 97.5 = Ok hi ->
        fst (CorrelationHeatmaps.run_bootstrap_analysis lib forms n_iterations w) = Ok tt).
Proof.
  intros Hn. split; [reflexivity|]. split; [exact sample_size_nearest|].
  destruct (percentile lib [] 2.5) as [lo|e1] eqn:H1;
    [destruct (mean lib []) as [mu|e2] eqn:H2;
       [destruct (percentile lib [] 97.5) as [hi|e3] eqn:H3|]|].
  - rewrite (run_bootstrap_analysis_returns lib forms n_iterations lo mu hi Hn H1 H2 H3 w).
    cbn [fst snd store rng out]. repeat split.
    eexists. rewrite <- app_assoc. reflexivity.
  - destruct (run_bootstrap_analysis_raises lib forms n_iterations Hn) as (e & evs & Hr).
    { right. right. eauto. }
    rewrite (Hr w). cbn [fst snd store rng out]. repeat split.
    + exists evs. now rewrite <- app_assoc.
    + intros lo' mu' hi' _ _ [=].
  - destruct (run_bootstrap_analysis_raises lib forms n_iterations Hn) as (e & evs & Hr).
    { right. left. eauto. }
    rewrite (Hr w). cbn [fst snd store rng out]. repeat split.
    + exists evs. now rewrite <- app_assoc.
    + intros lo' mu' hi' _ [=].
  - destruct (run_bootstrap_analysis_raises lib forms n_iterations Hn) as (e & evs & Hr).
    { left. eauto. }
    rewrite (Hr w). cbn [fst snd store rng out]. repeat split.
    + exists evs. now rewrite <- app_assoc.
    + intros lo' mu' hi' [=].
Qed.

Lemma run_bootstrap_analysis_unvalidated_witness :
  fst (CorrelationHeatmaps.run_bootstrap_analysis (Demo.returning Demo.four_groups)
         [0; 0; 0; 0] (-5) (mkWorld [Demo.four_groups] 0 []))
  = Ok tt.
Proof.
  refine (proj2 (proj2 (proj2 (proj2 (proj2
            (run_bootstrap_analysis_unvalidated (Demo.returning Demo.four_groups)
               (mkWorld [Demo.four_groups] 0 []) [0; 0; 0; 0] (-5) _)))))
            NaN NaN NaN eq_refl eq_refl eq_refl).
  lia.
Defined.

(** C7 as stated fails: called with 0 iterations, a value the
    specification calls invalid, [run_bootstrap_analysis] is not stopped
    by a validation.  With routines that return on an empty list it prints the statistics
    of all ten pairs, twice each, and returns normally; with routines
    that raise, the exception is theirs and comes after the header lines
    were printed and the percentile routine was called. *)
Lemma run_bootstrap_analysis_counterexample :
  (let r := CorrelationHeatmaps.run_bootstrap_analysis (Demo.returning Demo.four_groups)
              [0; 0; 0; 0] 0 (mkWorld [Demo.four_groups] 0 []) in
   fst r = Ok tt
   /\ length (List.filter (fun e => match e with PrintStats _ _ => true | _ => false end)
                          (out (snd r))) = 20)
  /\ (let r := CorrelationHeatmaps.run_bootstrap_analysis (Demo.raising Demo.four_groups)
                 [0; 0; 0; 0] 0 (mkWorld [Demo.four_groups] 0 []) in
      fst r = Raise (LibraryError "percentile")
      /\ out (snd r) = [Print "#6 - Bootstrap Analysis";
                        Print "Format pairs: CI 2.5%, Mean, CI 97.5%";
                        CallPercentile [] 2.5]).
Proof. vm_compute. repeat split; reflexivity. Qed.

(** ** What a run leaves alone: objects, the generator, the exported files *)

Create HintDb steady.

Section Steady.
Context {G : Type} (lib : Library G) (n0 : nat).

Local Abbreviation st := (steady (G := G) n0).
Local Abbreviation fresh := (fresh_from n0).

Lemma steady_refl (w : World G) : steady_from n0 w w.
Proof. split; [reflexivity|split; [reflexivity|apply emits_refl]]. Qed.

Lemma steady_trans (w1 w2 w3 : World G) :
  steady_from n0 w1 w2 -> steady_from n0 w2 w3 -> steady_from n0 w1 w3.
Proof.
  intros (K1 & R1 & E1) (K2 & R2 & E2). split; [|split].
  - exact (keeps_trans n0 _ _ _ K1 K2).
  - congruence.
  - exact (emits_trans settled _ _ _ E1 E2).
Qed.

Lemma steady_bind {A B} (c : M G A) (k : A -> M G B) (Q : A -> Prop) (Q' : B -> Prop) :
  st c Q -> (forall a, Q a -> st (k a) Q') -> st (bind c k) Q'.
Proof. apply triple_bind. exact steady_trans. Qed.

Lemma steady_ret {A} (a : A) (Q : A -> Prop) : Q a -> st (ret a) Q.
Proof. apply triple_ret. exact steady_refl. Qed.

Lemma steady_lift {A} (r : Result A) : st (lift r) (fun _ => True).
Proof. apply triple_lift. exact steady_refl. Qed.

Lemma steady_raise {A} (e : Exn) (Q : A -> Prop) : st (lift (Raise e)) Q.
Proof.
  intros w HI. simpl. split; [exact HI|]. split; [apply steady_refl|discriminate].
Qed.

Lemma steady_any {A} (c : M G A) (Q : A -> Prop) : st c Q -> st c (fun _ => True).
Proof. intros H. eapply triple_weaken; [exact H|auto]. Qed.

Lemma steady_emit (e : Event) : settled e = true -> st (emit e) (fun _ => True).
Proof.
  intros He w HI. simpl. split; [exact HI|]. split; [|auto].
  split; [reflexivity|]. split; [reflexivity|].
  exists [e]. simpl. now rewrite He.
Qed.

Lemma steady_call {A} (e : Event) (r : Result A) :
  settled e = true -> st (call e r) (fun _ => True).
Proof.
  intros He. unfold call. eapply steady_bind; [now apply steady_emit|].
  intros _ _. apply steady_lift.
Qed.

Lemma steady_alloc (df : DataFrame) : st (alloc df) fresh.
Proof.
  intros w HI. destruct (frame_alloc n0 df w HI) as (H1 & H2 & H3).
  split; [exact H1|]. split; [|exact H3].
  split; [exact H2|]. split; [reflexivity|].
  exists []. simpl. now rewrite app_nil_r.
Qed.

Lemma steady_deref (l : loc) : st (deref l) (fun _ => True).
Proof.
  intros w HI. unfold deref.
  destruct (store w !! l); simpl; (split; [exact HI|split; [apply steady_refl|auto]]).
Qed.

Lemma steady_assign (l : loc) (df : DataFrame) :
  fresh l -> st (assign l df) (fun _ => True).
Proof.
  intros Hl w HI. destruct (frame_assign n0 l df Hl w HI) as (H1 & H2 & H3).
  split; [exact H1|]. split; [|exact H3].
  split; [exact H2|]. split; [reflexivity|].
  exists []. simpl. now rewrite app_nil_r.
Qed.

Lemma steady_list_get {A} (xs : list A) (i : nat) : st (list_get xs i) (fun _ => True).
Proof.
  apply triple_list_get; [exact steady_refl|]. apply Forall_forall. auto.
Qed.

Lemma steady_mmap {A B} (f : A -> M G B) (P : A -> Prop) (Q : B -> Prop) (l : list A) :
  (forall a, P a -> st (f a) Q) -> Forall P l -> st (mmap f l) (Forall Q).
Proof. apply triple_mmap; [exact steady_refl|exact steady_trans]. Qed.

Lemma steady_mmap_any {A B} (f : A -> M G B) (l : list A) :
  (forall a, st (f a) (fun _ => True)) -> st (mmap f l) (fun _ => True).
Proof.
  intros Hf. eapply steady_any. apply (steady_mmap f (fun _ => True) (fun _ => True)).
  - intros a _. apply Hf.
  - apply Forall_forall. auto.
Qed.

Lemma steady_if {A} (b : bool) (c1 c2 : M G A) (Q : A -> Prop) :
  st c1 Q -> st c2 Q -> st (if b then c1 else c2) Q.
Proof. now destruct b. Qed.

Ltac steady_head :=
  first [ apply steady_emit; reflexivity | apply steady_call; reflexivity
        | apply steady_alloc | apply steady_deref | apply steady_lift
        | apply steady_list_get
        | apply steady_assign; assumption
        | solve [eauto with steady]
        | eapply steady_any; solve [eauto with steady] ].

Ltac steady_chain :=
  repeat lazymatch goal with
    | |- steady _ (bind (mmap _ _) _) _ =>
        eapply steady_bind; [apply steady_mmap_any; intros | intros]
    | |- steady _ (bind _ _) _ => eapply steady_bind; [steady_head | intros]
    | |- steady _ (if _ then _ else _) _ => apply steady_if
    | |- steady _ (ret _) _ => apply steady_ret; auto
    | |- steady _ (mmap _ _) _ => apply steady_mmap_any; intros
    | |- steady _ _ _ => steady_head
    end.

Lemma steady_df_len_of l : st (df_len_of l) (fun _ => True).
Proof. unfold df_len_of. steady_chain. Qed.

Lemma steady_df_copy l : st (df_copy l) fresh.
Proof. unfold df_copy. steady_chain. Qed.

Lemma steady_df_getitem_cols l cols : st (df_getitem_cols l cols) fresh.
Proof. unfold df_getitem_cols. steady_chain. Qed.

Lemma steady_df_getitem_col l c : st (df_getitem_col l c) (fun _ => True).
Proof. unfold df_getitem_col. steady_chain. Qed.

Lemma steady_df_getitem_mask l mask : st (df_getitem_mask l mask) fresh.
Proof. unfold df_getitem_mask. steady_chain. Qed.

Lemma steady_df_drop_inplace l cols :
  fresh l -> st (df_drop_inplace l cols) (fun _ => True).
Proof. intros Hl. unfold df_drop_inplace. steady_chain. Qed.

Lemma steady_df_dropna l : st (df_dropna l) fresh.
Proof. unfold df_dropna. steady_chain. Qed.

Lemma steady_df_corr l how : st (df_corr lib l how) fresh.
Proof. unfold df_corr. steady_chain. Qed.

#[local] Hint Resolve steady_df_len_of steady_df_copy steady_df_getitem_cols
  steady_df_getitem_col steady_df_getitem_mask steady_df_drop_inplace
  steady_df_dropna steady_df_corr : steady.

Lemma steady_filter_data_fa matrix : st (FactorAnalysis.filter_data matrix) fresh.
Proof. unfold FactorAnalysis.filter_data. steady_chain. Qed.

Lemma steady_filter_data_ch matrix : st (CorrelationHeatmaps.filter_data matrix) fresh.
Proof. unfold CorrelationHeatmaps.filter_data. steady_chain. Qed.

Lemma steady_condition grid f cmp h :
  st (FactorAnalysis.condition grid f cmp h) (fun _ => True).
Proof. unfold FactorAnalysis.condition. steady_chain. Qed.

Lemma steady_form grid f cmp h : st (CorrelationHeatmaps.form grid f cmp h) fresh.
Proof. unfold CorrelationHeatmaps.form. steady_chain. Qed.

#[local] Hint Resolve steady_filter_data_fa steady_filter_data_ch steady_condition
  steady_form : steady.

Lemma steady_prepare_format_groups_fa matrix :
  st (FactorAnalysis.prepare_format_groups matrix) (fun _ => True).
Proof. unfold FactorAnalysis.prepare_format_groups. steady_chain. Qed.

Lemma steady_prepare_format_groups_ch matrix :
  st (CorrelationHeatmaps.prepare_format_groups matrix) (fun _ => True).
Proof.
  unfold CorrelationHeatmaps.prepare_format_groups.
  do 5 (eapply steady_bind; [steady_head | intros]).
  eapply steady_bind.
  - apply (steady_mmap _ fresh (fun _ => True)).
    + intros f Hf. steady_chain.
    + repeat constructor; assumption.
  - intros _ _. now apply steady_ret.
Qed.

Lemma steady_get_upper_triangle o :
  st (CorrelationHeatmaps.get_upper_triangle o) (fun _ => True).
Proof. destruct o; simpl; steady_chain. Qed.

Lemma steady_perform_adequacy_tests matrix :
  st (FactorAnalysis.perform_adequacy_tests lib matrix) (fun _ => True).
Proof. unfold FactorAnalysis.perform_adequacy_tests. steady_chain. Qed.

Lemma steady_perform_factor_analysis groups :
  st (FactorAnalysis.perform_factor_analysis lib groups) (fun _ => True).
Proof. unfold FactorAnalysis.perform_factor_analysis. steady_chain. Qed.

Lemma steady_create_scree_plot eigenvalues groups :
  st (FactorAnalysis.create_scree_plot eigenvalues groups) (fun _ => True).
Proof. unfold FactorAnalysis.create_scree_plot. steady_chain. Qed.

Lemma steady_create_loadings_heatmaps loadings :
  st (FactorAnalysis.create_loadings_heatmaps loadings) (fun _ => True).
Proof. unfold FactorAnalysis.create_loadings_heatmaps. steady_chain. Qed.

(** The export is reached only past the shape check. *)
Lemma steady_save_loadings_to_csv loadings i :
  i < NUM_GROUPS -> st (FactorAnalysis.save_loadings_to_csv loadings i) (fun _ => True).
Proof.
  intros Hi. unfold FactorAnalysis.save_loadings_to_csv.
  eapply steady_bind; [apply steady_emit; reflexivity|]. intros _ _.
  destruct (has_shape loadings (length QUESTION_COLS) NUM_FACTORS) eqn:Hshape.
  - eapply steady_bind; [apply (steady_ret tt (fun _ => True)); exact I|]. intros _ _.
    eapply steady_bind; [|intros; steady_chain].
    apply steady_emit. unfold settled, exports_well, is_draw.
    apply Nat.ltb_lt in Hi. now rewrite Hshape, Hi.
  - eapply steady_bind; [apply (steady_raise _ (fun _ => False))|]. intros _ [].
Qed.

Lemma steady_print_summary chi_square p_value kmo_model eigenvalues :
  st (FactorAnalysis.print_summary chi_square p_value kmo_model eigenvalues)
     (fun _ => True).
Proof. unfold FactorAnalysis.print_summary. steady_chain. Qed.

#[local] Hint Resolve steady_prepare_format_groups_fa steady_prepare_format_groups_ch
  steady_get_upper_triangle steady_perform_adequacy_tests
  steady_perform_factor_analysis steady_create_scree_plot
  steady_create_loadings_heatmaps steady_print_summary : steady.

Lemma steady_factor_stage adequacy groups :
  st (FactorAnalysis.factor_stage lib adequacy groups) (fun _ => True).
Proof.
  unfold FactorAnalysis.factor_stage.
  repeat first
    [ eapply steady_bind;
      [first [ apply steady_save_loadings_to_csv; unfold NUM_GROUPS; lia
             | steady_head ]
      | intros ] ].
  steady_chain.
Qed.

Lemma steady_analyses filtered_matrix groups :
  st (FactorAnalysis.analyses lib filtered_matrix groups) (fun _ => True).
Proof.
  unfold FactorAnalysis.analyses.
  eapply steady_bind; [apply steady_perform_adequacy_tests|].
  intros adequacy _. apply steady_factor_stage.
Qed.

#[local] Hint Resolve steady_analyses : steady.

Lemma steady_main_fa : st (FactorAnalysis.main lib) (fun _ => True).
Proof. unfold FactorAnalysis.main. steady_chain. Qed.

Lemma steady_calculate_correlations forms :
  st (CorrelationHeatmapsMain.calculate_correlations lib forms) (fun _ => True).
Proof. unfold CorrelationHeatmapsMain.calculate_correlations. steady_chain. Qed.

Lemma steady_plot_individual_heatmaps correlations m2 m4 :
  st (CorrelationHeatmapsMain.plot_individual_heatmaps correlations m2 m4)
     (fun _ => True).
Proof. unfold CorrelationHeatmapsMain.plot_individual_heatmaps. steady_chain. Qed.

#[local] Hint Resolve steady_calculate_correlations steady_plot_individual_heatmaps
  : steady.

Lemma steady_main_ch : st (CorrelationHeatmapsMain.main lib) (fun _ => True).
Proof. unfold CorrelationHeatmapsMain.main. steady_chain. Qed.

End Steady.

Lemma frame_mmap_any {G A B} (n0 : nat) (f : A -> M G B) (l : list A) :
  (forall a, frame_from n0 (f a) (fun _ => True)) ->
  frame_from n0 (mmap f l) (fun _ => True).
Proof.
  intros Hf. eapply frame_any.
  apply (frame_mmap n0 f (fun _ => True) (fun _ => True)).
  - intros a _. apply Hf.
  - apply Forall_forall. auto.
Qed.

Lemma frame_bootr {G} (lib : Library G) (n0 : nat) forms a b n :
  frame_from n0 (CorrelationHeatmaps.bootr lib forms a b n) (fun _ => True).
Proof.
  unfold CorrelationHeatmaps.bootr. apply frame_mmap_any. intros _.
  eapply frame_bind; [apply frame_list_get_any|]. intros fa _.
  eapply frame_bind; [apply frame_list_get_any|]. intros fb _.
  apply frame_bootstrap_correlation.
Qed.

Lemma frame_report {G} (lib : Library G) (n0 : nat) a b samples :
  frame_from n0 (CorrelationHeatmaps.report lib a b samples) (fun _ => True).
Proof.
  unfold CorrelationHeatmaps.report.
  repeat (eapply frame_bind; [apply frame_call | intros]). apply frame_emit.
Qed.

Lemma frame_run_bootstrap_analysis {G} (lib : Library G) (n0 : nat) forms n :
  frame_from n0 (CorrelationHeatmaps.run_bootstrap_analysis lib forms n) (fun _ => True).
Proof.
  unfold CorrelationHeatmaps.run_bootstrap_analysis.
  eapply frame_bind; [apply frame_emit|intros _ _].
  eapply frame_bind; [apply frame_emit|intros _ _].
  eapply frame_bind; [|intros; apply frame_ret; exact I].
  apply frame_mmap_any. intros a. apply frame_mmap_any. intros b.
  eapply frame_bind; [apply frame_bootr|intros first _].
  eapply frame_bind; [apply frame_report|intros _ _].
  eapply frame_bind; [apply frame_bootr|intros second _].
  eapply frame_bind; [apply frame_report|intros _ _].
  apply frame_emit.
Qed.

Lemma added_app {G} (w w' : World G) (evs : list Event) :
  out w' = out w ++ evs -> added w w' = evs.
Proof. intros H. unfold added. rewrite H. apply drop_app_length. Qed.

Lemma steady_run {G A} (c : M G A) (Q : A -> Prop) (w : World G) :
  steady (length (store w)) c Q ->
  unchanged w (snd (c w))
  /\ rng (snd (c w)) = rng w
  /\ Forall (fun e => settled e = true) (added w (snd (c w)))
  /\ forall a, fst (c w) = Ok a -> Q a.
Proof.
  intros H. destruct (H w) as (_ & (Hk & Hr & evs & Hout & Hall) & HQ);
    [unfold allocated_from; lia|].
  split; [|split; [exact Hr|split; [|exact HQ]]].
  - intros l df Hl. unfold keeps_from in Hk.
    rewrite firstn_all in Hk. rewrite <- Hl, <- Hk.
    symmetry. apply lookup_take_lt. eapply lookup_lt_Some. exact Hl.
  - rewrite (added_app _ _ _ Hout). apply Forall_forall. intros e He.
    rewrite forallb_forall in Hall. apply Hall. now apply list_elem_of_In.
Qed.

Lemma steady_draws_nothing {G A} (c : M G A) (Q : A -> Prop) (w : World G) :
  steady (length (store w)) c Q -> draws_nothing c w.
Proof.
  intros H. destruct (steady_run c Q w H) as (_ & Hr & Hall & _).
  split; [exact Hr|]. eapply Forall_impl; [exact Hall|].
  intros e He. unfold settled in He. apply andb_prop in He.
  now destruct (is_draw e), He.
Qed.

Lemma has_shape_true (a : ndarray) (r c : nat) :
  has_shape a r c = true -> length a = r /\ Forall (fun row => length row = c) a.
Proof.
  unfold has_shape. intros H. apply andb_prop in H. destruct H as [Hr Hc].
  split; [now apply Nat.eqb_eq|].
  apply Forall_forall. intros row Hrow. rewrite forallb_forall in Hc.
  apply Nat.eqb_eq, Hc. now apply list_elem_of_In.
Qed.

(** X2. The remaining functions of the two modules change no object that
    existed before the call either: both [filter_data] (which return an
    object that did not exist before, even when every row passes),
    [calculate_correlations], [run_bootstrap_analysis] and the two [main]
    functions leave every object of the store with the columns, rows and
    values it had, whatever the libraries return. *)
Theorem callers_keep_objects {G} (lib : Library G) (w : World G) :
  (forall matrix,
      unchanged w (snd (FactorAnalysis.filter_data matrix w))
      /\ forall l, fst (FactorAnalysis.filter_data matrix w) = Ok l -> new_in w l)
  /\ (forall matrix,
      unchanged w (snd (CorrelationHeatmaps.filter_data matrix w))
      /\ forall l, fst (CorrelationHeatmaps.filter_data matrix w) = Ok l -> new_in w l)
  /\ (forall forms,
      unchanged w (snd (CorrelationHeatmapsMain.calculate_correlations lib forms w)))
  /\ (forall forms n_iterations,
      unchanged w (snd (CorrelationHeatmaps.run_bootstrap_analysis lib forms
                          n_iterations w)))
  /\ unchanged w (snd (FactorAnalysis.main lib w))
  /\ unchanged w (snd (CorrelationHeatmapsMain.main lib w)).
Proof.
  split; [|split; [|split; [|split; [|split]]]].
  - intros matrix.
    destruct (steady_run _ _ w (steady_filter_data_fa _ matrix)) as (H & _ & _ & HQ).
    split; [exact H|exact HQ].
  - intros matrix.
    destruct (steady_run _ _ w (steady_filter_data_ch _ matrix)) as (H & _ & _ & HQ).
    split; [exact H|exact HQ].
  - intros forms. exact (proj1 (steady_run _ _ w (steady_calculate_correlations lib _ forms))).
  - intros forms n.
    exact (proj1 (frame_unchanged _ _ w (frame_run_bootstrap_analysis lib _ forms n))).
  - exact (proj1 (steady_run _ _ w (steady_main_fa lib _))).
  - exact (proj1 (steady_run _ _ w (steady_main_ch lib _))).
Qed.

(** The model can tell a draw: one bootstrap step moves the generator. *)
Example bootstrap_correlation_draws :
  ~ draws_nothing
      (CorrelationHeatmaps.bootstrap_correlation (Demo.returning Demo.four_groups) 0 0)
      (mkWorld [partition_of Demo.four_groups 0] 0 []).
Proof. intros [H _]. vm_compute in H. discriminate. Qed.

(** X3. Only the bootstrap is random.  Whatever the libraries return,
    neither [main] function, nor filtering, partitioning, the adequacy
    tests and everything after them in [factor_analysis.main], nor the
    Spearman correlations ever ask numpy's global generator for
    anything: its state after the call is its state before, and no draw
    is among the calls made.  (The call of [run_bootstrap_analysis] in
    [correlation_heatmaps.main] is commented out.) *)
Theorem only_the_bootstrap_draws {G} (lib : Library G) (w : World G) :
  draws_nothing (FactorAnalysis.main lib) w
  /\ draws_nothing (CorrelationHeatmapsMain.main lib) w
  /\ (forall matrix, draws_nothing (FactorAnalysis.filter_data matrix) w)
  /\ (forall matrix, draws_nothing (CorrelationHeatmaps.filter_data matrix) w)
  /\ (forall matrix, draws_nothing (FactorAnalysis.prepare_format_groups matrix) w)
  /\ (forall matrix, draws_nothing (CorrelationHeatmaps.prepare_format_groups matrix) w)
  /\ (forall matrix groups, draws_nothing (FactorAnalysis.analyses lib matrix groups) w)
  /\ (forall forms,
      draws_nothing (CorrelationHeatmapsMain.calculate_correlations lib forms) w).
Proof.
  split; [|split; [|split; [|split; [|split; [|split; [|split]]]]]]; intros;
    eapply steady_draws_nothing.
  - apply steady_main_fa.
  - apply steady_main_ch.
  - apply steady_filter_data_fa.
  - apply steady_filter_data_ch.
  - apply steady_prepare_format_groups_fa.
  - apply steady_prepare_format_groups_ch.
  - apply steady_analyses.
  - apply steady_calculate_correlations.
Qed.

Lemma four_groups_exports :
  In (WriteCsv 0 (repeat (repeat (Num 0) 3) 12))
     (added Demo.empty_world
        (snd (FactorAnalysis.main (Demo.returning Demo.four_groups) Demo.empty_world))).
Proof. vm_compute. repeat (first [left; reflexivity | right]). Qed.

(** X4. Every loadings file [factor_analysis.main] writes holds a matrix
    of twelve rows (one per item) and three columns (one per factor),
    and is the file of one of the four groups: an export is reached only
    past the heatmap's and [np.insert]'s shape checks, whatever
    [FactorAnalyzer] returned. *)
Theorem main_exports_well_formed {G} (lib : Library G) (w : World G)
    (i : nat) (a : ndarray) :
  In (WriteCsv i a) (added w (snd (FactorAnalysis.main lib w))) ->
  i < NUM_GROUPS
  /\ length a = length QUESTION_COLS
  /\ Forall (fun row => length row = NUM_FACTORS) a.
Proof.
  intros Hin.
  destruct (steady_run _ _ w (steady_main_fa lib _)) as (_ & _ & Hall & _).
  rewrite Forall_forall in Hall.
  specialize (Hall _ (proj2 (list_elem_of_In _ _) Hin)).
  unfold settled in Hall. cbn [is_draw negb andb exports_well] in Hall.
  apply andb_prop in Hall. destruct Hall as [Hi Hs].
  split; [now apply Nat.ltb_lt|]. now apply has_shape_true.
Qed.

Lemma main_exports_well_formed_witness :
  In (WriteCsv 0 (repeat (repeat (Num 0) 3) 12))
     (added Demo.empty_world
        (snd (FactorAnalysis.main (Demo.returning Demo.four_groups) Demo.empty_world)))
  /\ 0 < NUM_GROUPS
  /\ length (repeat (repeat (Num 0) 3) 12) = length QUESTION_COLS
  /\ Forall (fun row => length row = NUM_FACTORS) (repeat (repeat (Num 0) 3) 12).
Proof.
  split; [exact four_groups_exports|].
  exact (main_exports_well_formed (Demo.returning Demo.four_groups) Demo.empty_world
           0 (repeat (repeat (Num 0) 3) 12) four_groups_exports).
Defined.

(** ** The factor analysis: which groups are fitted *)

Lemma perform_factor_analysis_loop {G} (lib : Library G) (groups : list loc) :
  FactorAnalysis.perform_factor_analysis lib groups
  = (emit (Print "Performing factor analysis...") ;;;
     fits <- mmap (fit_group lib) (enumerate groups) ;;
     ret (map loadings_ fits, map eigenvalues_ fits)).
Proof. reflexivity. Qed.

Lemma fit_group_run {G} (lib : Library G) (w : World G) (k : nat) (g : loc)
    (x : DataFrame) :
  store w !! g = Some x ->
  fit_group lib (k, g) w
  = match GROUP_LABELS !! k with
    | None => (Raise IndexError, w)
    | Some label =>
        let w1 := mkWorld (store w) (rng w)
                    (out w ++ [PrintCount label (S k);
                               CallFit FactorAnalysis.fa_config x]) in
        match fit lib FactorAnalysis.fa_config x with
        | Raise e => (Raise e, w1)
        | Ok f => (Ok f, mkWorld (store w) (rng w)
                           (out w1 ++ [PrintStats "Eigenvalues (first 3)"
                                         (take 3 (eigenvalues_ f))]))
        end
    end.
Proof.
  intros Hg. destruct w as [s r o]. cbn [store rng out] in *.
  unfold fit_group, list_get. cbn [fst snd].
  destruct (GROUP_LABELS !! k) as [label|]; [|reflexivity].
  unfold call, bind, ret, lift, emit, deref. cbn [store rng out]. rewrite Hg.
  destruct (fit lib FactorAnalysis.fa_config x) as [f|e]; cbn [store rng out];
    now rewrite <- ?app_assoc.
Qed.

Lemma bind_run {G A B} (c : M G A) (k : A -> M G B) (w : World G) :
  bind c k w = match c w with
               | (Ok a, w1) => k a w1
               | (Raise e, w1) => (Raise e, w1)
               end.
Proof. reflexivity. Qed.

Lemma begins_nil {A} (l : list A) : begins [] l.
Proof. now exists l. Qed.

Lemma begins_cons {A} (x : A) (p l : list A) : begins p l -> begins (x :: p) (x :: l).
Proof. intros [rest ->]. now exists rest. Qed.

Lemma fit_calls_cons_other (e : Event) (evs : list Event) :
  (forall cfg x, e <> CallFit cfg x) -> fit_calls (e :: evs) = fit_calls evs.
Proof. intros H. destruct e; try reflexivity. now destruct (H cfg x). Qed.

(** The loop from round [k] on, over groups that are objects of the
    store [s]. *)
Lemma fit_groups_run {G} (lib : Library G) (s : list DataFrame)
    (groups : list loc) (xs : list DataFrame) :
  Forall2 (fun g x => s !! g = Some x) groups xs ->
  forall (k : nat) (w : World G), store w = s ->
    let r := mmap (fit_group lib) (zip (seq k (length groups)) groups) w in
    exists evs,
      snd r = mkWorld s (rng w) (out w ++ evs)
      /\ begins (fit_calls evs) (take (NUM_GROUPS - k) xs)
      /\ (k < NUM_GROUPS -> groups <> [] -> fit_calls evs <> [])
      /\ forall fits, fst r = Ok fits ->
           length groups <= NUM_GROUPS - k
           /\ fit_calls evs = xs
           /\ Forall2 (fun x f => fit lib FactorAnalysis.fa_config x = Ok f) xs fits.
Proof.
  induction 1 as [|g x groups xs Hg Hrest IH]; intros k w Hs.
  - exists []. cbn. rewrite app_nil_r. split; [destruct w; cbn in *; now subst|].
    split; [apply begins_nil|]. split; [congruence|]. intros fits [= <-].
    split; [lia|split; [reflexivity|constructor]].
  - cbn [length seq zip zip_with mmap]. cbv zeta.
    rewrite (bind_run (fit_group lib (k, g))).
    rewrite (fit_group_run lib w k g x) by now rewrite Hs.
    destruct (GROUP_LABELS !! k) as [label|] eqn:Hlabel.
    + assert (Hk : k < NUM_GROUPS) by exact (lookup_lt_Some _ _ _ Hlabel).
      assert (Htake : forall l : list DataFrame,
                 take (NUM_GROUPS - k) (x :: l) = x :: take (NUM_GROUPS - S k) l).
      { intros l. replace (NUM_GROUPS - k) with (S (NUM_GROUPS - S k)) by lia.
        reflexivity. }
      cbv zeta. destruct (fit lib FactorAnalysis.fa_config x) as [f|e] eqn:Hfit;
        cbv beta iota.
      * match goal with
        | |- context [bind (mmap _ _) _ ?w2] =>
            destruct (IH (S k) w2 Hs) as (evs & Hsnd & Hbegins & _ & Hok)
        end.
        cbn [store rng out] in Hsnd. cbv zeta in Hsnd, Hok.
        exists ([PrintCount label (S k); CallFit FactorAnalysis.fa_config x;
                 PrintStats "Eigenvalues (first 3)" (take 3 (eigenvalues_ f))] ++ evs).
        rewrite bind_run.
        destruct (mmap (fit_group lib) (zip (seq (S k) (length groups)) groups) _)
          as [[fits|e] w3]; cbn [fst snd] in *; subst w3.
        -- split; [unfold ret; cbn; now rewrite <- !app_assoc|].
           split; [rewrite Htake; now apply begins_cons|].
           split; [discriminate|].
           intros fits' [= <-]. destruct (Hok fits eq_refl) as (Hlen & Hcalls & Hfits).
           split; [lia|]. split; [cbn; now rewrite Hcalls|]. now constructor.
        -- split; [cbn; now rewrite <- !app_assoc|].
           split; [rewrite Htake; now apply begins_cons|].
           split; discriminate.
      * exists [PrintCount label (S k); CallFit FactorAnalysis.fa_config x].
        cbn [fst snd]. split; [now rewrite Hs|].
        split; [rewrite Htake; apply begins_cons, begins_nil|]. split; discriminate.
    + exists []. cbn [fst snd]. rewrite app_nil_r.
      split; [destruct w; cbn in *; now subst|].
      split; [apply begins_nil|]. split; [|discriminate].
      intros Hk. apply lookup_ge_None_1 in Hlabel. cbn [length GROUP_LABELS] in Hlabel.
      unfold NUM_GROUPS in Hk. lia.
Qed.

(** X5. [perform_factor_analysis] fits the groups in order, one call of
    [FactorAnalyzer.fit] per group on the group's own matrix, and stops
    at the first group it cannot fit: the frames fitted are always the
    first so many of the first four groups.  It returns only if there
    are at most four groups and every fit returned, and then with the
    library's loadings and eigenvalues group by group; a fifth group
    finds no label ([GROUP_LABELS[4]]), so with more than four groups
    the call always ends in an exception and the fifth is never fitted. *)
Theorem perform_factor_analysis_in_order {G} (lib : Library G) (w : World G)
    (groups : list loc) (xs : list DataFrame) :
  Forall2 (fun g x => store w !! g = Some x) groups xs ->
  let r := FactorAnalysis.perform_factor_analysis lib groups w in
  begins (fit_calls (added w (snd r))) (take NUM_GROUPS xs)
  /\ (forall loadings eigenvalues, fst r = Ok (loadings, eigenvalues) ->
      length groups <= NUM_GROUPS
      /\ fit_calls (added w (snd r)) = xs
      /\ exists fits,
           Forall2 (fun x f => fit lib FactorAnalysis.fa_config x = Ok f) xs fits
           /\ loadings = map loadings_ fits
           /\ eigenvalues = map eigenvalues_ fits)
  /\ (NUM_GROUPS < length groups -> exists e, fst r = Raise e).
Proof.
  intros Hgroups r.
  assert (Hr : begins (fit_calls (added w (snd r))) (take NUM_GROUPS xs)
               /\ forall loadings eigenvalues, fst r = Ok (loadings, eigenvalues) ->
                    length groups <= NUM_GROUPS
                    /\ fit_calls (added w (snd r)) = xs
                    /\ exists fits,
                         Forall2 (fun x f => fit lib FactorAnalysis.fa_config x = Ok f)
                                 xs fits
                         /\ loadings = map loadings_ fits
                         /\ eigenvalues = map eigenvalues_ fits).
  { set (w1 := mkWorld (store w) (rng w)
                  (out w ++ [Print "Performing factor analysis..."])).
    assert (Hrun : r = match mmap (fit_group lib)
                               (zip (seq 0 (length groups)) groups) w1 with
                       | (Ok fits, w2) =>
                           (Ok (map loadings_ fits, map eigenvalues_ fits), w2)
                       | (Raise e, w2) => (Raise e, w2)
                       end) by reflexivity.
    clearbody r.
    destruct (fit_groups_run lib (store w) groups xs Hgroups 0 w1 eq_refl)
      as (evs & Hsnd & Hbegins & _ & Hok).
    cbn [store rng out w1] in Hsnd. cbv zeta in Hsnd, Hok.
    destruct (mmap (fit_group lib) (zip (seq 0 (length groups)) groups) w1)
      as [[fits|e] w2]; cbn [fst snd] in *; subst w2 r; cbn [fst snd];
      rewrite (added_app w _ (Print "Performing factor analysis..." :: evs))
        by (cbn; now rewrite <- app_assoc);
      (split; [exact Hbegins|]).
    - intros loadings eigenvalues [= <- <-].
      destruct (Hok fits eq_refl) as (Hlen & Hcalls & Hfits).
      split; [unfold NUM_GROUPS in *; lia|]. split; [exact Hcalls|].
      exists fits. now split.
    - discriminate. }
  destruct Hr as [Hbegins Hok]. split; [exact Hbegins|]. split; [exact Hok|].
  intros Hmany. destruct (fst r) as [[loadings eigenvalues]|e] eqn:Hfst.
  - destruct (Hok loadings eigenvalues eq_refl) as (Hlen & _). lia.
  - now exists e.
Qed.

Lemma perform_factor_analysis_in_order_witness :
  exists e,
    fst (FactorAnalysis.perform_factor_analysis (Demo.returning Demo.four_groups)
           [0; 0; 0; 0; 0] (mkWorld [partition_of Demo.four_groups 0] 0 []))
    = Raise e.
Proof.
  refine (proj2 (proj2 (perform_factor_analysis_in_order
                          (Demo.returning Demo.four_groups)
                          (mkWorld [partition_of Demo.four_groups 0] 0 [])
                          [0; 0; 0; 0; 0]
                          (repeat (partition_of Demo.four_groups 0) 5) _)) _).
  - repeat constructor.
  - unfold NUM_GROUPS. cbn [length]. lia.
Defined.

(** ** What the factor analysis forwards *)

Lemma fit_configs_length (evs : list Event) :
  length (fit_configs evs) = length (fit_calls evs).
Proof.
  induction evs as [|e evs IH]; [reflexivity|]. destruct e; simpl; congruence.
Qed.

Lemma configured_fit_configs (evs : list Event) :
  forallb is_configured evs = true ->
  Forall (fun cfg => cfg = mkFA "varimax" "principal" "drop" 3) (fit_configs evs).
Proof.
  induction evs as [|e evs IH]; intros H; [constructor|].
  cbn [forallb] in H. apply andb_prop in H. destruct H as [He H].
  destruct e; cbn [fit_configs]; auto.
  constructor; [|auto]. destruct cfg as [r m i n]. cbn in He.
  apply andb_prop in He. destruct He as [He Hn].
  apply andb_prop in He. destruct He as [He Hi].
  apply andb_prop in He. destruct He as [Hr Hm].
  apply String.eqb_eq in Hr, Hm, Hi. apply Nat.eqb_eq in Hn. now subst.
Qed.

Lemma Forall_eq_repeat {A} (c : A) (l : list A) :
  Forall (fun x => x = c) l -> l = repeat c (length l).
Proof. induction 1 as [|x l -> _ IH]; simpl; congruence. Qed.

Lemma configured_perform_factor_analysis {G} (lib : Library G) (groups : list loc) :
  traced_by is_configured (FactorAnalysis.perform_factor_analysis lib groups).
Proof.
  unfold FactorAnalysis.perform_factor_analysis.
  repeat first
    [ apply traced_bind; [|intros]
    | apply traced_ret | apply traced_lift | apply traced_deref
    | apply traced_list_get
    | apply traced_emit; reflexivity
    | apply traced_call; reflexivity
    | apply traced_mmap; intros ].
Qed.

(** When the loop returns, every group was fitted, and what is returned
    is what the library returned. *)
Lemma perform_factor_analysis_returns {G} (lib : Library G) (w : World G)
    (groups : list loc) (xs : list DataFrame) (fa : list ndarray * list (list cell)) :
  Forall2 (fun g x => store w !! g = Some x) groups xs ->
  let r := FactorAnalysis.perform_factor_analysis lib groups w in
  fst r = Ok fa ->
  fit_calls (added w (snd r)) = xs
  /\ exists fits,
       Forall2 (fun x f => fit lib FactorAnalysis.fa_config x = Ok f) xs fits
       /\ fa = (map loadings_ fits, map eigenvalues_ fits).
Proof.
  intros Hgroups r.
  set (w1 := mkWorld (store w) (rng w)
                (out w ++ [Print "Performing factor analysis..."])).
  assert (Hrun : r = match mmap (fit_group lib)
                             (zip (seq 0 (length groups)) groups) w1 with
                     | (Ok fits, w2) =>
                         (Ok (map loadings_ fits, map eigenvalues_ fits), w2)
                     | (Raise e, w2) => (Raise e, w2)
                     end) by reflexivity.
  clearbody r.
  destruct (fit_groups_run lib (store w) groups xs Hgroups 0 w1 eq_refl)
    as (evs & Hsnd & _ & _ & Hok).
  cbn [store rng out w1] in Hsnd. cbv zeta in Hsnd, Hok.
  destruct (mmap (fit_group lib) (zip (seq 0 (length groups)) groups) w1)
    as [[fits|e] w2]; cbn [fst snd] in *; subst w2 r; cbn [fst snd];
    [|discriminate].
  rewrite (added_app w _ (Print "Performing factor analysis..." :: evs))
    by (cbn; now rewrite <- app_assoc).
  intros [= <-]. destruct (Hok fits eq_refl) as (_ & Hcalls & Hfits).
  split; [exact Hcalls|]. exists fits. now split.
Qed.

(** X1. [perform_factor_analysis] builds every [FactorAnalyzer] with
    [rotation='varimax'], [method='principal'], [impute='drop'] and
    [n_factors=NUM_FACTORS], which is 3.  In every run, whatever the
    groups and however it ends, each call of [fit] is made with exactly
    these four arguments, one configuration per frame fitted.  When the
    groups are objects of the store and the run returns, there was one
    such call per group, on the group's own matrix in group order, and
    the loadings and eigenvalues returned are those the library gave for
    this configuration, group by group. *)
Theorem perform_factor_analysis_forwards {G} (lib : Library G) (w : World G)
    (groups : list loc) :
  let r := FactorAnalysis.perform_factor_analysis lib groups w in
  let configs := fit_configs (added w (snd r)) in
  Forall (fun cfg => rotation cfg = "varimax" /\ method cfg = "principal"
                     /\ impute cfg = "drop" /\ n_factors cfg = 3) configs
  /\ length configs = length (fit_calls (added w (snd r)))
  /\ forall xs loadings eigenvalues,
       Forall2 (fun g x => store w !! g = Some x) groups xs ->
       fst r = Ok (loadings, eigenvalues) ->
       configs = repeat (mkFA "varimax" "principal" "drop" 3) (length groups)
       /\ fit_calls (added w (snd r)) = xs
       /\ exists fits,
            Forall2 (fun x f => fit lib (mkFA "varimax" "principal" "drop" 3) x = Ok f)
                    xs fits
            /\ loadings = map loadings_ fits
            /\ eigenvalues = map eigenvalues_ fits.
Proof.
  intros r configs.
  assert (Hall : Forall (fun cfg => cfg = mkFA "varimax" "principal" "drop" 3) configs).
  { destruct (configured_perform_factor_analysis lib groups w I)
      as (_ & (evs & Hout & Hevs) & _).
    subst configs r. rewrite (added_app w _ evs Hout).
    now apply configured_fit_configs. }
  split; [|split].
  - eapply Forall_impl; [exact Hall|]. intros cfg ->. repeat split.
  - apply fit_configs_length.
  - intros xs loadings eigenvalues Hgroups Hok.
    destruct (perform_factor_analysis_returns lib w groups xs _ Hgroups Hok)
      as (Hcalls & fits & Hfits & Hfa).
    fold r in Hcalls. injection Hfa as -> ->.
    split; [|split; [exact Hcalls|exists fits; repeat split; exact Hfits]].
    rewrite (Forall_eq_repeat _ _ Hall). f_equal.
    subst configs. rewrite fit_configs_length, Hcalls.
    symmetry. exact (Forall2_length _ _ _ Hgroups).
Qed.

Lemma perform_factor_analysis_forwards_witness :
  fit_configs
    (added (mkWorld [partition_of Demo.four_groups 0; partition_of Demo.four_groups 1;
                     partition_of Demo.four_groups 2; partition_of Demo.four_groups 3]
                    0 [])
           (snd (FactorAnalysis.perform_factor_analysis (Demo.returning Demo.four_groups)
                   [0; 1; 2; 3]
                   (mkWorld [partition_of Demo.four_groups 0;
                             partition_of Demo.four_groups 1;
                             partition_of Demo.four_groups 2;
                             partition_of Demo.four_groups 3] 0 []))))
  = repeat (mkFA "varimax" "principal" "drop" 3) 4.
Proof.
  refine (proj1 (proj2 (proj2 (perform_factor_analysis_forwards
                                 (Demo.returning Demo.four_groups)
                                 (mkWorld [partition_of Demo.four_groups 0;
                                           partition_of Demo.four_groups 1;
                                           partition_of Demo.four_groups 2;
                                           partition_of Demo.four_groups 3] 0 [])
                                 [0; 1; 2; 3]))
                  [partition_of Demo.four_groups 0; partition_of Demo.four_groups 1;
                   partition_of Demo.four_groups 2; partition_of Demo.four_groups 3]
                  (repeat (repeat (repeat (Num 0) 3) 12) 4) (repeat (repeat (Num 1) 12) 4)
                  _ _)).
  - repeat constructor.
  - reflexivity.
Defined.

(** ** The upper triangle of an array that is not square *)

Lemma rmap_ext_in {A B} (f g : A -> Result B) (l : list A) :
  (forall x, In x l -> f x = g x) -> rmap f l = rmap g l.
Proof.
  induction l as [|x l IH]; intros H; [reflexivity|]. simpl.
  rewrite (H x (or_introl eq_refl)), IH; [reflexivity|].
  intros y Hy. apply H. now right.
Qed.

(** [rmap] stops at the first element that raises. *)
Lemma rmap_raises {A B} (f : A -> Result B) (l : list A) (e : Exn) :
  (forall x, In x l -> (exists b, f x = Ok b) \/ f x = Raise e) ->
  (exists x, In x l /\ f x = Raise e) ->
  rmap f l = Raise e.
Proof.
  induction l as [|x l IH]; intros Hall (y & Hy & Hfy); [destruct Hy|]. simpl.
  destruct (Hall x (or_introl eq_refl)) as [[b Hb]|Hx].
  - rewrite Hb. simpl. rewrite IH; [reflexivity| |].
    + intros z Hz. apply Hall. now right.
    + destruct Hy as [->|Hy]; [congruence|]. now exists y.
  - now rewrite Hx.
Qed.

Lemma array_get_leading (a : ndarray) (n i j : nat) :
  j < n -> array_get (leading n a) (i, j) = array_get a (i, j).
Proof.
  intros Hj. unfold array_get, leading. cbn [fst snd].
  revert i. induction a as [|row a IH]; intros [|i]; cbn [map lookup list_lookup];
    try reflexivity; [|apply IH].
  now rewrite lookup_take_lt.
Qed.

Lemma upper_triangle_leading (a : ndarray) :
  upper_triangle a = upper_triangle (leading (length a) a).
Proof.
  unfold upper_triangle. replace (length (leading (length a) a)) with (length a)
    by (unfold leading; now rewrite List.length_map).
  apply rmap_ext_in. intros [i j] Hij. apply in_triu_indices in Hij.
  symmetry. apply array_get_leading. lia.
Qed.

Lemma upper_triangle_narrow (a : ndarray) (c : nat) :
  Forall (fun row => length row = c) a -> c < length a -> 2 <= length a ->
  upper_triangle a = Raise IndexError.
Proof.
  intros Hrows Hc Hr. unfold upper_triangle. apply rmap_raises.
  - intros [i j] _. unfold array_get. cbn [fst snd].
    destruct (a !! i) as [row|]; [|now right].
    destruct (row !! j) as [x|]; [left; now exists x|now right].
  - exists (0, length a - 1). split; [apply in_triu_indices; lia|].
    unfold array_get. cbn [fst snd]. destruct a as [|row a]; [simpl in Hr; lia|].
    cbn [lookup list_lookup]. apply Forall_cons in Hrows. destruct Hrows as [Hrow _].
    rewrite (lookup_ge_None_2 row); [reflexivity|]. cbn [length] in *. lia.
Qed.

(** X6. On an array that is not square [get_upper_triangle] still runs
    [np.triu_indices] with the number of rows [r]: it reads only the
    leading [r] columns.  With at least as many columns as rows it
    returns the [r (r - 1) / 2] values above the diagonal of the leading
    square block, without complaint; with fewer columns than rows (and at
    least two rows) it raises [IndexError].  The world is left as it
    was. *)
Theorem get_upper_triangle_rectangular {G} (w : World G) (o : PyObj) (a : ndarray)
    (r c : nat) :
  as_array w o = Some a ->
  length a = r ->
  Forall (fun row => length row = c) a ->
  CorrelationHeatmaps.get_upper_triangle o w
  = CorrelationHeatmaps.get_upper_triangle (PyNdarray (leading r a)) w
  /\ (r <= c ->
      exists xs, CorrelationHeatmaps.get_upper_triangle o w = (Ok xs, w)
                 /\ length xs = r * (r - 1) / 2)
  /\ (c < r -> 2 <= r ->
      CorrelationHeatmaps.get_upper_triangle o w = (Raise IndexError, w)).
Proof.
  intros Ha Hr Hrows.
  assert (Hrun : CorrelationHeatmaps.get_upper_triangle o w = (upper_triangle a, w)).
  { destruct o; simpl in Ha; try discriminate.
    - now injection Ha as ->.
    - simpl. unfold bind, deref. destruct (store w !! l) as [d|]; [|discriminate].
      now injection Ha as <-. }
  rewrite Hrun. split; [|split].
  - simpl. unfold lift. now rewrite (upper_triangle_leading a), Hr.
  - intros Hle.
    destruct (upper_triangle_square (leading r a) r) as (xs & Hxs & Hlen & _).
    + unfold leading. now rewrite List.length_map.
    + unfold leading. apply Forall_forall. intros row Hrow.
      apply list_elem_of_In, List.in_map_iff in Hrow. destruct Hrow as (row' & <- & Hin).
      rewrite Forall_forall in Hrows.
      rewrite length_take, (Hrows row' (proj2 (list_elem_of_In _ _) Hin)). lia.
    + exists xs. rewrite (upper_triangle_leading a), Hr, Hxs. now split.
  - intros Hlt H2. subst r. now rewrite (upper_triangle_narrow a c).
Qed.

Lemma get_upper_triangle_rectangular_witness :
  (exists xs,
      CorrelationHeatmaps.get_upper_triangle
        (PyNdarray [[Num 1; Num 2; Num 3]; [Num 4; Num 5; Num 6]]) Demo.empty_world
      = (Ok xs, Demo.empty_world)
      /\ length xs = 2 * (2 - 1) / 2)
  /\ CorrelationHeatmaps.get_upper_triangle
       (PyNdarray [[Num 1]; [Num 2]; [Num 3]]) Demo.empty_world
     = (Raise IndexError, Demo.empty_world).
Proof.
  split.
  - refine (proj1 (proj2 (get_upper_triangle_rectangular Demo.empty_world
                            (PyNdarray [[Num 1; Num 2; Num 3]; [Num 4; Num 5; Num 6]])
                            [[Num 1; Num 2; Num 3]; [Num 4; Num 5; Num 6]] 2 3
                            eq_refl eq_refl _)) _).
    + repeat constructor.
    + lia.
  - refine (proj2 (proj2 (get_upper_triangle_rectangular Demo.empty_world
                            (PyNdarray [[Num 1]; [Num 2]; [Num 3]])
                            [[Num 1]; [Num 2]; [Num 3]] 3 1
                            eq_refl eq_refl _)) _ _).
    + repeat constructor.
    + lia.
    + lia.
Defined.

(** ** [filter_data]: what is kept, and what comes back when nothing is *)

Lemma filter_filter_and {A} (p q : A -> bool) (l : list A) :
  List.filter q (List.filter p l) = List.filter (fun x => p x && q x) l.
Proof.
  induction l as [|x l IH]; [reflexivity|]. simpl.
  destruct (p x); simpl; [destruct (q x)|]; now rewrite IH.
Qed.

Lemma filter_idem {A} (p : A -> bool) (l : list A) :
  List.filter p (List.filter p l) = List.filter p l.
Proof.
  rewrite filter_filter_and. apply List.filter_ext. intros x. now destruct (p x).
Qed.

Lemma filter_length_le {A} (p : A -> bool) (l : list A) :
  length (List.filter p l) <= length l.
Proof. induction l as [|x l IH]; simpl; [lia|]. destruct (p x); simpl; lia. Qed.

Lemma rows_filtered_of (df : DataFrame) :
  rows (filtered_of df) = List.filter (kept df) (rows df).
Proof. unfold filtered_of, students_of. cbn [rows]. apply filter_filter_and. Qed.

Lemma filtered_of_idem (df : DataFrame) : filtered_of (filtered_of df) = filtered_of df.
Proof.
  transitivity (mkDF (columns df) (rows (filtered_of (filtered_of df))));
    [reflexivity|].
  rewrite (rows_filtered_of (filtered_of df)).
  change (kept (filtered_of df)) with (kept df).
  rewrite rows_filtered_of, filter_idem, <- rows_filtered_of. reflexivity.
Qed.

Lemma df_empty_filtered_of (df : DataFrame) :
  has_columns df ["uloga"; "cesto"] ->
  df_empty (filtered_of df) = match rows (filtered_of df) with [] => true | _ => false end.
Proof.
  intros Hc. unfold df_empty. destruct (rows (filtered_of df)); [reflexivity|].
  cbn [filtered_of columns]. destruct (columns df) eqn:E; [|reflexivity].
  pose proof (Hc "uloga" (or_introl eq_refl)) as Hin. rewrite E in Hin. destruct Hin.
Qed.

Lemma kept_numbers (df : DataFrame) (r : Z * list cell) :
  kept df r = true
  <-> exists u c : Q, cell_of df r "uloga" = Num u /\ cell_of df r "cesto" = Num c
                      /\ (u == 2)%Q /\ (1 < c)%Q.
Proof.
  unfold kept. rewrite andb_true_iff. split.
  - intros [Hu Hc].
    destruct (cell_of df r "uloga") as [|u]; [discriminate|].
    destruct (cell_of df r "cesto") as [|c]; [discriminate|].
    exists u, c. repeat split; [now apply Qeq_bool_iff|].
    simpl in Hc. apply negb_true_iff in Hc. apply Qnot_le_lt. intros Hle.
    apply Qle_bool_iff in Hle. congruence.
  - intros (u & c & -> & -> & Hu & Hc). simpl. split; [now apply Qeq_bool_iff|].
    apply negb_true_iff. destruct (Qle_bool c 1) eqn:E; [|reflexivity].
    apply Qle_bool_iff in E. exfalso. exact (Qlt_not_le _ _ Hc E).
Qed.

Lemma ch_filter_data_run {G} (w : World G) (matrix : loc) (df : DataFrame) :
  store w !! matrix = Some df ->
  has_columns df ["uloga"; "cesto"] ->
  CorrelationHeatmaps.filter_data matrix w
  = (Ok (length (store w) + 1),
     mkWorld (store w ++ [students_of df; filtered_of df]) (rng w) (out w)).
Proof.
  intros Hm Hc. destruct w as [s g o]. cbn [store rng out] in *.
  pose proof (getitem_col_cell_of df "uloga" (Hc _ (or_introl eq_refl))) as Hu.
  pose proof (getitem_col_cell_of (students_of df) "cesto"
                (Hc _ (or_intror (or_introl eq_refl)))) as Hce.
  pose proof (getitem_mask_students df) as Hs.
  pose proof (getitem_mask_frequent df) as Hf.
  unfold STUDENT_ROLE_CODE, FREQUENT_VISITOR_THRESHOLD in Hs, Hf.
  unfold CorrelationHeatmaps.filter_data. run_unfold. run. reflexivity.
Qed.

(** What [factor_analysis.filter_data] returns and prints, as a function
    of the frame it is given. *)
Lemma fa_filter_data_result {G} (w : World G) (matrix : loc) (df : DataFrame) :
  store w !! matrix = Some df ->
  has_columns df ["uloga"; "cesto"] ->
  let r := FactorAnalysis.filter_data matrix w in
  let counts := [PrintCount "Initial records: " (df_len df);
                 PrintCount "Students only: " (df_len (students_of df));
                 PrintCount "Frequent visitors: " (df_len (filtered_of df))] in
  exists l, fst r = Ok l /\ rng (snd r) = rng w /\
    match rows (filtered_of df) with
    | [] => store (snd r) !! l = Some (mkDF [] [])
            /\ added w (snd r)
               = counts ++ [Print "Error: No data left after filtering."]
    | _ :: _ => store (snd r) !! l = Some (filtered_of df)
                /\ added w (snd r) = counts
    end.
Proof.
  intros Hm Hc r counts. subst r counts.
  rewrite (filter_data_run w matrix df Hm Hc), (df_empty_filtered_of df Hc).
  destruct (rows (filtered_of df)) as [|row rest] eqn:Hrows; cbn [fst snd store rng out];
    eexists; (split; [reflexivity|]); (split; [reflexivity|]); split.
  - rewrite lookup_ext. reflexivity.
  - now apply added_app.
  - rewrite lookup_ext. reflexivity.
  - now apply added_app.
Qed.

(** X7. Given a frame with the columns [uloga] and [cesto], both
    [filter_data] return a new object whose rows are exactly the rows of
    the input with [uloga == 2] and [cesto > 1], in the input's order and
    unchanged; a row whose role or frequency is missing is never kept.
    [factor_analysis.filter_data] prints the three counts, which never
    increase: all rows, the students, the students who visit often;
    [correlation_heatmaps.filter_data] prints nothing and keeps the
    input's columns; so does [factor_analysis.filter_data] unless no row
    is left, when the frame it returns has no column.  The column labels
    of the frame are distinct. *)
Theorem filter_data_selects {G} (w : World G) (matrix : loc) (df : DataFrame) :
  store w !! matrix = Some df ->
  List.NoDup (columns df) ->
  has_columns df ["uloga"; "cesto"] ->
  let students := List.filter (fun r => cell_eqb (cell_of df r "uloga") 2) (rows df) in
  let survivors := List.filter (kept df) (rows df) in
  let fa := FactorAnalysis.filter_data matrix w in
  let ch := CorrelationHeatmaps.filter_data matrix w in
  (exists l res, fst fa = Ok l /\ new_in w l /\ store (snd fa) !! l = Some res
                 /\ rows res = survivors
                 /\ columns res = match survivors with [] => [] | _ => columns df end
                 /\ begins [PrintCount "Initial records: " (length (rows df));
                            PrintCount "Students only: " (length students);
                            PrintCount "Frequent visitors: " (length survivors)]
                           (added w (snd fa)))
  /\ (exists l res, fst ch = Ok l /\ new_in w l /\ store (snd ch) !! l = Some res
                    /\ rows res = survivors /\ columns res = columns df
                    /\ added w (snd ch) = [])
  /\ length survivors <= length students <= length (rows df)
  /\ (forall r, In r survivors
                <-> In r (rows df)
                    /\ exists u c : Q, cell_of df r "uloga" = Num u
                                       /\ cell_of df r "cesto" = Num c
                                       /\ (u == 2)%Q /\ (1 < c)%Q).
Proof.
  intros Hm _ Hc students survivors fa ch.
  assert (Hsurv : rows (filtered_of df) = survivors) by apply rows_filtered_of.
  split; [|split; [|split; [split|]]].
  - destruct (fa_filter_data_result w matrix df Hm Hc) as (l & Hl & _ & Hres).
    fold fa in Hl, Hres.
    assert (Hnew : new_in w l).
    { destruct (steady_run _ _ w (steady_filter_data_fa _ matrix)) as (_ & _ & _ & HQ).
      exact (HQ l Hl). }
    unfold df_len in Hres. rewrite Hsurv in Hres. cbn [students_of rows] in Hres.
    fold students in Hres.
    destruct survivors as [|row rest] eqn:Hs; destruct Hres as [Hlook Hadd].
    + exists l, (mkDF [] []). repeat (split; [assumption || reflexivity|]).
      rewrite Hadd. now eexists.
    + exists l, (filtered_of df). repeat (split; [assumption || reflexivity|]).
      rewrite Hadd. exists []. now rewrite app_nil_r.
  - subst ch. rewrite (ch_filter_data_run w matrix df Hm Hc). cbn [fst snd store out].
    exists (length (store w) + 1), (filtered_of df).
    split; [reflexivity|]. split; [unfold new_in; lia|].
    split; [rewrite lookup_ext; reflexivity|]. split; [exact Hsurv|].
    split; [reflexivity|]. apply added_app. now rewrite app_nil_r.
  - subst survivors students. unfold kept. rewrite <- filter_filter_and.
    apply filter_length_le.
  - apply filter_length_le.
  - intros r. subst survivors. rewrite List.filter_In, kept_numbers. reflexivity.
Qed.

Lemma mixed_columns : has_columns Visitors.mixed CSV_COLS.
Proof. intros c Hc. exact Hc. Qed.

Ltac distinct_labels :=
  repeat (constructor;
          [cbn; intros H; repeat (destruct H as [H|H]; [discriminate|]); exact H|]);
  constructor.

Lemma CSV_COLS_NoDup : List.NoDup CSV_COLS.
Proof. unfold CSV_COLS. cbn. distinct_labels. Qed.

Lemma QUESTION_COLS_NoDup : List.NoDup QUESTION_COLS.
Proof. unfold QUESTION_COLS. distinct_labels. Qed.

Lemma eleven_items_NoDup : List.NoDup (columns Visitors.eleven_items).
Proof. cbn. distinct_labels. Qed.

Lemma filter_data_selects_witness :
  exists l res,
    fst (CorrelationHeatmaps.filter_data 0 (mkWorld [Visitors.mixed] 0 [])) = Ok l
    /\ new_in (mkWorld [Visitors.mixed] 0 []) l
    /\ store (snd (CorrelationHeatmaps.filter_data 0 (mkWorld [Visitors.mixed] 0 [])))
         !! l = Some res
    /\ rows res = [Demo.respondent 0 2 3 1 10 4]
    /\ columns res = CSV_COLS
    /\ added (mkWorld [Visitors.mixed] 0 [])
             (snd (CorrelationHeatmaps.filter_data 0 (mkWorld [Visitors.mixed] 0 [])))
       = [].
Proof.
  exact (proj1 (proj2 (filter_data_selects (mkWorld [Visitors.mixed] 0 []) 0
                         Visitors.mixed eq_refl CSV_COLS_NoDup
                         (has_columns_app_l _ _ _ mixed_columns)))).
Defined.

Lemma col_pos_missing (cs : list string) (c : string) :
  ~ In c cs -> col_pos cs c = None.
Proof.
  induction cs as [|c' cs IH]; intros Hc; [reflexivity|]. simpl.
  destruct (String.eqb c' c) eqn:E.
  - apply String.eqb_eq in E. destruct Hc. now left.
  - rewrite IH; [reflexivity|]. intros H. apply Hc. now right.
Qed.

Lemma getitem_col_missing (df : DataFrame) (c : string) :
  ~ In c (columns df) -> getitem_col df c = Raise (KeyError c).
Proof. intros Hc. unfold getitem_col. now rewrite col_pos_missing. Qed.

(** [df[cols]] and [df.drop(cols)] look the columns up in the listed
    order: the first one the frame lacks is the key of the error. *)
Lemma positions_missing (df : DataFrame) (cols : list string) :
  ~ has_columns df cols ->
  exists k, In k cols /\ ~ In k (columns df)
            /\ rmap (fun c => match col_pos (columns df) c with
                              | Some p => Ok p
                              | None => Raise (KeyError c)
                              end) cols = Raise (KeyError k).
Proof.
  induction cols as [|c cols IH]; intros Hnot.
  - destruct Hnot. intros c [].
  - destruct (In_dec String.string_dec c (columns df)) as [Hin|Hout].
    + destruct IH as (k & Hk & Hmiss & Hrun).
      { intros H. apply Hnot. intros c' [<-|Hc']; auto. }
      exists k. split; [now right|]. split; [exact Hmiss|].
      simpl. destruct (col_pos_In _ _ Hin) as [p ->]. simpl. now rewrite Hrun.
    + exists c. split; [now left|]. split; [exact Hout|].
      simpl. now rewrite col_pos_missing.
Qed.

Lemma getitem_cols_missing (df : DataFrame) (cols : list string) :
  ~ has_columns df cols ->
  exists k, In k cols /\ ~ In k (columns df)
            /\ getitem_cols df cols = Raise (KeyError k).
Proof.
  intros Hnot. destruct (positions_missing df cols Hnot) as (k & Hk & Hmiss & Hrun).
  exists k. split; [exact Hk|]. split; [exact Hmiss|].
  unfold getitem_cols. now rewrite Hrun.
Qed.

Ltac run_with H := repeat (run_compute; first [run_step | rewrite H]); run_compute.

Lemma missing_column_world {G} (w : World G) (matrix : loc) (df : DataFrame) :
  store w !! matrix = Some df ->
  ~ In "uloga" (columns df) ->
  FactorAnalysis.filter_data matrix w = (Raise (KeyError "uloga"), w)
  /\ CorrelationHeatmaps.filter_data matrix w = (Raise (KeyError "uloga"), w).
Proof.
  intros Hm Hu. destruct w as [s g o]. cbn [store rng out] in *.
  pose proof (getitem_col_missing df "uloga" Hu) as Hcol.
  unfold FactorAnalysis.filter_data, CorrelationHeatmaps.filter_data.
  run_unfold. run_with Hcol. split; reflexivity.
Qed.

(** X8. A frame that lacks a column a function reads makes it raise
    [KeyError] at the first look-up, before any library is called.
    Without [uloga], both [filter_data] leave the world untouched;
    without [cesto] they raise once the students are selected.  Without
    one of the fourteen columns of the partition, both
    [prepare_format_groups] raise on a column the frame lacks
    ([factor_analysis] after its headline), and allocate nothing;
    without one of the twelve items [perform_adequacy_tests] raises
    after its headline, and neither Bartlett's test nor KMO is run.
    The column labels of the frame are distinct. *)
Theorem missing_column_raises {G} (lib : Library G) (w : World G) (matrix : loc)
    (df : DataFrame) :
  store w !! matrix = Some df ->
  List.NoDup (columns df) ->
  (~ In "uloga" (columns df) ->
   FactorAnalysis.filter_data matrix w = (Raise (KeyError "uloga"), w)
   /\ CorrelationHeatmaps.filter_data matrix w = (Raise (KeyError "uloga"), w))
  /\ (In "uloga" (columns df) -> ~ In "cesto" (columns df) ->
      fst (FactorAnalysis.filter_data matrix w) = Raise (KeyError "cesto")
      /\ fst (CorrelationHeatmaps.filter_data matrix w) = Raise (KeyError "cesto"))
  /\ (~ has_columns df (AUX_COLS ++ QUESTION_COLS) ->
      exists k, In k (AUX_COLS ++ QUESTION_COLS) /\ ~ In k (columns df)
        /\ FactorAnalysis.prepare_format_groups matrix w
           = (Raise (KeyError k),
              mkWorld (store w) (rng w) (out w ++ [Print "Preparing format groups..."]))
        /\ CorrelationHeatmaps.prepare_format_groups matrix w = (Raise (KeyError k), w))
  /\ (~ has_columns df QUESTION_COLS ->
      exists k, In k QUESTION_COLS /\ ~ In k (columns df)
        /\ FactorAnalysis.perform_adequacy_tests lib matrix w
           = (Raise (KeyError k),
              mkWorld (store w) (rng w) (out w ++ [Print "Performing adequacy tests..."]))).
Proof.
  intros Hm _. destruct w as [s g o]. cbn [store rng out] in *.
  split; [|split; [|split]].
  - intros Hu. exact (missing_column_world (mkWorld s g o) matrix df Hm Hu).
  - intros Hu Hc.
    pose proof (getitem_col_cell_of df "uloga" Hu) as Hcol.
    pose proof (getitem_mask_students df) as Hs.
    pose proof (getitem_col_missing (students_of df) "cesto" Hc) as Hce.
    unfold STUDENT_ROLE_CODE in Hs.
    unfold FactorAnalysis.filter_data, CorrelationHeatmaps.filter_data.
    unfold STUDENT_ROLE_CODE. run_unfold. run_with Hce. split; reflexivity.
  - intros Hnot. destruct (positions_missing df _ Hnot) as (k & Hk & Hmiss & Hrun).
    exists k. split; [exact Hk|]. split; [exact Hmiss|].
    unfold FactorAnalysis.prepare_format_groups, CorrelationHeatmaps.prepare_format_groups.
    run_unfold. unfold getitem_cols. run_with Hrun. split; reflexivity.
  - intros Hnot. destruct (positions_missing df _ Hnot) as (k & Hk & Hmiss & Hrun).
    exists k. split; [exact Hk|]. split; [exact Hmiss|].
    unfold FactorAnalysis.perform_adequacy_tests.
    run_unfold. unfold getitem_cols. run_with Hrun. reflexivity.
Qed.

Lemma eleven_items_incomplete : ~ has_columns Visitors.eleven_items QUESTION_COLS.
Proof.
  intros H.
  assert (Hin : In "g12" QUESTION_COLS) by (do 11 right; now left).
  specialize (H "g12" Hin). cbn in H.
  repeat (destruct H as [H|H]; [discriminate|]). exact H.
Qed.

Lemma missing_column_raises_witness :
  (FactorAnalysis.filter_data 0 (mkWorld [Visitors.items_only] 0 [])
   = (Raise (KeyError "uloga"), mkWorld [Visitors.items_only] 0 [])
   /\ CorrelationHeatmaps.filter_data 0 (mkWorld [Visitors.items_only] 0 [])
      = (Raise (KeyError "uloga"), mkWorld [Visitors.items_only] 0 []))
  /\ exists k, In k QUESTION_COLS /\ ~ In k (columns Visitors.eleven_items)
       /\ FactorAnalysis.perform_adequacy_tests (Demo.returning Visitors.eleven_items) 0
            (mkWorld [Visitors.eleven_items] 0 [])
          = (Raise (KeyError k),
             mkWorld [Visitors.eleven_items] 0 [Print "Performing adequacy tests..."]).
Proof.
  split.
  - refine (proj1 (missing_column_raises (Demo.returning Visitors.items_only)
                     (mkWorld [Visitors.items_only] 0 []) 0 Visitors.items_only
                     eq_refl QUESTION_COLS_NoDup) _).
    cbn. intros H. repeat (destruct H as [H|H]; [discriminate|]). exact H.
  - exact (proj2 (proj2 (proj2 (missing_column_raises
                                  (Demo.returning Visitors.eleven_items)
                                  (mkWorld [Visitors.eleven_items] 0 []) 0
                                  Visitors.eleven_items eq_refl eleven_items_NoDup)))
             eleven_items_incomplete).
Defined.

Lemma has_columns_filtered_of (df : DataFrame) (cols : list string) :
  has_columns df cols -> has_columns (filtered_of df) cols.
Proof. intros H. exact H. Qed.

(** X9. Filtering is idempotent.  Applied to its own result,
    [correlation_heatmaps.filter_data] returns a further new object with
    the same columns and rows; so does [factor_analysis.filter_data] when
    some row was kept.  When none was, the frame it returned has no
    columns, and filtering it again raises [KeyError: 'uloga'].  The
    column labels of the frame are distinct; a filtered frame has the
    labels of its input, or none. *)
Theorem filter_data_twice {G} (w : World G) (matrix : loc) (df : DataFrame) :
  store w !! matrix = Some df ->
  List.NoDup (columns df) ->
  has_columns df ["uloga"; "cesto"] ->
  (exists l1 w1 l2 w2,
      CorrelationHeatmaps.filter_data matrix w = (Ok l1, w1)
      /\ CorrelationHeatmaps.filter_data l1 w1 = (Ok l2, w2)
      /\ l1 < l2
      /\ store w2 !! l1 = store w1 !! l1
      /\ store w2 !! l2 = store w1 !! l1)
  /\ (exists l1 w1,
      FactorAnalysis.filter_data matrix w = (Ok l1, w1)
      /\ match List.filter (kept df) (rows df) with
         | [] => FactorAnalysis.filter_data l1 w1 = (Raise (KeyError "uloga"), w1)
         | _ :: _ =>
             exists l2 w2,
               FactorAnalysis.filter_data l1 w1 = (Ok l2, w2)
               /\ l1 < l2
               /\ store w2 !! l1 = store w1 !! l1
               /\ store w2 !! l2 = store w1 !! l1
         end).
Proof.
  intros Hm _ Hc. split.
  - rewrite (ch_filter_data_run w matrix df Hm Hc).
    do 4 eexists. split; [reflexivity|].
    rewrite (ch_filter_data_run _ _ (filtered_of df));
      [|cbn [store]; rewrite lookup_ext; reflexivity
       |exact (has_columns_filtered_of df _ Hc)].
    split; [reflexivity|].
    cbn [store]. rewrite filtered_of_idem.
    split; [rewrite length_app; cbn [length]; lia|]. split.
    + rewrite lookup_app_l by (rewrite length_app; cbn [length]; lia). reflexivity.
    + rewrite !lookup_ext. reflexivity.
  - rewrite (filter_data_run w matrix df Hm Hc), (df_empty_filtered_of df Hc).
    rewrite <- rows_filtered_of.
    destruct (rows (filtered_of df)) as [|row rest] eqn:Hrows.
    + do 2 eexists. split; [reflexivity|].
      destruct (missing_column_world
                  (mkWorld (store w ++ [students_of df; filtered_of df; mkDF [] []])
                     (rng w)
                     (out w ++ [PrintCount "Initial records: " (df_len df);
                                PrintCount "Students only: " (df_len (students_of df));
                                PrintCount "Frequent visitors: " (df_len (filtered_of df));
                                Print "Error: No data left after filtering."]))
                  (length (store w) + 2) (mkDF [] [])) as [Hfa _].
      * cbn [store]. rewrite lookup_ext. reflexivity.
      * intros [].
      * exact Hfa.
    + do 2 eexists. split; [reflexivity|].
      rewrite (filter_data_run _ _ (filtered_of df));
        [|cbn [store]; rewrite lookup_ext; reflexivity
         |exact (has_columns_filtered_of df _ Hc)].
      rewrite filtered_of_idem, (df_empty_filtered_of df Hc), Hrows.
      do 2 eexists. split; [reflexivity|].
      cbn [store].
      split; [rewrite length_app; cbn [length]; lia|]. split.
      * rewrite lookup_app_l by (rewrite length_app; cbn [length]; lia). reflexivity.
      * rewrite !lookup_ext. reflexivity.
Qed.

Lemma staff_only_columns : has_columns Visitors.staff_only CSV_COLS.
Proof. intros c Hc. exact Hc. Qed.

Lemma filter_data_twice_witness :
  exists l1 w1,
    FactorAnalysis.filter_data 0 (mkWorld [Visitors.staff_only] 0 []) = (Ok l1, w1)
    /\ FactorAnalysis.filter_data l1 w1 = (Raise (KeyError "uloga"), w1).
Proof.
  exact (proj2 (filter_data_twice (mkWorld [Visitors.staff_only] 0 []) 0
                  Visitors.staff_only eq_refl CSV_COLS_NoDup
                  (has_columns_app_l _ _ _ staff_only_columns))).
Defined.

(** ** [factor_analysis.main]: nothing to load, nobody left *)

(** X10. [factor_analysis.main] ends quietly when there is nothing to
    analyse.  If the file cannot be read, the exception of [read_csv]
    leaves [main] after the headline, with no object created.  If the
    file loads but no row is a student who visits often (an empty file
    included), [main] prints the three counts, the last of them 0, and
    "Error: No data left after filtering.", and returns normally: no
    group is formed and no adequacy test, fit, plot or export is
    reached.  Only the columns [uloga] and [cesto] are needed for that. *)
Theorem main_stops_when_nobody_left {G} (lib : Library G) (w : World G) :
  (forall e, read_csv lib FactorAnalysis.DATA_FILEPATH = Raise e ->
     FactorAnalysis.main lib w
     = (Raise e,
        mkWorld (store w) (rng w)
          (out w ++ [Print "Exploratory Factor Analysis (EFA) for Questionnaire Data";
                     CallReadCsv FactorAnalysis.DATA_FILEPATH])))
  /\ (forall csv, read_csv lib FactorAnalysis.DATA_FILEPATH = Ok csv ->
        has_columns csv ["uloga"; "cesto"] ->
        List.filter (kept csv) (rows csv) = [] ->
        FactorAnalysis.main lib w
        = (Ok tt,
           mkWorld (store w ++ [csv; students_of csv; filtered_of csv; mkDF [] []])
             (rng w)
             (out w ++ [Print "Exploratory Factor Analysis (EFA) for Questionnaire Data";
                        CallReadCsv FactorAnalysis.DATA_FILEPATH;
                        PrintCount "Data loaded: " (df_len csv);
                        PrintCount "Initial records: " (df_len csv);
                        PrintCount "Students only: " (df_len (students_of csv));
                        PrintCount "Frequent visitors: " 0;
                        Print "Error: No data left after filtering."]))).
Proof.
  destruct w as [s g o]. cbn [store rng out]. split.
  - intros e He. unfold FactorAnalysis.main. run_unfold. run_with He. reflexivity.
  - intros csv Hcsv Hcols Hnone.
    assert (Hrows : rows (filtered_of csv) = []) by now rewrite rows_filtered_of.
    assert (Hempty : df_empty (filtered_of csv) = true)
      by now rewrite (df_empty_filtered_of csv Hcols), Hrows.
    unfold FactorAnalysis.main. run_unfold. run.
    rewrite (filter_data_run _ _ csv);
      [|cbn [store]; apply list_lookup_middle; reflexivity|exact Hcols].
    rewrite Hempty. run.
    replace (df_len (filtered_of csv)) with 0 by (unfold df_len; now rewrite Hrows).
    reflexivity.
Qed.

Lemma main_stops_when_nobody_left_witness :
  FactorAnalysis.main (Demo.returning Visitors.staff_only) Demo.empty_world
  = (Ok tt,
     mkWorld [Visitors.staff_only; students_of Visitors.staff_only;
              filtered_of Visitors.staff_only; mkDF [] []]
       0
       [Print "Exploratory Factor Analysis (EFA) for Questionnaire Data";
        CallReadCsv FactorAnalysis.DATA_FILEPATH;
        PrintCount "Data loaded: " 2;
        PrintCount "Initial records: " 2;
        PrintCount "Students only: " 0;
        PrintCount "Frequent visitors: " 0;
        Print "Error: No data left after filtering."]).
Proof.
  exact (proj2 (main_stops_when_nobody_left (Demo.returning Visitors.staff_only)
                  Demo.empty_world)
           Visitors.staff_only eq_refl
           (has_columns_app_l _ _ _ staff_only_columns) eq_refl).
Defined.

(** ** The Spearman correlations of [correlation_heatmaps.py] *)

Ltac solve_in := repeat (first [left; reflexivity | right]).

Lemma column_order_items (c : string) :
  In c CorrelationHeatmapsMain.column_order <-> In c QUESTION_COLS.
Proof.
  split; intros H; cbn in H;
    repeat (destruct H as [<-|H]; [solve_in|]); destruct H.
Qed.

Lemma column_order_NoDup : List.NoDup CorrelationHeatmapsMain.column_order.
Proof.
  unfold CorrelationHeatmapsMain.column_order.
  repeat (constructor;
          [cbn; intros H; repeat (destruct H as [H|H]; [discriminate|]); exact H|]).
  constructor.
Qed.

Lemma has_columns_column_order (df : DataFrame) :
  has_columns df QUESTION_COLS -> has_columns df CorrelationHeatmapsMain.column_order.
Proof. intros H c Hc. apply H. now apply column_order_items. Qed.

Lemma getitem_cols_column_order (df : DataFrame) :
  has_columns df QUESTION_COLS ->
  getitem_cols df CorrelationHeatmapsMain.column_order = Ok (reordered_of df).
Proof. intros H. apply getitem_cols_project. now apply has_columns_column_order. Qed.

(** Reordering moves the columns and nothing else: every item of every
    row keeps its value. *)
Lemma reordered_of_cells (df : DataFrame) (r : Z * list cell) (c : string) :
  In c QUESTION_COLS ->
  cell_of (reordered_of df)
          (fst r, map (cell_of df r) CorrelationHeatmapsMain.column_order) c
  = cell_of df r c.
Proof.
  intros Hc. cbn in Hc. repeat (destruct Hc as [<-|Hc]; [reflexivity|]). destruct Hc.
Qed.

Ltac run_grown :=
  repeat (run_compute;
          first [ run_step
                | erewrite lookup_app_l_Some by eassumption ]);
  run_compute.

Lemma calculate_correlations_run {G} (lib : Library G) (w : World G)
    (f0 f1 f2 f3 : loc) (x0 x1 x2 x3 : DataFrame) :
  store w !! f0 = Some x0 -> store w !! f1 = Some x1 ->
  store w !! f2 = Some x2 -> store w !! f3 = Some x3 ->
  has_columns x1 QUESTION_COLS -> has_columns x3 QUESTION_COLS ->
  let r := CorrelationHeatmapsMain.calculate_correlations lib [f0; f1; f2; f3] w in
  let inputs := [x0; x1; x2; x3; reordered_of x1; reordered_of x3] in
  let n := length (store w) in
  exists calls,
    out (snd r) = out w ++ map (CallCorr "spearman") calls
    /\ rng (snd r) = rng w
    /\ begins calls inputs
    /\ ((exists e x, fst r = Raise e /\ last calls = Some x
                     /\ corr lib "spearman" x = Raise e)
        \/ (exists c0 c1 c2 c3 c4 c5,
               calls = inputs
               /\ Forall2 (fun x c => corr lib "spearman" x = Ok c) inputs
                          [c0; c1; c2; c3; c4; c5]
               /\ fst r = Ok ([n; n + 1; n + 2; n + 3], n + 5, n + 7)
               /\ store (snd r)
                  = store w ++ [c0; c1; c2; c3; reordered_of x1; c4;
                                reordered_of x3; c5])).
Proof.
  intros H0 H1 H2 H3 Hc1 Hc3 r inputs n. subst r inputs n.
  destruct w as [s g o]. cbn [store rng out] in *.
  pose proof (getitem_cols_column_order x1 Hc1) as Hsel1.
  pose proof (getitem_cols_column_order x3 Hc3) as Hsel3.
  unfold CorrelationHeatmapsMain.calculate_correlations, df_corr.
  run_unfold. run_grown.
  destruct (corr lib "spearman" x0) as [c0|e] eqn:E0; run_grown;
    [|exists [x0]; split; [reflexivity|]; split; [reflexivity|];
      split; [eexists; reflexivity|]; left; now exists e, x0].
  destruct (corr lib "spearman" x1) as [c1|e] eqn:E1; run_grown;
    [|exists [x0; x1]; split; [reflexivity|]; split; [reflexivity|];
      split; [eexists; reflexivity|]; left; now exists e, x1].
  destruct (corr lib "spearman" x2) as [c2|e] eqn:E2; run_grown;
    [|exists [x0; x1; x2]; split; [reflexivity|]; split; [reflexivity|];
      split; [eexists; reflexivity|]; left; now exists e, x2].
  destruct (corr lib "spearman" x3) as [c3|e] eqn:E3; run_grown;
    [|exists [x0; x1; x2; x3]; split; [reflexivity|]; split; [reflexivity|];
      split; [eexists; reflexivity|]; left; now exists e, x3].
  destruct (corr lib "spearman" (reordered_of x1)) as [c4|e] eqn:E4; run_grown;
    [|exists [x0; x1; x2; x3; reordered_of x1];
      split; [reflexivity|]; split; [reflexivity|];
      split; [eexists; reflexivity|]; left; now exists e, (reordered_of x1)].
  destruct (corr lib "spearman" (reordered_of x3)) as [c5|e] eqn:E5; run_grown;
    exists [x0; x1; x2; x3; reordered_of x1; reordered_of x3];
    (split; [reflexivity|]); (split; [reflexivity|]);
    (split; [exists []; reflexivity|]).
  - right. exists c0, c1, c2, c3, c4, c5. split; [reflexivity|].
    split; [repeat constructor; assumption|]. split; reflexivity.
  - left. now exists e, (reordered_of x3).
Qed.

Lemma corr_inputs_calls (how : string) (calls : list DataFrame) :
  corr_inputs (map (CallCorr how) calls) = calls.
Proof. induction calls as [|x calls IH]; [reflexivity|]. simpl. now rewrite IH. Qed.

Lemma corr_inputs_app (a b : list Event) :
  corr_inputs (a ++ b) = corr_inputs a ++ corr_inputs b.
Proof.
  induction a as [|e a IH]; [reflexivity|]. destruct e; simpl; now rewrite ?IH.
Qed.

(** X11. [calculate_correlations] on four forms that carry the twelve
    items asks pandas for Spearman correlations and nothing else, at
    most six times and in this order: the four forms, then form 2 and
    form 4 with their columns in [column_order], which holds each of the
    twelve items once, so that every row keeps every item's value.  It
    stops at the first call that raises, with that exception; the
    reordering itself never fails.  When all six return, the three
    values it returns are new objects holding pandas' six answers: the
    list of the first four, then the two reordered ones. *)
Theorem calculate_correlations_calls {G} (lib : Library G) (w : World G)
    (f0 f1 f2 f3 : loc) (x0 x1 x2 x3 : DataFrame) :
  store w !! f0 = Some x0 -> store w !! f1 = Some x1 ->
  store w !! f2 = Some x2 -> store w !! f3 = Some x3 ->
  has_columns x1 QUESTION_COLS -> has_columns x3 QUESTION_COLS ->
  let r := CorrelationHeatmapsMain.calculate_correlations lib [f0; f1; f2; f3] w in
  let inputs := [x0; x1; x2; x3; reordered_of x1; reordered_of x3] in
  (exists calls,
      added w (snd r) = map (CallCorr "spearman") calls
      /\ begins calls inputs
      /\ match fst r with
         | Ok (correlations, m2, m4) =>
             calls = inputs
             /\ Forall (new_in w) (correlations ++ [m2; m4])
             /\ Forall2 (fun x l => exists c, corr lib "spearman" x = Ok c
                                              /\ store (snd r) !! l = Some c)
                        inputs (correlations ++ [m2; m4])
         | Raise e => exists x, last calls = Some x /\ corr lib "spearman" x = Raise e
         end)
  /\ List.NoDup CorrelationHeatmapsMain.column_order
  /\ (forall c, In c CorrelationHeatmapsMain.column_order <-> In c QUESTION_COLS)
  /\ (forall x row c, In c QUESTION_COLS ->
        cell_of (reordered_of x)
                (fst row, map (cell_of x row) CorrelationHeatmapsMain.column_order) c
        = cell_of x row c).
Proof.
  intros H0 H1 H2 H3 Hc1 Hc3 r inputs.
  split; [|split; [exact column_order_NoDup|split;
                   [exact column_order_items|exact reordered_of_cells]]].
  destruct (calculate_correlations_run lib w f0 f1 f2 f3 x0 x1 x2 x3
              H0 H1 H2 H3 Hc1 Hc3) as (calls & Hout & _ & Hbegins & Hres).
  fold r in Hout, Hres. fold inputs in Hbegins, Hres.
  exists calls. split; [now apply added_app|]. split; [exact Hbegins|].
  destruct Hres as [(e & x & -> & Hlast & He)
                   |(c0 & c1 & c2 & c3 & c4 & c5 & Hcalls & Hcorr & -> & Hstore)].
  - now exists x.
  - split; [exact Hcalls|]. rewrite Hstore. cbn [app]. split.
    + unfold new_in. repeat constructor; lia.
    + subst inputs.
      repeat match goal with
             | H : Forall2 _ (_ :: _) (_ :: _) |- _ =>
                 apply Forall2_cons in H; destruct H as [? H]
             end.
      repeat constructor; eexists; (split; [eassumption|]);
        rewrite ?lookup_ext, ?lookup_ext0; reflexivity.
Qed.

Lemma calculate_correlations_calls_witness :
  exists calls,
    added (mkWorld [partition_of Demo.four_groups 0; partition_of Demo.four_groups 1;
                    partition_of Demo.four_groups 2; partition_of Demo.four_groups 3]
                   0 [])
          (snd (CorrelationHeatmapsMain.calculate_correlations
                  (Demo.raising Demo.four_groups) [0; 1; 2; 3]
                  (mkWorld [partition_of Demo.four_groups 0;
                            partition_of Demo.four_groups 1;
                            partition_of Demo.four_groups 2;
                            partition_of Demo.four_groups 3] 0 [])))
    = map (CallCorr "spearman") calls
    /\ begins calls
              [partition_of Demo.four_groups 0; partition_of Demo.four_groups 1;
               partition_of Demo.four_groups 2; partition_of Demo.four_groups 3;
               reordered_of (partition_of Demo.four_groups 1);
               reordered_of (partition_of Demo.four_groups 3)]
    /\ exists x, last calls = Some x
                 /\ corr (Demo.raising Demo.four_groups) "spearman" x
                    = Raise (LibraryError "corr").
Proof.
  refine (proj1 (calculate_correlations_calls (Demo.raising Demo.four_groups)
                   (mkWorld [partition_of Demo.four_groups 0;
                             partition_of Demo.four_groups 1;
                             partition_of Demo.four_groups 2;
                             partition_of Demo.four_groups 3] 0 [])
                   0 1 2 3 _ _ _ _ eq_refl eq_refl eq_refl eq_refl _ _));
    intros c Hc; exact Hc.
Defined.

(** ** [correlation_heatmaps.main] *)

Lemma ch_main_run {G} (lib : Library G) (w : World G) (csv : DataFrame) :
  read_csv lib CorrelationHeatmapsMain.DATA_FILEPATH = Ok csv ->
  has_columns csv CSV_COLS ->
  let f := filtered_of csv in
  let n := length (store w) in
  let w1 := mkWorld (store w ++ [csv; students_of csv; f; grid_of f;
                                 masked_of f 0; partition_of f 0;
                                 masked_of f 1; partition_of f 1;
                                 masked_of f 2; partition_of f 2;
                                 masked_of f 3; partition_of f 3])
              (rng w)
              (out w ++ ch_prologue csv) in
  CorrelationHeatmapsMain.main lib w
  = (cs <- CorrelationHeatmapsMain.calculate_correlations lib
             [n + 5; n + 7; n + 9; n + 11] ;;
     CorrelationHeatmapsMain.plot_individual_heatmaps (fst (fst cs)) (snd (fst cs))
       (snd cs)) w1.
Proof.
  intros Hcsv Hcols f n w1. subst f n w1.
  destruct w as [s g o]. cbn [store rng out].
  unfold ch_prologue, CorrelationHeatmapsMain.main. run_unfold. run.
  rewrite (ch_filter_data_run _ _ csv);
    [|cbn [store]; apply list_lookup_middle; reflexivity
     |apply (has_columns_app_l csv _ _ Hcols)].
  run.
  rewrite (ch_prepare_run _ _ (filtered_of csv));
    [|cbn [store]; rewrite lookup_ext; reflexivity
     |apply (has_columns_app_r (filtered_of csv) ["uloga"; "cesto"]), Hcols].
  run. reflexivity.
Qed.

Lemma partition_of_items (df : DataFrame) (i : nat) :
  has_columns (partition_of df i) QUESTION_COLS.
Proof. intros c Hc. exact Hc. Qed.

(** X12. [correlation_heatmaps.main] has no guard between loading and
    correlating.  Once the file loads with its columns, it filters,
    partitions and asks for the Spearman correlation of the first group
    whatever is left: also when no respondent passed the filter or a
    group has no row.  The correlations asked for are, in order, those
    of the four groups of the students who visit often and of groups 2
    and 4 with reordered columns, up to the first call that raises; a
    run of [main] that returns has made all six calls, all six have
    returned, and it has ended by showing the heatmaps. *)
Theorem correlation_main_is_unguarded {G} (lib : Library G) (w : World G)
    (csv : DataFrame) :
  read_csv lib CorrelationHeatmapsMain.DATA_FILEPATH = Ok csv ->
  has_columns csv CSV_COLS ->
  let r := CorrelationHeatmapsMain.main lib w in
  let f := filtered_of csv in
  let inputs := [partition_of f 0; partition_of f 1; partition_of f 2; partition_of f 3;
                 reordered_of (partition_of f 1); reordered_of (partition_of f 3)] in
  begins (ch_prologue csv ++ [CallCorr "spearman" (partition_of f 0)])
         (added w (snd r))
  /\ begins (corr_inputs (added w (snd r))) inputs
  /\ (fst r = Ok tt ->
      Forall (fun x => exists c, corr lib "spearman" x = Ok c) inputs
      /\ corr_inputs (added w (snd r)) = inputs
      /\ last (added w (snd r))
         = Some (Show "Single Page - Order A, Single Page - Order B, Slides - Order A, Slides - Order B")).
Proof.
  intros Hcsv Hcols r f inputs. subst r.
  rewrite (ch_main_run lib w csv Hcsv Hcols). cbv zeta. fold f.
  set (w1 := mkWorld _ _ _). rewrite bind_run.
  destruct (calculate_correlations_run lib w1
              (length (store w) + 5) (length (store w) + 7)
              (length (store w) + 9) (length (store w) + 11)
              (partition_of f 0) (partition_of f 1) (partition_of f 2) (partition_of f 3))
    as (calls & Hout & Hrng & Hbegins & Hres);
    try (subst w1; cbn [store]; rewrite lookup_ext; reflexivity);
    try apply partition_of_items.
  fold inputs in Hbegins, Hres. cbv zeta in Hout, Hrng, Hres.
  assert (Hfirst : exists rest, calls = partition_of f 0 :: rest).
  { destruct Hres as [(e & x & _ & Hlast & _)|(? & ? & ? & ? & ? & ? & -> & _)];
      [|now eexists].
    destruct calls as [|y rest]; [discriminate|].
    destruct Hbegins as [tail Htail]. injection Htail as <- _. now eexists. }
  destruct Hfirst as [rest Hrest].
  destruct Hres as [(e & x & Hfst & Hlast & He)
                   |(c0 & c1 & c2 & c3 & c4 & c5 & Hcalls & Hcorr & Hfst & Hstore)].
  - destruct (CorrelationHeatmapsMain.calculate_correlations lib _ w1)
      as [[cs|e'] w2]; cbn [fst snd] in *; [discriminate|].
    injection Hfst as ->.
    rewrite (added_app w w2 (ch_prologue csv ++ map (CallCorr "spearman") calls))
      by (rewrite Hout; subst w1; cbn [out]; now rewrite app_assoc).
    assert (Hcalls : corr_inputs (ch_prologue csv ++ map (CallCorr "spearman") calls)
                     = calls).
    { unfold ch_prologue. cbn [app corr_inputs]. apply corr_inputs_calls. }
    rewrite Hcalls. split; [|split; [exact Hbegins|discriminate]].
    rewrite Hrest. cbn [map]. exists (map (CallCorr "spearman") rest).
    now rewrite <- app_assoc.
  - destruct (CorrelationHeatmapsMain.calculate_correlations lib _ w1)
      as [[cs|e'] w2]; cbn [fst snd] in *; [|discriminate].
    injection Hfst as ->. destruct w2 as [s2 g2 o2]. cbn [store rng out] in *.
    subst s2 g2 o2 calls.
    unfold CorrelationHeatmapsMain.plot_individual_heatmaps. cbn [fst snd].
    run_unfold. subst w1. cbn [store rng out]. run.
    rewrite (added_app w _
               (ch_prologue csv ++ map (CallCorr "spearman") inputs
                ++ [Print "#7 - Generating heatmaps";
                    Show "Single Page - Order A, Single Page - Order B, Slides - Order A, Slides - Order B"]))
      by (cbn [out]; rewrite <- ?app_assoc; reflexivity).
    split; [|split].
    + subst inputs. unfold ch_prologue. eexists. cbn [map app]. reflexivity.
    + exists []. unfold ch_prologue. cbn [app corr_inputs].
      rewrite (corr_inputs_app (map (CallCorr "spearman") inputs)), corr_inputs_calls.
      cbn [corr_inputs]. reflexivity.
    + intros _. split; [|split].
      * subst inputs.
        repeat match goal with
               | H : Forall2 _ (_ :: _) (_ :: _) |- _ =>
                   apply Forall2_cons in H; destruct H as [? H]
               end.
        repeat constructor; eexists; eassumption.
      * unfold ch_prologue. cbn [app corr_inputs].
        rewrite (corr_inputs_app (map (CallCorr "spearman") inputs)), corr_inputs_calls.
        cbn [corr_inputs]. now rewrite app_nil_r.
      * subst inputs. reflexivity.
Qed.

Lemma correlation_main_is_unguarded_witness :
  begins (ch_prologue Visitors.staff_only
          ++ [CallCorr "spearman" (mkDF QUESTION_COLS [])])
         (added Demo.empty_world
            (snd (CorrelationHeatmapsMain.main (Demo.returning Visitors.staff_only)
                    Demo.empty_world)))
  /\ begins (corr_inputs
               (added Demo.empty_world
                  (snd (CorrelationHeatmapsMain.main (Demo.returning Visitors.staff_only)
                          Demo.empty_world))))
            [mkDF QUESTION_COLS []; mkDF QUESTION_COLS []; mkDF QUESTION_COLS [];
             mkDF QUESTION_COLS []; reordered_of (mkDF QUESTION_COLS []);
             reordered_of (mkDF QUESTION_COLS [])].
Proof.
  destruct (correlation_main_is_unguarded (Demo.returning Visitors.staff_only)
              Demo.empty_world Visitors.staff_only eq_refl staff_only_columns)
    as (H1 & H2 & _).
  split; [exact H1|exact H2].
Defined.

(** ** One bootstrap step: what is drawn and what is correlated *)

Lemma take_rows_In (df : DataFrame) (ps : list nat) (rs : list (Z * list cell)) :
  take_rows df ps = Ok rs -> Forall (fun r => In r (rows df)) rs.
Proof.
  unfold take_rows. revert rs. induction ps as [|p ps IH]; intros rs H.
  - injection H as <-. constructor.
  - simpl in H. destruct (rows df !! p) as [r|] eqn:Hp; [|discriminate].
    simpl in H. destruct (rmap _ ps) as [rs'|]; [|discriminate].
    injection H as <-. constructor; [|now apply IH].
    apply list_elem_of_In. eapply list_elem_of_lookup_2. exact Hp.
Qed.

Lemma sample_size_bounds (n : nat) :
  sample_size n <= n
  /\ (0 < n -> 0 < sample_size n)
  /\ (2 <= n -> sample_size n < n)
  /\ (2 <= sample_size n <-> 3 <= n).
Proof.
  unfold sample_size.
  pose proof (Nat.div_mod_eq (6 * n + 5) 10) as Hdiv.
  pose proof (Nat.mod_upper_bound (6 * n + 5) 10) as Hmod.
  repeat split; intros; lia.
Qed.

Ltac resampling_event_holds :=
  cbn [resampling_event];
  first [ exact I
        | split; [first [left; reflexivity | right; reflexivity]|reflexivity]
        | split; [reflexivity|];
          first [ left; split; [reflexivity|]; eapply take_rows_In; eassumption
                | right; split; [reflexivity|]; eapply take_rows_In; eassumption ] ].

Ltac resampling_events :=
  repeat (apply List.Forall_cons; [resampling_event_holds|]); apply List.Forall_nil.

(** X13. One bootstrap step draws without looking at the data and
    correlates nothing but resamples.  [bootstrap_correlation] first asks
    the generator for [round(0.6 n)] of the [n] row positions of the
    first matrix (at least one and at most [n]; all [n] only when
    [n] is 1), then the same for the second matrix; the two frames it hands
    to [corr(method='kendall')] have the columns of their matrix and
    only rows of it; no other library call than the final [kendalltau]
    on the two upper triangles is made, and a step that returns has made
    exactly these five calls, in this order, and returns
    [kendalltau]'s statistic. *)
Theorem bootstrap_correlation_resamples {G} (lib : Library G) (w : World G)
    (mat1 mat2 : loc) (m1 m2 : DataFrame) :
  store w !! mat1 = Some m1 -> store w !! mat2 = Some m2 ->
  let r := CorrelationHeatmaps.bootstrap_correlation lib mat1 mat2 w in
  let evs := added w (snd r) in
  begins [CallChoice (df_len m1) (sample_size (df_len m1))] evs
  /\ Forall (resampling_event m1 m2) evs
  /\ (forall x, fst r = Ok x ->
        exists x1 x2 c1 c2 t1 t2,
          evs = [CallChoice (df_len m1) (sample_size (df_len m1));
                 CallChoice (df_len m2) (sample_size (df_len m2));
                 CallCorr "kendall" x1; CallCorr "kendall" x2;
                 CallKendalltau t1 t2]
          /\ resample_of m1 x1 /\ resample_of m2 x2
          /\ corr lib "kendall" x1 = Ok c1 /\ corr lib "kendall" x2 = Ok c2
          /\ upper_triangle (values c1) = Ok t1
          /\ upper_triangle (values c2) = Ok t2
          /\ kendalltau lib t1 t2 = Ok x)
  /\ (forall n, sample_size n <= n
                /\ (0 < n -> 0 < sample_size n)
                /\ (2 <= n -> sample_size n < n)).
Proof.
  intros H1 H2 r evs.
  split; [|split; [|split]];
    [| | |intros n; destruct (sample_size_bounds n) as (? & ? & ? & _); auto].
  all: subst evs r; destruct w as [s g o]; cbn [store rng out] in *.
  all: assert (H2' : forall x, (s ++ [x]) !! mat2 = Some m2)
         by (intros x; rewrite lookup_app_l; [exact H2|]; eapply lookup_lt_Some, H2).
  all: unfold CorrelationHeatmaps.bootstrap_correlation, df_sample, df_corr, draw,
         CorrelationHeatmaps.get_upper_triangle.
  all: run_unfold; run.
  all: destruct (choice lib g (df_len m1) (sample_size (df_len m1))) as [ps1 g1]; run.
  all: destruct (rmap _ ps1) as [rows1|e] eqn:E1;
         [|first [ eexists; apply added_app; reflexivity
                 | erewrite added_app by reflexivity; resampling_events
                 | discriminate ]].
  all: run; rewrite H2'; run.
  all: destruct (choice lib g1 (df_len m2) (sample_size (df_len m2))) as [ps2 g2]; run.
  all: destruct (rmap _ ps2) as [rows2|e] eqn:E2;
         [|first [ eexists; apply added_app; reflexivity
                 | erewrite added_app by reflexivity; resampling_events
                 | discriminate ]].
  all: run.
  all: destruct (corr lib "kendall" (mkDF (columns m1) rows1)) as [c1|e] eqn:C1;
         [|first [ eexists; apply added_app; reflexivity
                 | erewrite added_app by reflexivity; resampling_events
                 | discriminate ]].
  all: run.
  all: destruct (corr lib "kendall" (mkDF (columns m2) rows2)) as [c2|e] eqn:C2;
         [|first [ eexists; apply added_app; reflexivity
                 | erewrite added_app by reflexivity; resampling_events
                 | discriminate ]].
  all: run.
  all: destruct (upper_triangle (values c1)) as [t1|e] eqn:T1;
         [|first [ eexists; apply added_app; reflexivity
                 | erewrite added_app by reflexivity; resampling_events
                 | discriminate ]].
  all: run.
  all: destruct (upper_triangle (values c2)) as [t2|e] eqn:T2;
         [|first [ eexists; apply added_app; reflexivity
                 | erewrite added_app by reflexivity; resampling_events
                 | discriminate ]].
  all: run.
  - eexists. apply added_app. reflexivity.
  - erewrite added_app by reflexivity. resampling_events.
  - intros x Hx. erewrite added_app by reflexivity.
    exists (mkDF (columns m1) rows1), (mkDF (columns m2) rows2), c1, c2, t1, t2.
    split; [reflexivity|].
    split; [split; [reflexivity|eapply take_rows_In; eassumption]|].
    split; [split; [reflexivity|eapply take_rows_In; eassumption]|].
    repeat (split; [assumption|]). exact Hx.
Qed.

Lemma bootstrap_correlation_resamples_witness :
  begins [CallChoice 1 1]
         (added (mkWorld [partition_of Demo.four_groups 0;
                          partition_of Demo.four_groups 1] 0 [])
                (snd (CorrelationHeatmaps.bootstrap_correlation
                        (Demo.returning Demo.four_groups) 0 1
                        (mkWorld [partition_of Demo.four_groups 0;
                                  partition_of Demo.four_groups 1] 0 [])))).
Proof.
  exact (proj1 (bootstrap_correlation_resamples (Demo.returning Demo.four_groups)
                  (mkWorld [partition_of Demo.four_groups 0;
                            partition_of Demo.four_groups 1] 0 [])
                  0 1 _ _ eq_refl eq_refl)).
Defined.

(** ** The adequacy tests: who is counted *)

Lemma complete_cases_rows (df : DataFrame) :
  rows (complete_cases df)
  = map (items_of df) (List.filter (answered_all df) (rows df)).
Proof.
  unfold complete_cases, dropna, items_frame. cbn [rows columns].
  rewrite filter_map_comm. reflexivity.
Qed.

Lemma answered_all_numbers (df : DataFrame) (r : Z * list cell) :
  answered_all df r = true
  <-> forall c, In c QUESTION_COLS -> exists q, cell_of df r c = Num q.
Proof.
  unfold answered_all. rewrite forallb_forall. split; intros H c Hc.
  - specialize (H c Hc). destruct (cell_of df r c) as [|q]; [discriminate|now exists q].
  - destruct (H c Hc) as [q ->]. reflexivity.
Qed.

(** X14. [perform_adequacy_tests] counts complete cases only.  Of a frame
    with the twelve item columns, the frame it hands to Bartlett's test
    and to KMO (the same frame for both, and the one whose size it
    prints) holds the twelve item columns and, in their order, exactly
    the rows that have a number in every one of the twelve items; what a
    row has in any other column, missing or not, plays no part, and no
    missing value reaches either test. *)
Theorem adequacy_tests_on_complete_cases {G} (lib : Library G) (w : World G)
    (matrix : loc) (df : DataFrame) :
  store w !! matrix = Some df ->
  has_columns df QUESTION_COLS ->
  let evs := added w (snd (FactorAnalysis.perform_adequacy_tests lib matrix w)) in
  exists x,
    begins [Print "Performing adequacy tests...";
            PrintCount "Complete cases for analysis: " (length (rows x));
            CallBartlett x] evs
    /\ Forall (fun c => match c with Sphericity y | Kmo y => y = x end)
              (adequacy_calls evs)
    /\ columns x = QUESTION_COLS
    /\ rows x = map (items_of df) (List.filter (answered_all df) (rows df))
    /\ (forall r, answered_all df r = true
                  <-> forall c, In c QUESTION_COLS -> exists q, cell_of df r c = Num q)
    /\ Forall (fun r => Forall (fun c => isna c = false) (snd r)) (rows x)
    /\ length (rows x) <= length (rows df).
Proof.
  intros Hm Hc evs. exists (complete_cases df). subst evs.
  rewrite (perform_adequacy_tests_run lib w matrix df Hm Hc). cbv zeta.
  split; [|split; [|split; [reflexivity|split; [apply complete_cases_rows|split;
    [apply answered_all_numbers|split]]]]].
  - destruct (calculate_bartlett_sphericity lib (complete_cases df)) as [b|e];
      [destruct (calculate_kmo lib (complete_cases df)) as [k|e]|];
      cbn [snd store rng out]; erewrite added_app by (rewrite <- ?app_assoc; reflexivity);
      eexists; cbn [app]; reflexivity.
  - destruct (calculate_bartlett_sphericity lib (complete_cases df)) as [b|e];
      [destruct (calculate_kmo lib (complete_cases df)) as [k|e]|];
      cbn [snd store rng out]; erewrite added_app by (rewrite <- ?app_assoc; reflexivity);
      cbn [app adequacy_calls]; repeat constructor.
  - unfold complete_cases, dropna. cbn [rows]. apply Forall_forall. intros r Hr.
    apply list_elem_of_In, List.filter_In in Hr. destruct Hr as [_ Hr].
    rewrite forallb_forall in Hr. apply Forall_forall. intros c Hin.
    apply list_elem_of_In, Hr in Hin. now destruct (isna c).
  - rewrite complete_cases_rows, List.length_map. apply filter_length_le.
Qed.

Lemma skipped_columns : has_columns Visitors.skipped CSV_COLS.
Proof. intros c Hc. exact Hc. Qed.

Lemma adequacy_tests_on_complete_cases_witness :
  exists x,
    rows x = [(0%Z, repeat (Num 4) 12); (1%Z, repeat (Num 5) 12)]
    /\ Forall (fun c => match c with Sphericity y | Kmo y => y = x end)
              (adequacy_calls
                 (added (mkWorld [Visitors.skipped] 0 [])
                    (snd (FactorAnalysis.perform_adequacy_tests
                            (Demo.returning Visitors.skipped) 0
                            (mkWorld [Visitors.skipped] 0 [])))))
    /\ length (rows x) <= 3.
Proof.
  destruct (adequacy_tests_on_complete_cases (Demo.returning Visitors.skipped)
              (mkWorld [Visitors.skipped] 0 []) 0 Visitors.skipped eq_refl
              (has_columns_app_r _ _ _ (has_columns_app_r _ _ _ skipped_columns)))
    as (x & _ & Hcalls & _ & Hrows & _ & _ & Hlen).
  exists x. split; [exact Hrows|]. split; [exact Hcalls|exact Hlen].
Defined.

(** ** [factor_analysis.main]: what is fitted *)

Lemma factor_stage_tail {G} (lib : Library G) adequacy groups :
  FactorAnalysis.factor_stage lib adequacy groups
  = bind (FactorAnalysis.perform_factor_analysis lib groups)
         (factor_tail adequacy groups).
Proof. reflexivity. Qed.

Lemma traced_factor_tail {G} (p : Event -> bool) adequacy groups fa :
  (forall e, is_fit e = false -> p e = true) ->
  traced_by (G := G) p (factor_tail adequacy groups fa).
Proof.
  intros Hp.
  unfold factor_tail, FactorAnalysis.create_scree_plot,
         FactorAnalysis.create_loadings_heatmaps,
         FactorAnalysis.save_loadings_to_csv, FactorAnalysis.print_summary.
  repeat first
    [ apply traced_bind; [|intros]
    | apply traced_ret | apply traced_lift | apply traced_deref
    | apply traced_list_get
    | apply traced_emit; now apply Hp
    | apply traced_if
    | apply traced_mmap; intros ].
Qed.

Lemma no_fit_calls (evs : list Event) :
  forallb (fun e => negb (is_fit e)) evs = true -> fit_calls evs = [].
Proof.
  induction evs as [|e evs IH]; [reflexivity|]. cbn [forallb].
  intros H. apply andb_prop in H. destruct H as [He Hevs].
  destruct e; try discriminate; now apply IH.
Qed.

(** [main] up to the loop of [perform_factor_analysis], when both
    adequacy tests return. *)
Lemma main_reaches_fits {G} (lib : Library G) (w : World G) (csv : DataFrame)
    (b : cell * cell) (k : list cell * cell) :
  read_csv lib FactorAnalysis.DATA_FILEPATH = Ok csv ->
  has_columns csv CSV_COLS ->
  df_empty (filtered_of csv) = false ->
  (forall i, i < 4 -> df_len (partition_of (filtered_of csv) i) <> 0) ->
  calculate_bartlett_sphericity lib (complete_cases (filtered_of csv)) = Ok b ->
  calculate_kmo lib (complete_cases (filtered_of csv)) = Ok k ->
  let n := length (store w) in
  let gs := [n + 6; n + 8; n + 10; n + 12] in
  exists w3 pre,
    store w3 = store w ++ prologue_objects csv
               ++ [items_frame (filtered_of csv); items_frame (filtered_of csv);
                   complete_cases (filtered_of csv)]
    /\ rng w3 = rng w
    /\ out w3 = out w ++ pre
    /\ fit_calls pre = []
    /\ FactorAnalysis.main lib w
       = match mmap (fit_group lib) (enumerate gs) w3 with
         | (Ok fits, w4) =>
             factor_tail (fst b, snd b, snd k) gs
               (map loadings_ fits, map eigenvalues_ fits) w4
         | (Raise e, w4) => (Raise e, w4)
         end.
Proof.
  intros Hcsv Hcols Hne Hfull Hb Hk n gs. subst n gs.
  assert (Hno : existsb (Nat.eqb 0)
                  [df_len (partition_of (filtered_of csv) 0);
                   df_len (partition_of (filtered_of csv) 1);
                   df_len (partition_of (filtered_of csv) 2);
                   df_len (partition_of (filtered_of csv) 3)] = false).
  { destruct (existsb _ _) eqn:E; [|reflexivity].
    apply (some_group_empty (fun i => df_len (partition_of (filtered_of csv) i))) in E.
    destruct E as (i & Hi & Hz). now destruct (Hfull i Hi). }
  rewrite (main_run lib w csv Hcsv Hcols Hne). cbv zeta. rewrite Hno.
  unfold FactorAnalysis.analyses. rewrite bind_run.
  rewrite (perform_adequacy_tests_run lib _ _ (filtered_of csv));
    [|apply filtered_lookup|now apply filtered_items].
  cbv zeta. cbn [store rng out]. rewrite Hb, Hk.
  match goal with
  | |- context [FactorAnalysis.factor_stage lib ?a ?gs ?w2] =>
      exists (mkWorld (store w2) (rng w2)
                (out w2 ++ [Print "Performing factor analysis..."]))
  end.
  eexists. split; [|split; [|split; [|split]]].
  - cbn [store]. now rewrite <- app_assoc.
  - reflexivity.
  - cbn [out]. rewrite <- !app_assoc. reflexivity.
  - rewrite !fit_calls_app. reflexivity.
  - rewrite factor_stage_tail, bind_run, perform_factor_analysis_loop, !bind_run.
    unfold emit, ret. cbn [store rng out]. rewrite !bind_run.
    destruct (mmap _ _ _) as [[fits|e] w4]; reflexivity.
Qed.

(** X15. What [factor_analysis.main] fits.  When the run reaches the
    analyses and both adequacy tests return, [main] hands
    [FactorAnalyzer.fit] the four groups of the partition of the filtered
    matrix, whole and in order: the first group is always fitted, the
    fits stop at the first that raises, and a run that returns has
    fitted all four and nothing else.  The groups are fitted as the
    partition made them, with the rows that lack an item still in them:
    no complete-case selection stands between the partition and the fit. *)
Theorem main_fits_the_groups {G} (lib : Library G) (w : World G) (csv : DataFrame)
    (verdict : cell * cell * cell) :
  read_csv lib FactorAnalysis.DATA_FILEPATH = Ok csv ->
  has_columns csv CSV_COLS ->
  df_empty (filtered_of csv) = false ->
  (forall i, i < 4 -> df_len (partition_of (filtered_of csv) i) <> 0) ->
  library_verdict lib (complete_cases (filtered_of csv)) = Ok verdict ->
  let r := FactorAnalysis.main lib w in
  let f := filtered_of csv in
  let groups := [partition_of f 0; partition_of f 1; partition_of f 2; partition_of f 3] in
  begins (fit_calls (added w (snd r))) groups
  /\ fit_calls (added w (snd r)) <> []
  /\ (fst r = Ok tt -> fit_calls (added w (snd r)) = groups).
Proof.
  intros Hcsv Hcols Hne Hfull Hv r f groups. subst r.
  unfold library_verdict in Hv.
  destruct (calculate_bartlett_sphericity lib (complete_cases (filtered_of csv)))
    as [b|] eqn:Hb; [|discriminate].
  destruct (calculate_kmo lib (complete_cases (filtered_of csv)))
    as [k|] eqn:Hk; [|discriminate].
  destruct (main_reaches_fits lib w csv b k Hcsv Hcols Hne Hfull Hb Hk)
    as (w3 & pre & Hstore & Hrng & Hout & Hpre & Hmain).
  cbv zeta in Hmain. rewrite Hmain. clear Hmain.
  destruct (fit_groups_run lib (store w3)
              [length (store w) + 6; length (store w) + 8;
               length (store w) + 10; length (store w) + 12] groups)
    with (k := 0) (w := w3) as (evs & Hsnd & Hbegins & Hsome & Hok);
    [|reflexivity|].
  { rewrite Hstore. subst groups f.
    repeat constructor; rewrite lookup_ext; reflexivity. }
  unfold enumerate. cbv zeta in Hsnd, Hok.
  destruct (mmap (fit_group lib) _ w3) as [[fits|e] w4]; cbn [fst snd] in *; subst w4.
  - destruct (Hok fits eq_refl) as (_ & Hcalls & _).
    match goal with
    | |- context [factor_tail ?a ?gs ?fa ?w4] =>
        destruct (traced_factor_tail (fun e => negb (is_fit e)) a gs fa
                    (fun e He => f_equal negb He) w4 I)
          as (_ & (evs2 & Hout2 & Hp2) & _);
        cbn [out] in Hout2;
        rewrite (added_app w (snd (factor_tail a gs fa w4)) (pre ++ evs ++ evs2))
          by (rewrite Hout2, Hout; now rewrite <- !app_assoc)
    end.
    rewrite !fit_calls_app, Hpre, Hcalls, (no_fit_calls _ Hp2), app_nil_r. cbn [app].
    split; [exists []; now rewrite app_nil_r|]. split; [discriminate|reflexivity].
  - rewrite (added_app w _ (pre ++ evs))
      by (cbn [out]; rewrite Hout; now rewrite <- app_assoc).
    rewrite fit_calls_app, Hpre. cbn [app].
    split; [exact Hbegins|]. split; [|discriminate].
    apply Hsome; [unfold NUM_GROUPS; lia|discriminate].
Qed.

Lemma with_gaps_columns : has_columns Visitors.with_gaps CSV_COLS.
Proof. intros c Hc. exact Hc. Qed.

Lemma with_gaps_full i :
  i < 4 -> df_len (partition_of (filtered_of Visitors.with_gaps) i) <> 0.
Proof. intros Hi. destruct i as [|[|[|[|i]]]]; try lia; discriminate. Qed.

Lemma main_fits_the_groups_witness :
  exists x rest,
    fit_calls (added Demo.empty_world
                 (snd (FactorAnalysis.main (Demo.returning Visitors.with_gaps)
                         Demo.empty_world)))
    = x :: rest
    /\ In (4%Z, NaN :: repeat (Num 3) 11) (rows x)
    /\ ~ In (4%Z, NaN :: repeat (Num 3) 11)
           (rows (complete_cases (filtered_of Visitors.with_gaps))).
Proof.
  destruct (main_fits_the_groups (Demo.returning Visitors.with_gaps) Demo.empty_world
              Visitors.with_gaps (Num 0, Num 1, Num 0.5)
              eq_refl with_gaps_columns eq_refl with_gaps_full eq_refl)
    as (_ & _ & Hall).
  do 2 eexists. split; [exact (Hall eq_refl)|]. split.
  - right. left. reflexivity.
  - cbn. intros H. repeat (destruct H as [H|H]; [discriminate|]). exact H.
Defined.

(** ** The bootstrap: which forms are read *)

Lemma bind_Ok {G A B} (c : M G A) (k : A -> M G B) (w : World G) (b : B) :
  fst (bind c k w) = Ok b ->
  exists a w1, c w = (Ok a, w1) /\ fst (k a w1) = Ok b.
Proof.
  rewrite bind_run. destruct (c w) as [[a|e] w1]; [|discriminate].
  intros H. now exists a, w1.
Qed.

Lemma mmap_Ok_In {G A B} (f : A -> M G B) (l : list A) :
  forall (w : World G) (bs : list B),
    fst (mmap f l w) = Ok bs ->
    forall x, In x l -> exists w' b, fst (f x w') = Ok b.
Proof.
  induction l as [|a l IH]; intros w bs H x Hx; [destruct Hx|].
  cbn [mmap] in H. apply bind_Ok in H. destruct H as (b & w1 & Ha & H).
  apply bind_Ok in H. destruct H as (bs' & w2 & Hl & _).
  destruct Hx as [<-|Hx].
  - exists w, b. now rewrite Ha.
  - apply (IH w1 bs'); [now rewrite Hl|exact Hx].
Qed.

Lemma mmap_ext_in {G A B} (f g : A -> M G B) (l : list A) :
  (forall a w, In a l -> f a w = g a w) -> forall w, mmap f l w = mmap g l w.
Proof.
  induction l as [|a l IH]; intros Hfg w; [reflexivity|].
  cbn [mmap]. rewrite !bind_run, (Hfg a w (or_introl eq_refl)).
  destruct (g a w) as [[b|e] w1]; [|reflexivity].
  rewrite !bind_run, IH; [reflexivity|]. intros a' w' Ha'. apply Hfg. now right.
Qed.

Lemma bind_ext {G A B} (c c' : M G A) (k k' : A -> M G B) :
  (forall w, c w = c' w) -> (forall a w, k a w = k' a w) ->
  forall w, bind c k w = bind c' k' w.
Proof.
  intros Hc Hk w. rewrite !bind_run, Hc. destruct (c' w) as [[a|e] w1]; auto.
Qed.

Lemma bootr_take {G} (lib : Library G) (forms : list loc) (a b : nat) (n : Z) :
  a < 4 -> b < 4 ->
  forall w, CorrelationHeatmaps.bootr lib (take 4 forms) a b n w
            = CorrelationHeatmaps.bootr lib forms a b n w.
Proof.
  intros Ha Hb. unfold CorrelationHeatmaps.bootr. apply mmap_ext. intros _ w.
  unfold list_get. now rewrite !lookup_take_lt by lia.
Qed.

(** X16. [run_bootstrap_analysis] checks its list of forms only by using
    it.  It reads [forms[0]] to [forms[3]] and nothing beyond: a longer
    list gives the run of its first four entries.  With at least one
    iteration and fewer than four forms the run cannot return: it ends
    in an exception, at the latest when a pair names a missing form; on
    an empty list that is an [IndexError] right after the two headlines,
    before any draw or library call. *)
Theorem run_bootstrap_analysis_reads_four_forms {G} (lib : Library G) (w : World G)
    (forms : list loc) (n_iterations : Z) :
  CorrelationHeatmaps.run_bootstrap_analysis lib forms n_iterations w
  = CorrelationHeatmaps.run_bootstrap_analysis lib (take 4 forms) n_iterations w
  /\ ((1 <= n_iterations)%Z -> length forms < 4 ->
      exists e,
        fst (CorrelationHeatmaps.run_bootstrap_analysis lib forms n_iterations w)
        = Raise e)
  /\ ((1 <= n_iterations)%Z ->
      CorrelationHeatmaps.run_bootstrap_analysis lib [] n_iterations w
      = (Raise IndexError,
         mkWorld (store w) (rng w)
           (out w ++ [Print "#6 - Bootstrap Analysis";
                      Print "Format pairs: CI 2.5%, Mean, CI 97.5%"]))).
Proof.
  split; [|split].
  - symmetry. unfold CorrelationHeatmaps.run_bootstrap_analysis.
    apply bind_ext; [reflexivity|intros _ w1].
    apply bind_ext; [reflexivity|intros _ w2].
    apply bind_ext; [|reflexivity].
    apply mmap_ext_in. intros a w3 Ha. apply List.in_seq in Ha.
    apply mmap_ext_in. intros b w4 Hb. apply List.in_seq in Hb.
    apply bind_ext; [apply bootr_take; lia|intros first w5].
    apply bind_ext; [reflexivity|intros _ w6].
    apply bind_ext; [apply bootr_take; lia|reflexivity].
  - intros Hn Hlen.
    destruct (fst (CorrelationHeatmaps.run_bootstrap_analysis lib forms n_iterations w))
      as [[]|e] eqn:Hrun; [exfalso|now exists e].
    unfold CorrelationHeatmaps.run_bootstrap_analysis in Hrun.
    apply bind_Ok in Hrun. destruct Hrun as (_ & w1 & _ & Hrun).
    apply bind_Ok in Hrun. destruct Hrun as (_ & w2 & _ & Hrun).
    apply bind_Ok in Hrun. destruct Hrun as (rs & w3 & Hrun & _).
    destruct (mmap_Ok_In _ _ w2 rs (f_equal fst Hrun) 0) as (w4 & r0 & H0);
      [now left|].
    destruct (mmap_Ok_In _ _ w4 r0 H0 3) as (w5 & r3 & H3);
      [cbn; tauto|].
    apply bind_Ok in H3. destruct H3 as (first & w6 & Hfirst & _).
    unfold CorrelationHeatmaps.bootr, range in Hfirst.
    destruct (Z.to_nat n_iterations) as [|k] eqn:Hk; [lia|].
    destruct (mmap_Ok_In _ _ w5 first (f_equal fst Hfirst) 0) as (w7 & x & Hx);
      [now left|].
    apply bind_Ok in Hx. destruct Hx as (fa & w8 & _ & Hx).
    apply bind_Ok in Hx. destruct Hx as (fb & w9 & Hfb & _).
    unfold list_get in Hfb. destruct (forms !! 3) as [f3|] eqn:Hf3.
    + apply lookup_lt_Some in Hf3. lia.
    + discriminate.
  - intros Hn. unfold CorrelationHeatmaps.run_bootstrap_analysis,
      CorrelationHeatmaps.bootr, range.
    destruct (Z.to_nat n_iterations) as [|k] eqn:Hk; [lia|].
    destruct w as [s g o]. cbn [seq mmap]. unfold bind, emit, list_get, lift.
    cbn [store rng out lookup list_lookup]. now rewrite <- app_assoc.
Qed.

Lemma run_bootstrap_analysis_reads_four_forms_witness :
  exists e,
    fst (CorrelationHeatmaps.run_bootstrap_analysis (Demo.returning Demo.four_groups)
           [0; 0; 0] 1
           (mkWorld [partition_of Demo.four_groups 0] 0 []))
    = Raise e.
Proof.
  apply (proj1 (proj2 (run_bootstrap_analysis_reads_four_forms
                         (Demo.returning Demo.four_groups)
                         (mkWorld [partition_of Demo.four_groups 0] 0 [])
                         [0; 0; 0] 1))).
  - lia.
  - cbn [length]. lia.
Defined.

(** ** The adequacy tests: how the results are worded *)

Lemma cell_ltb_number (x : cell) (v : Q) :
  cell_ltb x v = true <-> exists q, x = Num q /\ (q < v)%Q.
Proof.
  destruct x as [|q]; simpl.
  - split; [discriminate|]. now intros (q & H & _).
  - rewrite negb_true_iff. split.
    + intros H. exists q. split; [reflexivity|].
      apply Qnot_le_lt. intros Hle. apply Qle_bool_iff in Hle. congruence.
    + intros (q' & [= <-] & H). destruct (Qle_bool v q) eqn:E; [|reflexivity].
      apply Qle_bool_iff in E. exfalso. exact (Qlt_not_le _ _ H E).
Qed.

Lemma interpretation_bands (x : cell) :
  let label := FactorAnalysis.interpretation x in
  (label = "Marvelous" <-> exists q, x = Num q /\ (double_0_9 <= q)%Q)
  /\ (label = "Meritorious" <-> exists q, x = Num q /\ (double_0_8 <= q < double_0_9)%Q)
  /\ (label = "Middling" <-> exists q, x = Num q /\ (double_0_7 <= q < double_0_8)%Q)
  /\ (label = "Mediocre" <-> exists q, x = Num q /\ (double_0_6 <= q < double_0_7)%Q)
  /\ (label = "Miserable" <-> exists q, x = Num q /\ (double_0_5 <= q < double_0_6)%Q)
  /\ (label = "Unacceptable" <-> x = NaN \/ exists q, x = Num q /\ (q < double_0_5)%Q).
Proof.
  cbv zeta. unfold FactorAnalysis.interpretation.
  destruct x as [|q].
  - cbn. repeat split; try discriminate; try (intros (q & H & _); discriminate).
    now left.
  - unfold cell_geb.
    destruct (Qle_bool double_0_9 q) eqn:E9;
      [apply Qle_bool_iff in E9
      |assert (q < double_0_9)%Q
         by (apply Qnot_le_lt; intros H; apply Qle_bool_iff in H; congruence);
       destruct (Qle_bool double_0_8 q) eqn:E8;
       [apply Qle_bool_iff in E8
       |assert (q < double_0_8)%Q
          by (apply Qnot_le_lt; intros H'; apply Qle_bool_iff in H'; congruence);
        destruct (Qle_bool double_0_7 q) eqn:E7;
        [apply Qle_bool_iff in E7
        |assert (q < double_0_7)%Q
           by (apply Qnot_le_lt; intros H'; apply Qle_bool_iff in H'; congruence);
         destruct (Qle_bool double_0_6 q) eqn:E6;
         [apply Qle_bool_iff in E6
         |assert (q < double_0_6)%Q
            by (apply Qnot_le_lt; intros H'; apply Qle_bool_iff in H'; congruence);
          destruct (Qle_bool double_0_5 q) eqn:E5;
          [apply Qle_bool_iff in E5
          |assert (q < double_0_5)%Q
             by (apply Qnot_le_lt; intros H'; apply Qle_bool_iff in H'; congruence)]]]]];
      repeat split; intros Hx;
      try discriminate;
      try (exists q; split; [reflexivity|]; try split; assumption);
      try (right; exists q; now split);
      try reflexivity;
      try (destruct Hx as [Hx|Hx]; [discriminate|]);
      try (destruct Hx as (q' & [= <-] & Hq); exfalso;
           unfold double_0_9, double_0_8, double_0_7, double_0_6, double_0_5 in *; lra).
Qed.

(** X17. How [perform_adequacy_tests] words what the library returned.
    When both tests return, it returns their three numbers unchanged and
    prints, after the values, one line for Bartlett's p and one for the
    overall KMO.  The bounds are the doubles the literals of the code
    denote.  The p line says the data are suitable exactly when p is a
    number below the double 0.001, and is the warning otherwise, also
    when p is not a number.  The KMO label is "Marvelous" from the double
    0.9, "Meritorious" from the double 0.8, "Middling" from the double
    0.7, "Mediocre" from the double 0.6, "Miserable" from 0.5, each bound
    included, and "Unacceptable" below 0.5 and for a KMO that is not a
    number.  The doubles 0.7 and 0.6 lie below 7/10 and 6/10: a KMO
    equal to the double 0.7 is "Middling", one equal to the double 0.6
    "Mediocre".  No value makes the function stop. *)
Theorem adequacy_results_worded {G} (lib : Library G) (w : World G) (matrix : loc)
    (df : DataFrame) (b : cell * cell) (k : list cell * cell) :
  store w !! matrix = Some df ->
  has_columns df QUESTION_COLS ->
  calculate_bartlett_sphericity lib (complete_cases df) = Ok b ->
  calculate_kmo lib (complete_cases df) = Ok k ->
  let r := FactorAnalysis.perform_adequacy_tests lib matrix w in
  let x := complete_cases df in
  exists line label,
    fst r = Ok (fst b, snd b, snd k)
    /\ added w (snd r)
       = [Print "Performing adequacy tests...";
          PrintCount "Complete cases for analysis: " (df_len x);
          CallBartlett x;
          PrintStats "Bartlett's Test of Sphericity" [fst b; snd b];
          Print line;
          CallKmo x;
          PrintStats "Overall KMO" [snd k];
          Print label]
    /\ (line = "Data is suitable for factor analysis (p < 0.001)"
        <-> exists q, snd b = Num q /\ (q < double_0_001)%Q)
    /\ (line = "Warning: p-value > 0.001"
        <-> snd b = NaN \/ exists q, snd b = Num q /\ (double_0_001 <= q)%Q)
    /\ (label = "Marvelous" <-> exists q, snd k = Num q /\ (double_0_9 <= q)%Q)
    /\ (label = "Meritorious" <-> exists q, snd k = Num q /\ (double_0_8 <= q < double_0_9)%Q)
    /\ (label = "Middling" <-> exists q, snd k = Num q /\ (double_0_7 <= q < double_0_8)%Q)
    /\ (label = "Mediocre" <-> exists q, snd k = Num q /\ (double_0_6 <= q < double_0_7)%Q)
    /\ (label = "Miserable" <-> exists q, snd k = Num q /\ (double_0_5 <= q < double_0_6)%Q)
    /\ (label = "Unacceptable"
        <-> snd k = NaN \/ exists q, snd k = Num q /\ (q < double_0_5)%Q)
    /\ (double_0_5 == 0.5 /\ double_0_6 < 0.6 /\ double_0_7 < 0.7
        /\ 0.8 < double_0_8 /\ 0.9 < double_0_9 /\ 0.001 < double_0_001)%Q
    /\ FactorAnalysis.interpretation (Num double_0_7) = "Middling"
    /\ FactorAnalysis.interpretation (Num double_0_6) = "Mediocre".
Proof.
  intros Hm Hc Hb Hk r x. subst r x.
  rewrite (perform_adequacy_tests_run lib w matrix df Hm Hc). cbv zeta.
  rewrite Hb, Hk. cbn [fst snd store rng out].
  exists (if cell_ltb (snd b) double_0_001
          then "Data is suitable for factor analysis (p < 0.001)"
          else "Warning: p-value > 0.001"),
         (FactorAnalysis.interpretation (snd k)).
  split; [reflexivity|].
  split; [apply added_app; now rewrite <- !app_assoc|].
  split; [|split].
  3:{ pose proof (interpretation_bands (snd k)) as H. cbv zeta in H.
      destruct H as (H9 & H8 & H7 & H6 & H5 & H0).
      repeat (split; [assumption|]).
      split; [|split; reflexivity].
      unfold double_0_5, double_0_6, double_0_7, double_0_8, double_0_9, double_0_001.
      repeat split; try reflexivity. }
  - rewrite <- cell_ltb_number. destruct (cell_ltb (snd b) double_0_001); split;
      try reflexivity; discriminate.
  - destruct (cell_ltb (snd b) double_0_001) eqn:E.
    + split; [discriminate|]. apply cell_ltb_number in E.
      destruct E as (q & Hq & Hlt). rewrite Hq.
      intros [H|(q' & [= <-] & Hge)]; [discriminate|]. exfalso. lra.
    + split; [intros _|reflexivity].
      destruct (snd b) as [|q]; [now left|]. right. exists q. split; [reflexivity|].
      simpl in E. apply negb_false_iff, Qle_bool_iff in E. exact E.
Qed.

Lemma adequacy_results_worded_witness :
  exists line label,
    fst (FactorAnalysis.perform_adequacy_tests (Demo.returning Demo.four_groups) 0
           (mkWorld [Demo.four_groups] 0 []))
    = Ok (Num 0, Num 1, Num 0.5)
    /\ (line = "Warning: p-value > 0.001"
        <-> Num 1 = NaN \/ exists q, Num 1 = Num q /\ (double_0_001 <= q)%Q)
    /\ (label = "Miserable"
        <-> exists q, Num 0.5 = Num q /\ (double_0_5 <= q < double_0_6)%Q).
Proof.
  destruct (adequacy_results_worded (Demo.returning Demo.four_groups)
              (mkWorld [Demo.four_groups] 0 []) 0 Demo.four_groups
              (Num 0, Num 1) ([], Num 0.5) eq_refl
              (has_columns_app_r _ _ _ (has_columns_app_r _ _ _ four_groups_columns))
              eq_refl eq_refl)
    as (line & label & Hfst & _ & _ & Hline & _ & _ & _ & _ & Hlabel & _).
  exists line, label. split; [exact Hfst|]. split; [exact Hline|exact Hlabel].
Defined.

(** ** The bootstrap: what is reported, and over how many samples *)

Section Reports.
Context {G X : Type} (lib : Library G) (proj : Event -> list X).

Local Abbreviation rp := (reports (G := G) proj).

Lemma reports_eq {A} (c : M G A) (e e' : list X) : rp c e -> e = e' -> rp c e'.
Proof. now intros H <-. Qed.

Lemma reports_silent {A} (c : M G A) :
  (forall w, out (snd (c w)) = out w) -> rp c [].
Proof.
  intros H w. exists []. rewrite app_nil_r.
  split; [apply H|]. split; [apply begins_nil|reflexivity].
Qed.

Lemma reports_ret {A} (a : A) : rp (ret a) [].
Proof. now apply reports_silent. Qed.

Lemma reports_lift {A} (r : Result A) : rp (lift r) [].
Proof. now apply reports_silent. Qed.

Lemma reports_emit (e : Event) : rp (emit e) (proj e).
Proof.
  intros w. exists [e]. cbn. rewrite app_nil_r.
  split; [reflexivity|]. split; [exists []; now rewrite app_nil_r|reflexivity].
Qed.

Lemma reports_bind {A B} (c : M G A) (k : A -> M G B) (e1 e2 : list X) :
  rp c e1 -> (forall a, rp (k a) e2) -> rp (bind c k) (e1 ++ e2).
Proof.
  intros Hc Hk w. rewrite bind_run.
  destruct (Hc w) as (evs1 & Hout1 & Hb1 & Hok1).
  destruct (c w) as [[a|e] w1]; cbn [fst snd] in *.
  - destruct (Hk a w1) as (evs2 & Hout2 & Hb2 & Hok2).
    exists (evs1 ++ evs2).
    rewrite flat_map_app, (Hok1 a eq_refl).
    split; [rewrite Hout2, Hout1; now rewrite app_assoc|]. split.
    + destruct Hb2 as [rest ->]. exists rest. now rewrite app_assoc.
    + intros b Hb. now rewrite (Hok2 b Hb).
  - exists evs1. split; [exact Hout1|]. split; [|discriminate].
    destruct Hb1 as [rest ->]. exists (rest ++ e2). now rewrite app_assoc.
Qed.

Lemma reports_bind_silent {A B} (c : M G A) (k : A -> M G B) :
  rp c [] -> (forall a, rp (k a) []) -> rp (bind c k) [].
Proof. intros Hc Hk. exact (reports_bind c k [] [] Hc Hk). Qed.

Lemma reports_emit_as (e : Event) (ex : list X) : proj e = ex -> rp (emit e) ex.
Proof. intros <-. apply reports_emit. Qed.

Lemma reports_call_as {A} (e : Event) (r : Result A) (ex : list X) :
  proj e = ex -> rp (call e r) ex.
Proof.
  intros <-. unfold call. eapply reports_eq.
  - eapply reports_bind; [apply reports_emit|intros _; apply reports_lift].
  - apply app_nil_r.
Qed.

Lemma reports_mmap {A B} (f : A -> M G B) (ex : A -> list X) (l : list A) :
  (forall x, rp (f x) (ex x)) -> rp (mmap f l) (flat_map ex l).
Proof.
  intros Hf. induction l as [|x l IH]; cbn [mmap flat_map].
  - apply reports_ret.
  - apply reports_bind; [apply Hf|]. intros b. eapply reports_eq.
    + eapply reports_bind; [apply IH|intros bs; apply reports_ret].
    + apply app_nil_r.
Qed.

Lemma reports_mmap_silent {A B} (f : A -> M G B) (l : list A) :
  (forall x, rp (f x) []) -> rp (mmap f l) [].
Proof.
  intros Hf. eapply reports_eq; [apply (reports_mmap f (fun _ => [])), Hf|].
  induction l as [|x l IH]; [reflexivity|exact IH].
Qed.

Lemma reports_deref (l : loc) : rp (deref l) [].
Proof. apply reports_silent. intros w. unfold deref. now destruct (store w !! l). Qed.

Lemma reports_alloc (df : DataFrame) : rp (alloc df) [].
Proof. now apply reports_silent. Qed.

Lemma reports_assign (l : loc) (df : DataFrame) : rp (assign l df) [].
Proof. now apply reports_silent. Qed.

Lemma reports_list_get {A} (xs : list A) (i : nat) : rp (list_get xs i) [].
Proof. apply reports_silent. intros w. unfold list_get. now destruct (xs !! i). Qed.

Lemma reports_if {A} (b : bool) (c1 c2 : M G A) (e : list X) :
  rp c1 e -> rp c2 e -> rp (if b then c1 else c2) e.
Proof. now destruct b. Qed.

Lemma reports_draw (n size : nat) :
  proj (CallChoice n size) = [] -> rp (draw lib n size) [].
Proof.
  intros Hp. unfold draw. eapply reports_eq.
  - eapply reports_bind; [apply reports_emit_as, Hp|]. intros _. apply reports_silent.
    intros w. now destruct (choice lib (rng w) n size).
  - reflexivity.
Qed.

End Reports.

Ltac reports_chain :=
  repeat lazymatch goal with
    | |- reports _ (bind _ _) [] => apply reports_bind_silent; [|intros]
    | |- reports _ (bind (mmap _ _) _) _ =>
        eapply reports_bind; [apply reports_mmap_silent; intros|intros]
    | |- reports _ (bind _ _) _ => eapply reports_bind; [|intros]
    | |- reports _ (ret _) _ => apply reports_ret
    | |- reports _ (lift _) _ => apply reports_lift
    | |- reports _ (deref _) _ => apply reports_deref
    | |- reports _ (alloc _) _ => apply reports_alloc
    | |- reports _ (assign _ _) _ => apply reports_assign
    | |- reports _ (list_get _ _) _ => apply reports_list_get
    | |- reports _ (draw _ _ _) _ => apply reports_draw; reflexivity
    | |- reports _ (if _ then _ else _) _ => apply reports_if
    | |- reports _ (mmap _ _) _ => apply reports_mmap_silent; intros
    | |- reports _ (emit _) _ => eapply reports_emit_as; simpl; reflexivity
    | |- reports _ (call _ _) _ => eapply reports_call_as; simpl; reflexivity
    end.

Section Pairs.
Context {G : Type} (lib : Library G).

Lemma reports_bootstrap_correlation (mat1 mat2 : loc) :
  reports pair_line (CorrelationHeatmaps.bootstrap_correlation lib mat1 mat2) [].
Proof.
  eapply reports_eq.
  - unfold CorrelationHeatmaps.bootstrap_correlation, df_sample, df_corr,
           CorrelationHeatmaps.get_upper_triangle.
    reports_chain.
  - reflexivity.
Qed.

Lemma reports_bootr (forms : list loc) (a b : nat) (n : Z) :
  reports pair_line (CorrelationHeatmaps.bootr lib forms a b n) [].
Proof.
  unfold CorrelationHeatmaps.bootr. apply reports_mmap_silent. intros _.
  eapply reports_eq.
  - eapply reports_bind; [apply reports_list_get|]. intros fa.
    eapply reports_bind; [apply reports_list_get|]. intros fb.
    apply reports_bootstrap_correlation.
  - reflexivity.
Qed.

Lemma reports_report (a b : nat) (samples : list cell) :
  reports pair_line (CorrelationHeatmaps.report lib a b samples)
          [[Num (inject_Z (Z.of_nat a)); Num (inject_Z (Z.of_nat b))]].
Proof.
  eapply reports_eq.
  - unfold CorrelationHeatmaps.report. reports_chain.
  - reflexivity.
Qed.

Lemma reports_run_bootstrap_analysis (forms : list loc) (n : Z) :
  reports pair_line (CorrelationHeatmaps.run_bootstrap_analysis lib forms n)
          pairs_expected.
Proof.
  eapply reports_eq.
  - unfold CorrelationHeatmaps.run_bootstrap_analysis.
    eapply reports_bind; [apply reports_emit|intros _].
    eapply reports_bind; [apply reports_emit|intros _].
    eapply reports_bind; [|intros _; apply reports_ret].
    apply (reports_mmap _ _
             (fun a => flat_map
                         (fun b => [[Num (inject_Z (Z.of_nat a));
                                     Num (inject_Z (Z.of_nat b))];
                                    [Num (inject_Z (Z.of_nat a));
                                     Num (inject_Z (Z.of_nat b))]])
                         (seq a (4 - a)))).
    intros a.
    apply (reports_mmap _ _
             (fun b => [[Num (inject_Z (Z.of_nat a)); Num (inject_Z (Z.of_nat b))];
                        [Num (inject_Z (Z.of_nat a)); Num (inject_Z (Z.of_nat b))]])).
    intros b. eapply reports_eq.
    + eapply reports_bind; [apply reports_bootr|intros first].
      eapply reports_bind; [apply reports_report|intros _].
      eapply reports_bind; [apply reports_bootr|intros second].
      eapply reports_bind; [apply reports_report|intros _].
      apply reports_emit.
    + reflexivity.
  - unfold pairs_expected. cbn [pair_line app]. now rewrite app_nil_r.
Qed.

End Pairs.

Section Summaries.
Context {G : Type} (lib : Library G) (k : nat).

Local Abbreviation sums := (emits_by (G := G) (summarises k)).
Local Abbreviation quiet := (traced_by (G := G) (summarises k)).

Lemma traced_silent {A} (c : M G A) :
  (forall w, out (snd (c w)) = out w) -> quiet c.
Proof.
  intros H w _. split; [exact I|]. split; [|auto].
  exists []. rewrite app_nil_r. split; [apply H|reflexivity].
Qed.

Lemma traced_alloc (df : DataFrame) : quiet (alloc df).
Proof. now apply traced_silent. Qed.

Lemma traced_draw (n size : nat) : quiet (draw lib n size).
Proof.
  unfold draw. apply traced_bind; [now apply traced_emit|]. intros _.
  apply traced_silent. intros w. now destruct (choice lib (rng w) n size).
Qed.

Lemma traced_bootstrap_correlation (mat1 mat2 : loc) :
  quiet (CorrelationHeatmaps.bootstrap_correlation lib mat1 mat2).
Proof.
  unfold CorrelationHeatmaps.bootstrap_correlation, df_sample, df_corr,
         CorrelationHeatmaps.get_upper_triangle.
  repeat lazymatch goal with
    | |- traced_by _ (bind _ _) => apply traced_bind; [|intros]
    | |- traced_by _ (ret _) => apply traced_ret
    | |- traced_by _ (lift _) => apply traced_lift
    | |- traced_by _ (deref _) => apply traced_deref
    | |- traced_by _ (alloc _) => apply traced_alloc
    | |- traced_by _ (draw _ _ _) => apply traced_draw
    | |- traced_by _ (call _ _) => apply traced_call; reflexivity
    end.
Qed.

Lemma triple_mmap_length {A B} (f : A -> M G B) (l : list A) :
  (forall a, quiet (f a)) ->
  triple (fun _ => True) sums (mmap f l) (fun bs => length bs = length l).
Proof.
  intros Hf. induction l as [|a l IH]; cbn [mmap].
  - apply triple_ret; [apply emits_refl|reflexivity].
  - eapply triple_bind; [apply emits_trans|apply Hf|]. intros b _.
    eapply triple_bind; [apply emits_trans|apply IH|]. intros bs Hbs.
    apply triple_ret; [apply emits_refl|]. cbn [length]. now rewrite Hbs.
Qed.

Lemma summarised_bootr (forms : list loc) (a b : nat) (n : Z) :
  Z.to_nat n = k ->
  triple (fun _ => True) sums (CorrelationHeatmaps.bootr lib forms a b n)
         (fun samples => length samples = k).
Proof.
  intros Hn. unfold CorrelationHeatmaps.bootr, range.
  eapply triple_weaken.
  - apply triple_mmap_length. intros _.
    apply traced_bind; [apply traced_list_get|]. intros fa.
    apply traced_bind; [apply traced_list_get|]. intros fb.
    apply traced_bootstrap_correlation.
  - intros samples Hlen. now rewrite Hlen, length_seq.
Qed.

Lemma summarised_report (a b : nat) (samples : list cell) :
  length samples = k -> quiet (CorrelationHeatmaps.report lib a b samples).
Proof.
  intros Hlen. unfold CorrelationHeatmaps.report.
  assert (Hk : Nat.eqb (length samples) k = true) by now apply Nat.eqb_eq.
  repeat (apply traced_bind;
          [apply traced_call; cbn [summarises]; now rewrite Hk|intros ?]).
  now apply traced_emit.
Qed.

Lemma summarised_run_bootstrap_analysis (forms : list loc) (n : Z) :
  Z.to_nat n = k -> quiet (CorrelationHeatmaps.run_bootstrap_analysis lib forms n).
Proof.
  intros Hn. unfold CorrelationHeatmaps.run_bootstrap_analysis.
  apply traced_bind; [now apply traced_emit|intros _].
  apply traced_bind; [now apply traced_emit|intros _].
  apply traced_bind; [|intros _; apply traced_ret].
  apply traced_mmap. intros a. apply traced_mmap. intros b.
  eapply triple_bind; [apply emits_trans|now apply summarised_bootr|].
  intros first Hfirst.
  apply traced_bind; [now apply summarised_report|intros _].
  eapply triple_bind; [apply emits_trans|now apply summarised_bootr|].
  intros second Hsecond.
  apply traced_bind; [now apply summarised_report|intros _].
  now apply traced_emit.
Qed.

End Summaries.

(** X18. What [run_bootstrap_analysis] reports.  For every list of forms,
    iteration count and library, the report lines name the pairs
    [(a, b)] with [0 <= a <= b <= 3] in the order of the two loops, self
    pairs included, each pair twice in a row (one line per bootstrap
    run): the pairs printed are always a beginning of that list of twenty
    and, when the run returns, all of it.  Every mean and percentile is
    taken of exactly [n_iterations] statistics (of none when the count is
    below 1), and the only percentiles asked for are the 2.5th and the
    97.5th. *)
Theorem run_bootstrap_analysis_reports {G} (lib : Library G) (w : World G)
    (forms : list loc) (n_iterations : Z) :
  let r := CorrelationHeatmaps.run_bootstrap_analysis lib forms n_iterations w in
  let evs := added w (snd r) in
  begins (pairs_reported evs) pairs_expected
  /\ (fst r = Ok tt -> pairs_reported evs = pairs_expected)
  /\ Forall (fun e => match e with
                      | CallMean xs => length xs = Z.to_nat n_iterations
                      | CallPercentile xs q =>
                          length xs = Z.to_nat n_iterations
                          /\ ((q == 2.5)%Q \/ (q == 97.5)%Q)
                      | _ => True
                      end) evs
  /\ pairs_expected
     = [[Num 0; Num 0]; [Num 0; Num 0]; [Num 0; Num 1]; [Num 0; Num 1];
        [Num 0; Num 2]; [Num 0; Num 2]; [Num 0; Num 3]; [Num 0; Num 3];
        [Num 1; Num 1]; [Num 1; Num 1]; [Num 1; Num 2]; [Num 1; Num 2];
        [Num 1; Num 3]; [Num 1; Num 3]; [Num 2; Num 2]; [Num 2; Num 2];
        [Num 2; Num 3]; [Num 2; Num 3]; [Num 3; Num 3]; [Num 3; Num 3]].
Proof.
  intros r evs. subst evs r.
  destruct (reports_run_bootstrap_analysis lib forms n_iterations w)
    as (evs & Hout & Hbegins & Hok).
  rewrite (added_app w _ evs Hout).
  split; [exact Hbegins|]. split; [apply Hok|]. split; [|reflexivity].
  destruct (summarised_run_bootstrap_analysis lib (Z.to_nat n_iterations) forms
              n_iterations eq_refl w I) as (_ & (evs' & Hout' & Hall) & _).
  rewrite Hout in Hout'. apply app_inv_head in Hout'. subst evs'.
  apply Forall_forall. intros e He. rewrite forallb_forall in Hall.
  apply list_elem_of_In, Hall in He. destruct e; try exact I; cbn [summarises] in He.
  - apply andb_prop in He. destruct He as [Hlen Hq]. split; [now apply Nat.eqb_eq|].
    apply orb_prop in Hq. destruct Hq as [Hq|Hq]; [left|right]; now apply Qeq_bool_iff.
  - now apply Nat.eqb_eq.
Qed.

Lemma run_bootstrap_analysis_reports_witness :
  pairs_reported
    (added (mkWorld [partition_of Demo.four_groups 0; partition_of Demo.four_groups 1;
                     partition_of Demo.four_groups 2; partition_of Demo.four_groups 3]
                    0 [])
       (snd (CorrelationHeatmaps.run_bootstrap_analysis (Demo.returning Demo.four_groups)
               [0; 1; 2; 3] 1
               (mkWorld [partition_of Demo.four_groups 0; partition_of Demo.four_groups 1;
                         partition_of Demo.four_groups 2; partition_of Demo.four_groups 3]
                        0 []))))
  = pairs_expected.
Proof.
  apply (proj1 (proj2 (run_bootstrap_analysis_reports (Demo.returning Demo.four_groups)
                         (mkWorld [partition_of Demo.four_groups 0;
                                   partition_of Demo.four_groups 1;
                                   partition_of Demo.four_groups 2;
                                   partition_of Demo.four_groups 3] 0 [])
                         [0; 1; 2; 3] 1))).
  vm_compute. reflexivity.
Defined.

(** ** [factor_analysis.main]: the order of the stages *)

Section Stages.
Context {G : Type} (lib : Library G).

Local Abbreviation st := (reports (G := G) stage_of).

Lemma ros_of_reports {A} (c : M G A) (e : list Stage) :
  st c e -> reports_or_skips stage_of c e.
Proof.
  intros H w. destruct (H w) as (evs & Hout & Hb & Hok).
  exists evs. split; [exact Hout|]. split; [exact Hb|]. intros a Ha. right. eauto.
Qed.

Lemma ros_skip {A} (c : M G A) (e : list Stage) :
  st c [] -> reports_or_skips stage_of c e.
Proof.
  intros H w. destruct (H w) as (evs & Hout & [rest Hrest] & _).
  symmetry in Hrest. apply app_eq_nil in Hrest. destruct Hrest as [Hnil _].
  exists evs. split; [exact Hout|]. rewrite Hnil.
  split; [apply begins_nil|]. intros a _. now left.
Qed.

Lemma ros_bind {A B} (c : M G A) (k : A -> M G B) (e : list Stage) :
  st c [] -> (forall a, reports_or_skips stage_of (k a) e) ->
  reports_or_skips stage_of (bind c k) e.
Proof.
  intros Hc Hk w. rewrite bind_run.
  destruct (Hc w) as (evs1 & Hout1 & [rest Hrest] & _).
  symmetry in Hrest. apply app_eq_nil in Hrest. destruct Hrest as [Hnil _].
  destruct (c w) as [[a|ex] w1]; cbn [fst snd] in *.
  - destruct (Hk a w1) as (evs2 & Hout2 & Hb2 & Hok2).
    exists (evs1 ++ evs2). rewrite flat_map_app, Hnil. cbn [app].
    split; [rewrite Hout2, Hout1; now rewrite app_assoc|]. now split.
  - exists evs1. rewrite Hnil. split; [exact Hout1|].
    split; [apply begins_nil|discriminate].
Qed.

Lemma ros_if {A} (b : bool) (c1 c2 : M G A) (e : list Stage) :
  reports_or_skips stage_of c1 e -> reports_or_skips stage_of c2 e ->
  reports_or_skips stage_of (if b then c1 else c2) e.
Proof. now destruct b. Qed.

Ltac unfold_methods :=
  unfold df_len_of, df_copy, df_getitem_cols, df_getitem_col, df_getitem_mask,
         df_drop_inplace, df_dropna.

Lemma stages_filter_data matrix : st (FactorAnalysis.filter_data matrix) [].
Proof.
  eapply reports_eq.
  - unfold FactorAnalysis.filter_data. unfold_methods. reports_chain.
  - reflexivity.
Qed.

Lemma stages_prepare_format_groups matrix :
  st (FactorAnalysis.prepare_format_groups matrix) [].
Proof.
  eapply reports_eq.
  - unfold FactorAnalysis.prepare_format_groups, FactorAnalysis.condition.
    unfold_methods. reports_chain.
  - reflexivity.
Qed.

Lemma stages_perform_adequacy_tests matrix :
  st (FactorAnalysis.perform_adequacy_tests lib matrix) [Adequacy; Adequacy].
Proof.
  eapply reports_eq.
  - unfold FactorAnalysis.perform_adequacy_tests. unfold_methods. reports_chain.
  - reflexivity.
Qed.

Lemma stages_fit_group ig : st (fit_group lib ig) [Extraction].
Proof.
  eapply reports_eq.
  - unfold fit_group. reports_chain.
  - reflexivity.
Qed.

Lemma stages_perform_factor_analysis g0 g1 g2 g3 :
  st (FactorAnalysis.perform_factor_analysis lib [g0; g1; g2; g3])
     [Extraction; Extraction; Extraction; Extraction].
Proof.
  rewrite perform_factor_analysis_loop. eapply reports_eq.
  - eapply reports_bind; [apply reports_emit|intros _].
    eapply reports_bind; [|intros fits; apply reports_ret].
    apply (reports_mmap _ _ (fun _ => [Extraction])). apply stages_fit_group.
  - reflexivity.
Qed.

Lemma stages_factor_tail adequacy groups fa :
  st (factor_tail adequacy groups fa) [Figure; Figure; Csv; Csv; Csv; Csv].
Proof.
  eapply reports_eq.
  - unfold factor_tail, FactorAnalysis.create_scree_plot,
           FactorAnalysis.create_loadings_heatmaps,
           FactorAnalysis.save_loadings_to_csv, FactorAnalysis.print_summary.
    reports_chain.
  - reflexivity.
Qed.

Lemma stages_analyses matrix g0 g1 g2 g3 :
  st (FactorAnalysis.analyses lib matrix [g0; g1; g2; g3]) stages_expected.
Proof.
  unfold FactorAnalysis.analyses. eapply reports_eq.
  - eapply reports_bind; [apply stages_perform_adequacy_tests|intros adequacy].
    rewrite factor_stage_tail.
    eapply reports_bind; [apply stages_perform_factor_analysis|intros fa].
    apply stages_factor_tail.
  - reflexivity.
Qed.

Lemma ros_bind_post {A B} (c : M G A) (k : A -> M G B) (Q : A -> Prop)
    (e : list Stage) :
  (forall w a, fst (c w) = Ok a -> Q a) ->
  st c [] -> (forall a, Q a -> reports_or_skips stage_of (k a) e) ->
  reports_or_skips stage_of (bind c k) e.
Proof.
  intros HQ Hc Hk w. rewrite bind_run.
  destruct (Hc w) as (evs1 & Hout1 & [rest Hrest] & _).
  symmetry in Hrest. apply app_eq_nil in Hrest. destruct Hrest as [Hnil _].
  specialize (HQ w).
  destruct (c w) as [[a|ex] w1]; cbn [fst snd] in *.
  - destruct (Hk a (HQ a eq_refl) w1) as (evs2 & Hout2 & Hb2 & Hok2).
    exists (evs1 ++ evs2). rewrite flat_map_app, Hnil. cbn [app].
    split; [rewrite Hout2, Hout1; now rewrite app_assoc|]. now split.
  - exists evs1. rewrite Hnil. split; [exact Hout1|].
    split; [apply begins_nil|discriminate].
Qed.

Lemma mmap_length {A B} (f : A -> M G B) (l : list A) :
  forall w bs, fst (mmap f l w) = Ok bs -> length bs = length l.
Proof.
  induction l as [|a l IH]; intros w bs H.
  - injection H as <-. reflexivity.
  - cbn [mmap] in H. apply bind_Ok in H. destruct H as (b & w1 & _ & H).
    apply bind_Ok in H. destruct H as (bs' & w2 & Hl & H).
    injection H as <-. cbn [length]. f_equal. apply (IH w1). now rewrite Hl.
Qed.

(** The partitioner returns four groups or raises. *)
Lemma prepare_format_groups_four matrix (w : World G) groups :
  fst (FactorAnalysis.prepare_format_groups matrix w) = Ok groups ->
  length groups = 4.
Proof.
  unfold FactorAnalysis.prepare_format_groups. intros H.
  do 7 (apply bind_Ok in H; destruct H as (? & ? & _ & H)).
  now apply mmap_length in H.
Qed.

Lemma stages_main : reports_or_skips stage_of (FactorAnalysis.main lib) stages_expected.
Proof.
  unfold FactorAnalysis.main.
  apply ros_bind; [now apply reports_emit_as|intros _].
  apply ros_bind; [now apply reports_call_as|intros csv].
  apply ros_bind; [apply reports_alloc|intros matrix].
  apply ros_bind; [now apply reports_emit_as|intros _].
  apply ros_bind; [apply stages_filter_data|intros filtered_matrix].
  apply ros_bind; [apply reports_deref|intros filtered].
  apply ros_if; [apply ros_skip, reports_ret|].
  apply (ros_bind_post _ _ (fun groups => length groups = 4));
    [intros w; apply prepare_format_groups_four
    |apply stages_prepare_format_groups|intros groups Hfour].
  apply ros_bind.
  { apply reports_mmap_silent. intros g. eapply reports_eq.
    - unfold df_len_of. reports_chain.
    - reflexivity. }
  intros sizes. apply ros_if; [apply ros_skip; now apply reports_emit_as|].
  destruct groups as [|g0 [|g1 [|g2 [|g3 [|g4 groups]]]]]; try discriminate.
  apply ros_of_reports, stages_analyses.
Qed.

End Stages.

(** X19. The stages of [factor_analysis.main] come in one order.  Seen as
    adequacy tests, fits, figures and exported files, every run of
    [main], whatever the file holds and the libraries return, shows a
    beginning of: Bartlett's test, KMO, four fits, the scree plot, the
    loadings heatmaps, four files.  An exception ends the run where it
    occurs and nothing later is done; a run of [main] that returns has
    either done none of it (nobody left, or an empty group) or all
    twelve, and [analyses] on four groups returns only after all
    twelve. *)
Theorem main_stage_order {G} (lib : Library G) (w : World G) :
  begins (stages (added w (snd (FactorAnalysis.main lib w)))) stages_expected
  /\ (fst (FactorAnalysis.main lib w) = Ok tt ->
      stages (added w (snd (FactorAnalysis.main lib w))) = []
      \/ stages (added w (snd (FactorAnalysis.main lib w))) = stages_expected)
  /\ (forall matrix g0 g1 g2 g3,
        begins (stages (added w (snd (FactorAnalysis.analyses lib matrix
                                        [g0; g1; g2; g3] w))))
               stages_expected
        /\ (fst (FactorAnalysis.analyses lib matrix [g0; g1; g2; g3] w) = Ok tt ->
            stages (added w (snd (FactorAnalysis.analyses lib matrix
                                    [g0; g1; g2; g3] w)))
            = stages_expected)).
Proof.
  split; [|split].
  - destruct (stages_main lib w) as (evs & Hout & Hb & _).
    now rewrite (added_app w _ evs Hout).
  - destruct (stages_main lib w) as (evs & Hout & _ & Hok).
    rewrite (added_app w _ evs Hout). apply Hok.
  - intros matrix g0 g1 g2 g3.
    destruct (stages_analyses lib matrix g0 g1 g2 g3 w) as (evs & Hout & Hb & Hok).
    rewrite (added_app w _ evs Hout). split; [exact Hb|apply Hok].
Qed.

Lemma main_stage_order_witness :
  stages (added Demo.empty_world
            (snd (FactorAnalysis.main (Demo.returning Demo.four_groups)
                    Demo.empty_world)))
  = stages_expected.
Proof.
  destruct (proj1 (proj2 (main_stage_order (Demo.returning Demo.four_groups)
                            Demo.empty_world)) eq_refl) as [H|H].
  - vm_compute in H. discriminate.
  - exact H.
Defined.
